(** * The autonomy controller of the Sei social agent

    A shallow embedding of [src/autonomy/autonomy-controller.ts]: the
    decision validation pipeline, the approval workflow with its timers,
    the escalation engine, the ledgers and the derived metrics.

    Conventions of the embedding.
    - A JavaScript [number] is an exact rational ([Q]); counters that the
      code only ever initialises to 0 and increments are integers ([Z]),
      as is the clock [Date.now()].  Rounding, NaN and infinities of IEEE
      doubles are outside the model.
    - An optional field ([x?: T]) is an [option]; JavaScript truthiness of
      such a field is written out ([truthy_num], [truthy_str]).
    - The controller object is the record [State]; a method is a
      computation in the monad [M], which threads the state and may throw.
    - [ApprovalRequest] objects are shared between the controller's map and
      the caller, so they live in an object store ([requests]) and the map
      [pendingApprovals] holds references into it.
    - [Date.now()] and the random suffix of an approval id are inputs; a
      method that reads the clock several times reads one value.
    - Every method runs to completion before the next one starts.
    - [validateAction] builds a [Decision] from an untyped action and hands
      it to [validateDecision]; the fields of the action that it reads are
      the record [Action].
    - The source file goes on, after the controller, with the payment
      system; of it the earnings tracker, [withdrawEarnings] and the
      payment streams are embedded, in a part of their own. *)

From Stdlib Require Import ZArith QArith Qminmax String Ascii List Bool Lia Lqa.
From stdpp Require Import base option list gmap strings pretty.

Open Scope string_scope.
Open Scope Z_scope.

(** ** Numbers *)

(** [a > b] on JavaScript numbers. *)
Definition Qgtb (a b : Q) : bool := negb (Qle_bool a b).

(** [a >= b] on JavaScript numbers. *)
Definition Qgeb (a b : Q) : bool := Qle_bool b a.

(** [a < b] on JavaScript numbers. *)
Definition Qltb (a b : Q) : bool := negb (Qle_bool b a).

(** [x || 0] for an optional number. *)
Definition num_or_zero (x : option Q) : Q :=
  match x with
  | Some q => q
  | None => 0%Q
  end.

(** Truthiness of an optional number: defined and not zero. *)
Definition truthy_num (x : option Q) : bool :=
  match x with
  | Some q => negb (Qeq_bool q 0)
  | None => false
  end.

(** Truthiness of an optional string: defined and not empty. *)
Definition truthy_str (x : option string) : bool :=
  match x with
  | Some EmptyString => false
  | Some _ => true
  | None => false
  end.

(** [x || dflt] for an optional string. *)
Definition str_or (x : option string) (dflt : string) : string :=
  match x with
  | Some EmptyString => dflt
  | Some s => s
  | None => dflt
  end.

(** ** Strings *)

(** [String.prototype.toLowerCase], on the ASCII letters. *)
Definition lower_ascii (c : ascii) : ascii :=
  let n := nat_of_ascii c in
  if (Nat.leb 65 n && Nat.leb n 90)%bool then ascii_of_nat (n + 32) else c.

Fixpoint toLowerCase (s : string) : string :=
  match s with
  | EmptyString => EmptyString
  | String c s' => String (lower_ascii c) (toLowerCase s')
  end.

Fixpoint starts_with (needle hay : string) : bool :=
  match needle, hay with
  | EmptyString, _ => true
  | String _ _, EmptyString => false
  | String a n', String b h' => if Ascii.eqb a b then starts_with n' h' else false
  end.

(** [hay.includes(needle)]. *)
Fixpoint includes (hay needle : string) : bool :=
  if starts_with needle hay then true
  else match hay with
       | EmptyString => false
       | String _ h' => includes h' needle
       end.

(** ** The data model *)

Inductive AutonomyLevel := SUPERVISED | SEMI_AUTONOMOUS | AUTONOMOUS | RESTRICTED.

Inductive TriggerType :=
  | SPENDING_THRESHOLD | CONTENT_FLAG | REPUTATION_DROP
  | ERROR_RATE | SUSPICIOUS_ACTIVITY | MANUAL_TRIGGER.

Inductive EscalationAction :=
  | PAUSE_AGENT | REQUEST_APPROVAL | NOTIFY_OWNER | REDUCE_AUTONOMY | LOG_INCIDENT.

Inductive DecisionType :=
  | CONTENT_CREATION | FINANCIAL_TRANSACTION | PLATFORM_INTERACTION
  | LEARNING_ADAPTATION | SERVICE_OFFERING | GOVERNANCE_PARTICIPATION
  | EMERGENCY_ACTION.

Inductive RiskLevel := LOW | MEDIUM | HIGH | CRITICAL.

Inductive Priority := PrioLow | PrioMedium | PrioHigh | PrioCritical.

Inductive Impact := Minimal | Moderate | Significant | Major.

Inductive Severity := SevWarning | SevError | SevCritical.

Inductive ApprovalStatus := Pending | Approved | Denied | Timeout.

#[global] Instance AutonomyLevel_eq_dec : EqDecision AutonomyLevel.
Proof. solve_decision. Defined.
#[global] Instance TriggerType_eq_dec : EqDecision TriggerType.
Proof. solve_decision. Defined.
#[global] Instance EscalationAction_eq_dec : EqDecision EscalationAction.
Proof. solve_decision. Defined.
#[global] Instance DecisionType_eq_dec : EqDecision DecisionType.
Proof. solve_decision. Defined.
#[global] Instance RiskLevel_eq_dec : EqDecision RiskLevel.
Proof. solve_decision. Defined.
#[global] Instance ApprovalStatus_eq_dec : EqDecision ApprovalStatus.
Proof. solve_decision. Defined.

(** The string value of a [TriggerType] member. *)
Definition TriggerType_value (t : TriggerType) : string :=
  match t with
  | SPENDING_THRESHOLD => "spending_threshold"
  | CONTENT_FLAG => "content_flag"
  | REPUTATION_DROP => "reputation_drop"
  | ERROR_RATE => "error_rate"
  | SUSPICIOUS_ACTIVITY => "suspicious_activity"
  | MANUAL_TRIGGER => "manual_trigger"
  end.

Record SpendingLimits := {
  dailyLimit : Q;
  perTransactionLimit : Q;
  platformLimits : gmap string Q;
  approvalRequiredAbove : Q;
  currencyLimits : gmap string Q
}.

(** [platform_specific_rules] is never read and is left out. *)
Record InteractionRules := {
  max_posts_per_hour : Q;
  max_posts_per_day : Q;
  max_replies_per_thread : Q;
  max_dm_conversations : Q;
  cooldown_between_posts : Q;
  forbidden_content_types : list string;
  required_disclaimers : list string
}.

Record EscalationTrigger := {
  trigger_type : TriggerType;
  condition : string;
  threshold : Q;
  action : EscalationAction;
  priority : Priority
}.

Record AutonomyConfig := {
  level : AutonomyLevel;
  spending_limits : SpendingLimits;
  interaction_rules : InteractionRules;
  escalation_triggers : list EscalationTrigger;
  approval_timeout : Q;
  emergency_contacts : list string
}.

Record DecisionContext := {
  platform : option string;
  target : option string;
  amount : option Q;
  currency : option string;
  urgency : Priority;
  potential_impact : Impact;
  reversible : bool;
  precedent_exists : bool
}.

Record Decision := {
  decision_id : string;
  decision_type : DecisionType;
  description : string;
  context : DecisionContext;
  risk_level : RiskLevel;
  estimated_cost : option Q;
  estimated_revenue : option Q;
  requires_approval : option bool;
  timestamp : Z;
  confidence : Q
}.

(** [conditions] is never set by the controller and is left out. *)
Record ValidationResult := {
  approved : bool;
  reason : option string;
  escalation_required : option bool;
  result_timeout : option Q
}.

Record ApprovalRequest := {
  request_id : string;
  request_decision : Decision;
  requested_at : Z;
  timeout_at : Q;
  status : ApprovalStatus;
  approver : option string;
  response_time : option Z;
  notes : option string
}.

Record GuardrailViolation := {
  violation_type : string;
  severity : Severity;
  violation_description : string;
  violation_timestamp : Z;
  violation_decision_id : option string;
  action_taken : string
}.

Record AutonomyMetrics := {
  decisions_made : Z;
  approvals_requested : Z;
  approval_rate : Q;
  average_response_time : Q;
  violations : Z;
  escalations : Z;
  autonomy_score : Z
}.

(** ** The controller's state *)

(** A JavaScript [Map<string, V>]: entries in insertion order, one per key. *)
Fixpoint jsmap_get {V} (k : string) (m : list (string * V)) : option V :=
  match m with
  | [] => None
  | (k', v) :: m' => if String.eqb k k' then Some v else jsmap_get k m'
  end.

Fixpoint jsmap_set {V} (k : string) (v : V) (m : list (string * V)) : list (string * V) :=
  match m with
  | [] => [(k, v)]
  | (k', v') :: m' =>
      if String.eqb k k' then (k', v) :: m' else (k', v') :: jsmap_set k v m'
  end.

Fixpoint jsmap_delete {V} (k : string) (m : list (string * V)) : list (string * V) :=
  match m with
  | [] => []
  | (k', v') :: m' =>
      if String.eqb k k' then m' else (k', v') :: jsmap_delete k m'
  end.

Definition jsmap_values {V} (m : list (string * V)) : list V := map snd m.

Record State := {
  config : AutonomyConfig;
  currentSpending : gmap string Q;
  interactionCounts : gmap string Z;
  pendingApprovals : list (string * nat);
  requests : list ApprovalRequest;
  violationHistory : list GuardrailViolation;
  decisionHistory : list Decision;
  metrics : AutonomyMetrics;
  emitted : list string
}.

Definition set_config (c : AutonomyConfig) (s : State) : State :=
  {| config := c; currentSpending := currentSpending s;
     interactionCounts := interactionCounts s;
     pendingApprovals := pendingApprovals s; requests := requests s;
     violationHistory := violationHistory s;
     decisionHistory := decisionHistory s; metrics := metrics s;
     emitted := emitted s |}.

Definition set_currentSpending (m : gmap string Q) (s : State) : State :=
  {| config := config s; currentSpending := m;
     interactionCounts := interactionCounts s;
     pendingApprovals := pendingApprovals s; requests := requests s;
     violationHistory := violationHistory s;
     decisionHistory := decisionHistory s; metrics := metrics s;
     emitted := emitted s |}.

Definition set_interactionCounts (m : gmap string Z) (s : State) : State :=
  {| config := config s; currentSpending := currentSpending s;
     interactionCounts := m;
     pendingApprovals := pendingApprovals s; requests := requests s;
     violationHistory := violationHistory s;
     decisionHistory := decisionHistory s; metrics := metrics s;
     emitted := emitted s |}.

Definition set_pendingApprovals (m : list (string * nat)) (s : State) : State :=
  {| config := config s; currentSpending := currentSpending s;
     interactionCounts := interactionCounts s;
     pendingApprovals := m; requests := requests s;
     violationHistory := violationHistory s;
     decisionHistory := decisionHistory s; metrics := metrics s;
     emitted := emitted s |}.

Definition set_requests (l : list ApprovalRequest) (s : State) : State :=
  {| config := config s; currentSpending := currentSpending s;
     interactionCounts := interactionCounts s;
     pendingApprovals := pendingApprovals s; requests := l;
     violationHistory := violationHistory s;
     decisionHistory := decisionHistory s; metrics := metrics s;
     emitted := emitted s |}.

Definition set_violationHistory (l : list GuardrailViolation) (s : State) : State :=
  {| config := config s; currentSpending := currentSpending s;
     interactionCounts := interactionCounts s;
     pendingApprovals := pendingApprovals s; requests := requests s;
     violationHistory := l;
     decisionHistory := decisionHistory s; metrics := metrics s;
     emitted := emitted s |}.

Definition set_decisionHistory (l : list Decision) (s : State) : State :=
  {| config := config s; currentSpending := currentSpending s;
     interactionCounts := interactionCounts s;
     pendingApprovals := pendingApprovals s; requests := requests s;
     violationHistory := violationHistory s;
     decisionHistory := l; metrics := metrics s;
     emitted := emitted s |}.

Definition set_metrics (m : AutonomyMetrics) (s : State) : State :=
  {| config := config s; currentSpending := currentSpending s;
     interactionCounts := interactionCounts s;
     pendingApprovals := pendingApprovals s; requests := requests s;
     violationHistory := violationHistory s;
     decisionHistory := decisionHistory s; metrics := m;
     emitted := emitted s |}.

Definition set_emitted (l : list string) (s : State) : State :=
  {| config := config s; currentSpending := currentSpending s;
     interactionCounts := interactionCounts s;
     pendingApprovals := pendingApprovals s; requests := requests s;
     violationHistory := violationHistory s;
     decisionHistory := decisionHistory s; metrics := metrics s;
     emitted := l |}.

Definition set_level (l : AutonomyLevel) (c : AutonomyConfig) : AutonomyConfig :=
  {| level := l; spending_limits := spending_limits c;
     interaction_rules := interaction_rules c;
     escalation_triggers := escalation_triggers c;
     approval_timeout := approval_timeout c;
     emergency_contacts := emergency_contacts c |}.

Definition set_spending_limits (l : SpendingLimits) (c : AutonomyConfig) : AutonomyConfig :=
  {| level := level c; spending_limits := l;
     interaction_rules := interaction_rules c;
     escalation_triggers := escalation_triggers c;
     approval_timeout := approval_timeout c;
     emergency_contacts := emergency_contacts c |}.

Definition set_interaction_rules (r : InteractionRules) (c : AutonomyConfig) : AutonomyConfig :=
  {| level := level c; spending_limits := spending_limits c;
     interaction_rules := r;
     escalation_triggers := escalation_triggers c;
     approval_timeout := approval_timeout c;
     emergency_contacts := emergency_contacts c |}.

Definition set_escalation_triggers (l : list EscalationTrigger) (c : AutonomyConfig) : AutonomyConfig :=
  {| level := level c; spending_limits := spending_limits c;
     interaction_rules := interaction_rules c;
     escalation_triggers := l;
     approval_timeout := approval_timeout c;
     emergency_contacts := emergency_contacts c |}.

Definition set_dailyLimit (q : Q) (l : SpendingLimits) : SpendingLimits :=
  {| dailyLimit := q; perTransactionLimit := perTransactionLimit l;
     platformLimits := platformLimits l;
     approvalRequiredAbove := approvalRequiredAbove l;
     currencyLimits := currencyLimits l |}.

Definition set_max_posts_per_hour (q : Q) (r : InteractionRules) : InteractionRules :=
  {| max_posts_per_hour := q; max_posts_per_day := max_posts_per_day r;
     max_replies_per_thread := max_replies_per_thread r;
     max_dm_conversations := max_dm_conversations r;
     cooldown_between_posts := cooldown_between_posts r;
     forbidden_content_types := forbidden_content_types r;
     required_disclaimers := required_disclaimers r |}.

Definition set_decisions_made (n : Z) (m : AutonomyMetrics) : AutonomyMetrics :=
  {| decisions_made := n; approvals_requested := approvals_requested m;
     approval_rate := approval_rate m;
     average_response_time := average_response_time m;
     violations := violations m; escalations := escalations m;
     autonomy_score := autonomy_score m |}.

Definition set_approvals_requested (n : Z) (m : AutonomyMetrics) : AutonomyMetrics :=
  {| decisions_made := decisions_made m; approvals_requested := n;
     approval_rate := approval_rate m;
     average_response_time := average_response_time m;
     violations := violations m; escalations := escalations m;
     autonomy_score := autonomy_score m |}.

Definition set_approval_rate (q : Q) (m : AutonomyMetrics) : AutonomyMetrics :=
  {| decisions_made := decisions_made m;
     approvals_requested := approvals_requested m;
     approval_rate := q;
     average_response_time := average_response_time m;
     violations := violations m; escalations := escalations m;
     autonomy_score := autonomy_score m |}.

Definition set_violations (n : Z) (m : AutonomyMetrics) : AutonomyMetrics :=
  {| decisions_made := decisions_made m;
     approvals_requested := approvals_requested m;
     approval_rate := approval_rate m;
     average_response_time := average_response_time m;
     violations := n; escalations := escalations m;
     autonomy_score := autonomy_score m |}.

Definition set_escalations (n : Z) (m : AutonomyMetrics) : AutonomyMetrics :=
  {| decisions_made := decisions_made m;
     approvals_requested := approvals_requested m;
     approval_rate := approval_rate m;
     average_response_time := average_response_time m;
     violations := violations m; escalations := n;
     autonomy_score := autonomy_score m |}.

Definition set_autonomy_score (n : Z) (m : AutonomyMetrics) : AutonomyMetrics :=
  {| decisions_made := decisions_made m;
     approvals_requested := approvals_requested m;
     approval_rate := approval_rate m;
     average_response_time := average_response_time m;
     violations := violations m; escalations := escalations m;
     autonomy_score := n |}.

(** ** Computations: state and exceptions *)

Inductive Exn :=
  | ListenerError (event : string)
  | UnhandledErrorEvent
  | InvalidApprovalRequest.

Inductive Outcome (A : Type) :=
  | Return (a : A) (s : State)
  | Raise (e : Exn) (s : State).
Arguments Return {A} a s.
Arguments Raise {A} e s.

Definition M (A : Type) : Type := State -> Outcome A.

Definition final_state {A} (o : Outcome A) : State :=
  match o with
  | Return _ s => s
  | Raise _ s => s
  end.

Definition returned {A} (o : Outcome A) : option A :=
  match o with
  | Return a _ => Some a
  | Raise _ _ => None
  end.

#[global] Instance M_ret : MRet M := fun A a s => Return a s.

#[global] Instance M_bind : MBind M := fun A B f m s =>
  match m s with
  | Return a s' => f a s'
  | Raise e s' => Raise e s'
  end.

Definition throw {A} (e : Exn) : M A := fun s => Raise e s.

Definition get : M State := fun s => Return s s.

Definition modify (f : State -> State) : M unit := fun s => Return tt (f s).

(** [try { body } catch (error) { handler }]. *)
Definition try_catch {A} (body : M A) (handler : Exn -> M A) : M A := fun s =>
  match body s with
  | Return a s' => Return a s'
  | Raise e s' => handler e s'
  end.

(** A call of an [async] method whose promise is dropped: the body runs
    (it has no suspension point), a rejection is not seen by the caller. *)
Definition detached {A} (m : M A) : M unit := fun s =>
  Return tt (final_state (m s)).

(** [for (const x of xs) body(x)]. *)
Fixpoint for_each {A} (xs : list A) (body : A -> M unit) : M unit :=
  match xs with
  | [] => mret tt
  | x :: xs' => body x ;; for_each xs' body
  end.

(** ** Event listeners *)

(** What the listeners registered for an event do when it is emitted.  The
    controller extends Node's [EventEmitter]: [emit] calls the listeners
    synchronously, so a listener that throws makes [emit] throw, and
    emitting ['error'] while no listener is registered for it throws.
    Listeners are assumed not to call back into the controller. *)
Inductive Listener := NoListener | ListenerReturns | ListenerThrows.

(** ** Parsing the hour bucket of an interaction key *)

(** [s.split(sep)], for a one-character separator. *)
Fixpoint split_on (sep : ascii) (s : string) : list string :=
  match s with
  | EmptyString => [EmptyString]
  | String c s' =>
      if Ascii.eqb c sep then EmptyString :: split_on sep s'
      else match split_on sep s' with
           | h :: t => String c h :: t
           | [] => [String c EmptyString]
           end
  end.

Definition digit_of (c : ascii) : option Z :=
  let n := nat_of_ascii c in
  if (Nat.leb 48 n && Nat.leb n 57)%bool then Some (Z.of_nat n - 48) else None.

Fixpoint parse_digits (s : string) (acc : option Z) : option Z :=
  match s with
  | EmptyString => acc
  | String c s' =>
      match digit_of c with
      | Some d => parse_digits s' (Some (10 * default 0 acc + d))
      | None => acc
      end
  end.

(** [parseInt(s)] on an optional sign followed by decimal digits; [None] is
    NaN.  (Leading white space and the [0x] prefix are not modelled.) *)
Definition parseInt (s : string) : option Z :=
  match s with
  | String "-"%char s' => Z.opp <$> parse_digits s' None
  | String "+"%char s' => parse_digits s' None
  | _ => parse_digits s None
  end.

(** [parseInt(key.split('_').pop() || '0')]. *)
Definition key_hour (key : string) : option Z :=
  parseInt (str_or (Some (List.last (split_on "_"%char key) EmptyString)) "0").

(** ** Partial updates of the limits and rules *)

Record PartialSpendingLimits := {
  new_dailyLimit : option Q;
  new_perTransactionLimit : option Q;
  new_platformLimits : option (gmap string Q);
  new_approvalRequiredAbove : option Q;
  new_currencyLimits : option (gmap string Q)
}.

Record PartialInteractionRules := {
  new_max_posts_per_hour : option Q;
  new_max_posts_per_day : option Q;
  new_max_replies_per_thread : option Q;
  new_max_dm_conversations : option Q;
  new_cooldown_between_posts : option Q;
  new_forbidden_content_types : option (list string);
  new_required_disclaimers : option (list string)
}.

(** [{ ...old, ...upd }]. *)
Definition merge_spending_limits (old : SpendingLimits) (upd : PartialSpendingLimits)
  : SpendingLimits :=
  {| dailyLimit := default (dailyLimit old) (new_dailyLimit upd);
     perTransactionLimit := default (perTransactionLimit old) (new_perTransactionLimit upd);
     platformLimits := default (platformLimits old) (new_platformLimits upd);
     approvalRequiredAbove :=
       default (approvalRequiredAbove old) (new_approvalRequiredAbove upd);
     currencyLimits := default (currencyLimits old) (new_currencyLimits upd) |}.

Definition merge_interaction_rules (old : InteractionRules) (upd : PartialInteractionRules)
  : InteractionRules :=
  {| max_posts_per_hour := default (max_posts_per_hour old) (new_max_posts_per_hour upd);
     max_posts_per_day := default (max_posts_per_day old) (new_max_posts_per_day upd);
     max_replies_per_thread :=
       default (max_replies_per_thread old) (new_max_replies_per_thread upd);
     max_dm_conversations :=
       default (max_dm_conversations old) (new_max_dm_conversations upd);
     cooldown_between_posts :=
       default (cooldown_between_posts old) (new_cooldown_between_posts upd);
     forbidden_content_types :=
       default (forbidden_content_types old) (new_forbidden_content_types upd);
     required_disclaimers :=
       default (required_disclaimers old) (new_required_disclaimers upd) |}.

(** ** Plain readers of the state *)

Definition with_status (st : ApprovalStatus) (r : ApprovalRequest) : ApprovalRequest :=
  {| request_id := request_id r; request_decision := request_decision r;
     requested_at := requested_at r; timeout_at := timeout_at r;
     status := st; approver := approver r;
     response_time := response_time r; notes := notes r |}.

(** The request's fields after a response has been written into it. *)
Definition with_response (st : ApprovalStatus) (who : string) (note : option string)
    (elapsed : Z) (r : ApprovalRequest) : ApprovalRequest :=
  {| request_id := request_id r; request_decision := request_decision r;
     requested_at := requested_at r; timeout_at := timeout_at r;
     status := st; approver := Some who;
     response_time := Some elapsed; notes := note |}.

Definition createValidationResult (s : State) (ok : bool) (why : option string)
    (escalate : option bool) : ValidationResult :=
  {| approved := ok;
     reason := why;
     escalation_required := escalate;
     result_timeout :=
       match escalate with
       | Some true => Some (approval_timeout (config s))
       | _ => None
       end |}.

Definition isDecisionTypeAllowed (s : State) (type : DecisionType) : bool :=
  match level (config s) with
  | RESTRICTED => bool_decide (type = LEARNING_ADAPTATION)
  | SUPERVISED =>
      bool_decide (type = LEARNING_ADAPTATION) || bool_decide (type = PLATFORM_INTERACTION)
  | SEMI_AUTONOMOUS => negb (bool_decide (type = FINANCIAL_TRANSACTION))
  | AUTONOMOUS => true
  end.

Definition validateRiskLevel (s : State) (decision : Decision) : ValidationResult :=
  match level (config s) with
  | RESTRICTED =>
      if negb (bool_decide (risk_level decision = LOW)) then
        createValidationResult s false
          (Some "Only low-risk decisions allowed in restricted mode") (Some true)
      else createValidationResult s true None None
  | SUPERVISED =>
      if bool_decide (risk_level decision = HIGH)
         || bool_decide (risk_level decision = CRITICAL) then
        createValidationResult s false
          (Some "High/critical risk decisions require approval") (Some true)
      else createValidationResult s true None None
  | SEMI_AUTONOMOUS =>
      if bool_decide (risk_level decision = CRITICAL) then
        createValidationResult s false
          (Some "Critical risk decisions require approval") (Some true)
      else createValidationResult s true None None
  | AUTONOMOUS => createValidationResult s true None None
  end.

Definition evaluateTrigger (trigger : EscalationTrigger) (decision : Decision) : bool :=
  match trigger_type trigger with
  | SPENDING_THRESHOLD =>
      Qgtb (num_or_zero (estimated_cost decision)) (threshold trigger)
  | REPUTATION_DROP => false
  | ERROR_RATE => false
  | _ => false
  end.

Definition calculateInitialAutonomyScore (c : AutonomyConfig) : Z :=
  match level c with
  | RESTRICTED => 25
  | SUPERVISED => 50
  | SEMI_AUTONOMOUS => 75
  | AUTONOMOUS => 100
  end.

Definition calculateAutonomyScore (s : State) : Z :=
  let score := calculateInitialAutonomyScore (config s) in
  let score := if Qgtb (approval_rate (metrics s)) (8 # 10) then score + 10 else score in
  let score := if violations (metrics s) <? 5 then score + 10 else score in
  let score := if escalations (metrics s) =? 0 then score + 5 else score in
  Z.min 100 (Z.max 0 score).

Definition getReducedAutonomyLevel (s : State) : AutonomyLevel :=
  match level (config s) with
  | AUTONOMOUS => SEMI_AUTONOMOUS
  | SEMI_AUTONOMOUS => SUPERVISED
  | SUPERVISED => RESTRICTED
  | _ => RESTRICTED
  end.

(** The key of the hour bucket of [platform] at time [now]. *)
Definition hourlyKey (platform : string) (now : Z) : string :=
  platform ++ "_" ++ pretty (now / (60 * 60 * 1000)).

Definition validateInteractionLimits (now : Z) (s : State) (decision : Decision)
  : ValidationResult :=
  let platform := str_or (platform (context decision)) "default" in
  let hourlyCount := default 0 (interactionCounts s !! hourlyKey platform now) in
  if Qgeb (inject_Z hourlyCount) (max_posts_per_hour (interaction_rules (config s))) then
    createValidationResult s false (Some "Hourly interaction limit exceeded") (Some false)
  else createValidationResult s true None None.

(** References held by the map, resolved in the object store. *)
Definition getPendingApprovals (s : State) : list ApprovalRequest :=
  omap (fun loc => requests s !! loc) (jsmap_values (pendingApprovals s)).

Definition getConfig (s : State) : AutonomyConfig := config s.

Definition getViolationHistory (s : State) : list GuardrailViolation :=
  violationHistory s.

(** [new AutonomyController(level, spendingLimits)]. *)
Definition getDefaultInteractionRules : InteractionRules :=
  {| max_posts_per_hour := 20; max_posts_per_day := 100;
     max_replies_per_thread := 5; max_dm_conversations := 50;
     cooldown_between_posts := 5;
     forbidden_content_types := ["spam"; "harassment"; "financial_advice"];
     required_disclaimers := ["AI disclaimer"] |}.

Definition getDefaultEscalationTriggers : list EscalationTrigger :=
  [ {| trigger_type := SPENDING_THRESHOLD;
       condition := "single_transaction_over_limit";
       threshold := 1000; action := REQUEST_APPROVAL; priority := PrioHigh |};
    {| trigger_type := ERROR_RATE;
       condition := "error_rate_above_threshold";
       threshold := 1 # 10; action := REDUCE_AUTONOMY; priority := PrioMedium |} ].

Definition newController (lvl : AutonomyLevel) (spendingLimits : SpendingLimits) : State :=
  let cfg := {| level := lvl; spending_limits := spendingLimits;
                interaction_rules := getDefaultInteractionRules;
                escalation_triggers := getDefaultEscalationTriggers;
                approval_timeout := 300; emergency_contacts := [] |} in
  {| config := cfg;
     currentSpending := ∅; interactionCounts := ∅;
     pendingApprovals := []; requests := [];
     violationHistory := []; decisionHistory := [];
     metrics := {| decisions_made := 0; approvals_requested := 0;
                   approval_rate := 0; average_response_time := 0;
                   violations := 0; escalations := 0;
                   autonomy_score := calculateInitialAutonomyScore cfg |};
     emitted := [] |}.

(** ** The controller's methods *)

Section Controller.

(** How a number is printed inside a template literal. *)
Variable numToString : Q -> string.

(** The listeners registered on the controller, by event name. *)
Variable listener : string -> Listener.

Definition emit (event : string) : M unit := fun s =>
  let s' := set_emitted (emitted s ++ [event]) s in
  match listener event with
  | ListenerReturns => Return tt s'
  | ListenerThrows => Raise (ListenerError event) s'
  | NoListener =>
      if String.eqb event "error" then Raise UnhandledErrorEvent s'
      else Return tt s'
  end.

Definition validateSpending (s : State) (decision : Decision) : ValidationResult :=
  let cost := num_or_zero (estimated_cost decision) in
  let currency := str_or (currency (context decision)) "SEI" in
  let limits := spending_limits (config s) in
  if Qgtb cost (perTransactionLimit limits) then
    createValidationResult s false
      (Some ("Transaction exceeds per-transaction limit (" ++ numToString cost
             ++ " > " ++ numToString (perTransactionLimit limits) ++ ")"))
      (Some true)
  else
    let dailySpent := default 0%Q (currentSpending s !! currency) in
    if Qgtb (dailySpent + cost) (dailyLimit limits) then
      createValidationResult s false
        (Some ("Transaction would exceed daily limit ("
               ++ numToString (dailySpent + cost)%Q
               ++ " > " ++ numToString (dailyLimit limits) ++ ")"))
        (Some true)
    else if Qgtb cost (approvalRequiredAbove limits) then
      createValidationResult s false
        (Some ("Transaction exceeds approval threshold (" ++ numToString cost
               ++ " > " ++ numToString (approvalRequiredAbove limits) ++ ")"))
        (Some true)
    else createValidationResult s true None None.

Definition recordViolation (violation : GuardrailViolation) : M unit :=
  modify (fun s => set_violationHistory (violationHistory s ++ [violation]) s) ;;
  modify (fun s => set_metrics (set_violations (violations (metrics s) + 1) (metrics s)) s) ;;
  emit "guardrail_violation" ;;
  modify (fun s =>
    if Nat.ltb 1000 (length (violationHistory s)) then
      set_violationHistory
        (drop (length (violationHistory s) - 500) (violationHistory s)) s
    else s).

Fixpoint validateContent_loop (now : Z) (decision : Decision) (description : string)
    (forbiddenTypes : list string) : M ValidationResult :=
  match forbiddenTypes with
  | [] => s ← get; mret (createValidationResult s true None None)
  | forbidden :: rest =>
      if includes description (toLowerCase forbidden) then
        recordViolation
          {| violation_type := "content_policy";
             severity := SevError;
             violation_description := "Content contains forbidden type: " ++ forbidden;
             violation_timestamp := now;
             violation_decision_id := Some (decision_id decision);
             action_taken := "blocked" |} ;;
        s ← get;
        mret (createValidationResult s false
                (Some ("Content contains forbidden type: " ++ forbidden)) None)
      else validateContent_loop now decision description rest
  end.

Definition validateContent (now : Z) (decision : Decision) : M ValidationResult :=
  s ← get;
  validateContent_loop now decision (toLowerCase (description decision))
    (forbidden_content_types (interaction_rules (config s))).

Definition recordApprovedDecision (now : Z) (decision : Decision) : M unit :=
  (if truthy_num (estimated_cost decision)
      && truthy_str (currency (context decision)) then
     let currency := str_or (currency (context decision)) "" in
     let cost := num_or_zero (estimated_cost decision) in
     modify (fun s =>
       let currentSpent := default 0%Q (currentSpending s !! currency) in
       set_currentSpending (<[currency := (currentSpent + cost)%Q]> (currentSpending s)) s)
   else mret tt) ;;
  (if bool_decide (decision_type decision = PLATFORM_INTERACTION)
      && truthy_str (platform (context decision)) then
     let platform := str_or (platform (context decision)) "" in
     modify (fun s =>
       let count := default 0 (interactionCounts s !! hourlyKey platform now) in
       set_interactionCounts
         (<[hourlyKey platform now := count + 1]> (interactionCounts s)) s)
   else mret tt) ;;
  emit "decision_approved".

Definition adjustLimitsForLevel (lvl : AutonomyLevel) (c : AutonomyConfig)
  : AutonomyConfig :=
  let clamp (daily posts : Q) :=
    set_interaction_rules
      (set_max_posts_per_hour
         (Qmin posts (max_posts_per_hour (interaction_rules c))) (interaction_rules c))
      (set_spending_limits
         (set_dailyLimit (Qmin daily (dailyLimit (spending_limits c)))
            (spending_limits c)) c) in
  match lvl with
  | RESTRICTED => clamp 10%Q 2%Q
  | SUPERVISED => clamp 100%Q 10%Q
  | _ => c
  end.

Definition updateAutonomyLevel (newLevel : AutonomyLevel) (why : string) : M unit :=
  modify (fun s => set_config (set_level newLevel (config s)) s) ;;
  modify (fun s => set_config (adjustLimitsForLevel newLevel (config s)) s) ;;
  emit "autonomy_level_changed" ;;
  modify (fun s => set_metrics (set_autonomy_score (calculateAutonomyScore s) (metrics s)) s).

Definition updateSpendingLimits (newLimits : PartialSpendingLimits) : M unit :=
  modify (fun s =>
    set_config
      (set_spending_limits
         (merge_spending_limits (spending_limits (config s)) newLimits) (config s)) s) ;;
  emit "spending_limits_updated".

Definition updateInteractionRules (newRules : PartialInteractionRules) : M unit :=
  modify (fun s =>
    set_config
      (set_interaction_rules
         (merge_interaction_rules (interaction_rules (config s)) newRules) (config s)) s) ;;
  emit "interaction_rules_updated".

Definition addEscalationTrigger (trigger : EscalationTrigger) : M unit :=
  modify (fun s =>
    set_config
      (set_escalation_triggers (escalation_triggers (config s) ++ [trigger]) (config s)) s) ;;
  emit "escalation_trigger_added".

Definition removeEscalationTrigger (triggerType : TriggerType) : M unit :=
  modify (fun s =>
    set_config
      (set_escalation_triggers
         (List.filter (fun t => negb (bool_decide (trigger_type t = triggerType)))
            (escalation_triggers (config s))) (config s)) s) ;;
  emit "escalation_trigger_removed".

(** [request.status = st] on the object behind a reference. *)
Definition write_status (loc : nat) (st : ApprovalStatus) : M unit :=
  modify (fun s => set_requests (alter (with_status st) loc (requests s)) s).

Definition triggerEmergencyStop (why : string) : M unit :=
  updateAutonomyLevel RESTRICTED ("Emergency stop: " ++ why) ;;
  s ← get;
  for_each (pendingApprovals s) (fun entry =>
    write_status (snd entry) Denied ;;
    emit "approval_cancelled") ;;
  modify (set_pendingApprovals []) ;;
  emit "emergency_stop_triggered".

Definition getMetrics : M AutonomyMetrics :=
  modify (fun s => set_metrics (set_autonomy_score (calculateAutonomyScore s) (metrics s)) s) ;;
  s ← get;
  mret (metrics s).

(** The id that [requestApproval] builds from the clock and a random suffix. *)
Definition approvalIdOf (now : Z) (rnd : string) : string :=
  "approval_" ++ pretty now ++ "_" ++ rnd.

(** Returns the reference to the new request object.  The deferred
    callback it schedules is [approvalTimeoutFired] on the same id. *)
Definition requestApproval (now : Z) (rnd : string) (decision : Decision) : M nat :=
  let approvalId := approvalIdOf now rnd in
  s ← get;
  let request :=
    {| request_id := approvalId; request_decision := decision;
       requested_at := now;
       timeout_at := (inject_Z now + approval_timeout (config s) * 1000)%Q;
       status := Pending; approver := None; response_time := None; notes := None |} in
  let loc := length (requests s) in
  modify (set_requests (requests s ++ [request])) ;;
  modify (fun s => set_pendingApprovals (jsmap_set approvalId loc (pendingApprovals s)) s) ;;
  modify (fun s =>
    set_metrics (set_approvals_requested (approvals_requested (metrics s) + 1) (metrics s)) s) ;;
  emit "approval_requested" ;;
  mret loc.

(** The body of the [setTimeout] callback of [requestApproval]. *)
Definition approvalTimeoutFired (approvalId : string) : M unit :=
  s ← get;
  match jsmap_get approvalId (pendingApprovals s) with
  | Some loc =>
      match requests s !! loc with
      | Some pendingRequest =>
          if bool_decide (status pendingRequest = Pending) then
            write_status loc Timeout ;;
            emit "approval_timeout"
          else mret tt
      | None => mret tt
      end
  | None => mret tt
  end.

Definition updateApprovalRate (ok : bool) : M unit :=
  modify (fun s =>
    let totalRequests := inject_Z (approvals_requested (metrics s)) in
    let currentApprovals := (approval_rate (metrics s) * (totalRequests - 1))%Q in
    set_metrics
      (set_approval_rate
         ((currentApprovals + (if ok then 1 else 0)) / totalRequests)%Q (metrics s)) s).

Definition processApprovalResponse (now : Z) (requestId : string) (ok : bool)
    (who : string) (note : option string) : M unit :=
  s ← get;
  match jsmap_get requestId (pendingApprovals s) with
  | None => throw InvalidApprovalRequest
  | Some loc =>
      match requests s !! loc with
      | None => throw InvalidApprovalRequest
      | Some request =>
          if negb (bool_decide (status request = Pending)) then
            throw InvalidApprovalRequest
          else
            modify (fun s =>
              set_requests
                (alter (with_response (if ok then Approved else Denied) who note
                          (now - requested_at request)) loc (requests s)) s) ;;
            (if ok then
               updateApprovalRate true ;;
               detached (recordApprovedDecision now (request_decision request))
             else updateApprovalRate false) ;;
            emit "approval_processed" ;;
            modify (fun s =>
              set_pendingApprovals (jsmap_delete requestId (pendingApprovals s)) s)
      end
  end.

Definition executeEscalationAction (now : Z) (rnd : string)
    (trigger : EscalationTrigger) (decision : Decision) : M unit :=
  modify (fun s => set_metrics (set_escalations (escalations (metrics s) + 1) (metrics s)) s) ;;
  match action trigger with
  | PAUSE_AGENT =>
      triggerEmergencyStop
        ("Escalation trigger: " ++ TriggerType_value (trigger_type trigger))
  | REQUEST_APPROVAL => detached (requestApproval now rnd decision)
  | NOTIFY_OWNER => emit "owner_notification"
  | REDUCE_AUTONOMY =>
      s ← get;
      updateAutonomyLevel (getReducedAutonomyLevel s)
        ("Escalation trigger: " ++ TriggerType_value (trigger_type trigger))
  | LOG_INCIDENT =>
      recordViolation
        {| violation_type := TriggerType_value (trigger_type trigger);
           severity := SevWarning;
           violation_description :=
             "Escalation trigger activated: " ++ condition trigger;
           violation_timestamp := now;
           violation_decision_id := Some (decision_id decision);
           action_taken := "logged" |}
  end.

Fixpoint checkEscalationTriggers_loop (now : Z) (rnd : string) (decision : Decision)
    (triggers : list EscalationTrigger) : M ValidationResult :=
  match triggers with
  | [] => s ← get; mret (createValidationResult s true None None)
  | trigger :: rest =>
      if evaluateTrigger trigger decision then
        executeEscalationAction now rnd trigger decision ;;
        s ← get;
        mret (createValidationResult s false
                (Some ("Escalation trigger activated: "
                       ++ TriggerType_value (trigger_type trigger)))
                (Some true))
      else checkEscalationTriggers_loop now rnd decision rest
  end.

Definition checkEscalationTriggers (now : Z) (rnd : string) (decision : Decision)
  : M ValidationResult :=
  s ← get;
  checkEscalationTriggers_loop now rnd decision (escalation_triggers (config s)).

(** [const check = ...; if (!check.approved) return check; rest]. *)
Definition unless_denied (check : M ValidationResult) (rest : M ValidationResult)
  : M ValidationResult :=
  r ← check;
  if approved r then rest else mret r.

(** [if (applies) { const check = ...; if (!check.approved) return check; } rest]. *)
Definition when_applies (applies : bool) (check : M ValidationResult)
    (rest : M ValidationResult) : M ValidationResult :=
  if applies then unless_denied check rest else rest.

(** The state once the decision is in the history and counted. *)
Definition submitted (decision : Decision) (s : State) : State :=
set_metrics (set_decisions_made (decisions_made (metrics s) + 1) (metrics s))
  (set_decisionHistory (decisionHistory s ++ [decision]) s).

(** The checks of [validateDecision] that follow the type gate. *)
Definition validateDecision_checks (now : Z) (rnd : string) (decision : Decision)
  : M ValidationResult :=
when_applies
  (bool_decide (decision_type decision = FINANCIAL_TRANSACTION)
   && truthy_num (estimated_cost decision))
  (s ← get; mret (validateSpending s decision))
  (when_applies (bool_decide (decision_type decision = PLATFORM_INTERACTION))
     (s ← get; mret (validateInteractionLimits now s decision))
     (when_applies (bool_decide (decision_type decision = CONTENT_CREATION))
        (validateContent now decision)
        (unless_denied (s ← get; mret (validateRiskLevel s decision))
           (escalationCheck ← checkEscalationTriggers now rnd decision;
            if bool_decide (escalation_required escalationCheck = Some true) then
              mret escalationCheck
            else
              recordApprovedDecision now decision ;;
              s ← get;
              mret (createValidationResult s true
                      (Some "Decision approved within autonomy parameters") None))))).

(** The [try] block of [validateDecision]. *)
Definition validateDecision_body (now : Z) (rnd : string) (decision : Decision)
  : M ValidationResult :=
modify (submitted decision) ;;
s ← get;
if negb (isDecisionTypeAllowed s (decision_type decision)) then
  mret (createValidationResult s false
          (Some "Decision type not allowed at current autonomy level") (Some true))
else validateDecision_checks now rnd decision.

(** The [catch] block of [validateDecision]. *)
Definition validateDecision_catch (error : Exn) : M ValidationResult :=
emit "error" ;;
s ← get;
mret (createValidationResult s false (Some "Validation error occurred") (Some true)).

Definition validateDecision (now : Z) (rnd : string) (decision : Decision)
  : M ValidationResult :=
try_catch (validateDecision_body now rnd decision) validateDecision_catch.

(** *** The periodic maintenance tasks *)

Definition resetDailySpending : M unit :=
  modify (set_currentSpending ∅).

Definition pruneInteractionCounts (now : Z) : M unit :=
  let cutoff := now / (60 * 60 * 1000) - 24 in
  modify (fun s =>
    set_interactionCounts
      (filter (fun entry : string * Z =>
                 match key_hour (fst entry) with
                 | Some hour => hour <? cutoff
                 | None => false
                 end = false)
         (interactionCounts s)) s).

Definition sweepExpiredApprovals (now : Z) : M unit :=
  s ← get;
  for_each (pendingApprovals s) (fun entry =>
    s' ← get;
    match requests s' !! snd entry with
    | Some request =>
        if Qltb (timeout_at request) (inject_Z now)
           && bool_decide (status request = Pending) then
          write_status (snd entry) Timeout ;;
          modify (fun s =>
            set_pendingApprovals (jsmap_delete (fst entry) (pendingApprovals s)) s) ;;
          emit "approval_timeout"
        else mret tt
    | None => mret tt
    end).

(** *** Everything that can happen to a controller *)

Inductive Call :=
  | CallValidateDecision (now : Z) (rnd : string) (decision : Decision)
  | CallRequestApproval (now : Z) (rnd : string) (decision : Decision)
  | CallProcessApprovalResponse (now : Z) (requestId : string) (ok : bool)
      (who : string) (note : option string)
  | CallUpdateAutonomyLevel (newLevel : AutonomyLevel) (why : string)
  | CallUpdateSpendingLimits (newLimits : PartialSpendingLimits)
  | CallUpdateInteractionRules (newRules : PartialInteractionRules)
  | CallAddEscalationTrigger (trigger : EscalationTrigger)
  | CallRemoveEscalationTrigger (triggerType : TriggerType)
  | CallTriggerEmergencyStop (why : string)
  | CallGetMetrics
  | TimerApprovalTimeout (approvalId : string)
  | TimerResetDailySpending
  | TimerPruneInteractionCounts (now : Z)
  | TimerSweepExpiredApprovals (now : Z).

(** The state a call leaves behind, whether it returns or throws. *)
Definition run_call (c : Call) (s : State) : State :=
  match c with
  | CallValidateDecision now rnd d => final_state (validateDecision now rnd d s)
  | CallRequestApproval now rnd d => final_state (requestApproval now rnd d s)
  | CallProcessApprovalResponse now id ok who note =>
      final_state (processApprovalResponse now id ok who note s)
  | CallUpdateAutonomyLevel lvl why => final_state (updateAutonomyLevel lvl why s)
  | CallUpdateSpendingLimits l => final_state (updateSpendingLimits l s)
  | CallUpdateInteractionRules r => final_state (updateInteractionRules r s)
  | CallAddEscalationTrigger t => final_state (addEscalationTrigger t s)
  | CallRemoveEscalationTrigger ty => final_state (removeEscalationTrigger ty s)
  | CallTriggerEmergencyStop why => final_state (triggerEmergencyStop why s)
  | CallGetMetrics => final_state (getMetrics s)
  | TimerApprovalTimeout id => final_state (approvalTimeoutFired id s)
  | TimerResetDailySpending => final_state (resetDailySpending s)
  | TimerPruneInteractionCounts now => final_state (pruneInteractionCounts now s)
  | TimerSweepExpiredApprovals now => final_state (sweepExpiredApprovals now s)
  end.

Inductive reachable : State -> Prop :=
  | reachable_new lvl spendingLimits : reachable (newController lvl spendingLimits)
  | reachable_call s c : reachable s -> reachable (run_call c s).

End Controller.

(** ** The specification's tables *)

(** The decision types the specification allows at each level. *)
Definition spec_allow_set (lvl : AutonomyLevel) : list DecisionType :=
  match lvl with
  | RESTRICTED => [LEARNING_ADAPTATION]
  | SUPERVISED => [LEARNING_ADAPTATION; PLATFORM_INTERACTION]
  | SEMI_AUTONOMOUS =>
      [CONTENT_CREATION; PLATFORM_INTERACTION; LEARNING_ADAPTATION;
       SERVICE_OFFERING; GOVERNANCE_PARTICIPATION; EMERGENCY_ACTION]
  | AUTONOMOUS =>
      [CONTENT_CREATION; FINANCIAL_TRANSACTION; PLATFORM_INTERACTION;
       LEARNING_ADAPTATION; SERVICE_OFFERING; GOVERNANCE_PARTICIPATION;
       EMERGENCY_ACTION]
  end.

(** The base score the specification gives each level. *)
Definition spec_base_score (lvl : AutonomyLevel) : Z :=
  match lvl with
  | RESTRICTED => 25
  | SUPERVISED => 50
  | SEMI_AUTONOMOUS => 75
  | AUTONOMOUS => 100
  end.

(** The score the specification derives from a level and the metrics. *)
Definition spec_autonomy_score (lvl : AutonomyLevel) (m : AutonomyMetrics) : Z :=
  let bonus_rate := if Qgtb (approval_rate m) (8 # 10) then 10 else 0 in
  let bonus_violations := if violations m <? 5 then 10 else 0 in
  let bonus_escalations := if escalations m =? 0 then 5 else 0 in
  Z.min 100
    (Z.max 0 (spec_base_score lvl + bonus_rate + bonus_violations + bonus_escalations)).

(** The position of a level on the ladder
    Restricted, Supervised, SemiAutonomous, Autonomous. *)
Definition rung (lvl : AutonomyLevel) : Z :=
  match lvl with
  | RESTRICTED => 0
  | SUPERVISED => 1
  | SEMI_AUTONOMOUS => 2
  | AUTONOMOUS => 3
  end.

(** ** Series of escalations *)

(** One rung down the ladder, as the specification draws it. *)
Definition spec_one_rung_down (lvl : AutonomyLevel) : AutonomyLevel :=
  match lvl with
  | AUTONOMOUS => SEMI_AUTONOMOUS
  | SEMI_AUTONOMOUS => SUPERVISED
  | SUPERVISED => RESTRICTED
  | RESTRICTED => RESTRICTED
  end.

(** The levels that [n] successive downgrades from [lvl] pass through. *)
Fixpoint spec_descent (lvl : AutonomyLevel) (n : nat) : list AutonomyLevel :=
  match n with
  | O => []
  | S n' => spec_one_rung_down lvl :: spec_descent (spec_one_rung_down lvl) n'
  end.

(** One escalation: the clock, the random suffix, the trigger that fired and
    the decision under validation. *)
Record Escalation := {
  esc_now : Z;
  esc_rnd : string;
  esc_trigger : EscalationTrigger;
  esc_decision : Decision
}.

(** The levels the controller is at after each of a series of escalations. *)
Fixpoint levels_visited (listener : string -> Listener) (steps : list Escalation)
    (s : State) : list AutonomyLevel :=
  match steps with
  | [] => []
  | e :: rest =>
      let s' :=
        final_state
          (executeEscalationAction listener (esc_now e) (esc_rnd e)
             (esc_trigger e) (esc_decision e) s) in
      level (config s') :: levels_visited listener rest s'
  end.

(** ** Named results and records *)

(** The denial that [checkEscalationTriggers] returns for a trigger. *)
Definition escalation_denial (s : State) (trigger : EscalationTrigger)
  : ValidationResult :=
  createValidationResult s false
    (Some ("Escalation trigger activated: " ++ TriggerType_value (trigger_type trigger)))
    (Some true).

(** The violation that [validateContent] records for a forbidden entry. *)
Definition content_violation (now : Z) (d : Decision) (forbidden : string)
  : GuardrailViolation :=
  {| violation_type := "content_policy";
     severity := SevError;
     violation_description := "Content contains forbidden type: " ++ forbidden;
     violation_timestamp := now;
     violation_decision_id := Some (decision_id d);
     action_taken := "blocked" |}.

(** ** Reasoning about computations *)

(** From a state satisfying [P], the computation returns [a] in a state
    satisfying [Q a], or throws [e] in a state satisfying [E e]. *)
Definition hoare {A} (P : State -> Prop) (m : M A)
    (Q : A -> State -> Prop) (E : Exn -> State -> Prop) : Prop :=
  forall s, P s ->
    match m s with
    | Return a s' => Q a s'
    | Raise e s' => E e s'
    end.

(** [P] holds in the state the computation leaves, however it ends. *)
Definition preserves {A} (P : State -> Prop) (m : M A) : Prop :=
  forall s, P s -> P (final_state (m s)).

(** The computation returns from every state. *)
Definition never_throws {A} (m : M A) : Prop :=
  forall s, exists a s', m s = Return a s'.

(** A state property that the event log does not influence. *)
Definition ignores_log (P : State -> Prop) : Prop :=
  forall l s, P s -> P (set_emitted l s).

(** The stored score lies in [0,100]. *)
Definition score_in_range (s : State) : Prop :=
  0 <= autonomy_score (metrics s) <= 100.

(** The configured triggers are [triggers]. *)
Definition has_triggers (triggers : list EscalationTrigger) (s : State) : Prop :=
  escalation_triggers (config s) = triggers.

(** [n] escalations have been counted. *)
Definition counts_escalations (n : Z) (s : State) : Prop :=
  escalations (metrics s) = n.

(** The map of pending approvals is [m]. *)
Definition has_pending (m : list (string * nat)) (s : State) : Prop :=
  pendingApprovals s = m.

(** No id occurs twice in the map of pending approvals. *)
Definition pending_keys_unique (s : State) : Prop :=
  NoDup (map fst (pendingApprovals s)).

(** ** Sample inputs *)

(** A printer for numbers, for the sample runs. *)
Definition sample_numToString (q : Q) : string :=
  pretty (Qnum q) ++ "/" ++ pretty (Z.pos (Qden q)).

(** A controller on which nobody has registered a listener, as the agent
    engine creates it. *)
Definition no_listeners : string -> Listener := fun _ => NoListener.

(** Listeners of which the one for [guardrail_violation] throws; none is
    registered for [error]. *)
Definition throwing_violation_listener (event : string) : Listener :=
  if String.eqb event "guardrail_violation" then ListenerThrows else NoListener.

Definition sample_limits : SpendingLimits :=
  {| dailyLimit := 100; perTransactionLimit := 50; platformLimits := ∅;
     approvalRequiredAbove := 20; currencyLimits := ∅ |}.

Definition sample_context (plat cur : option string) : DecisionContext :=
  {| platform := plat; target := None; amount := None; currency := cur;
     urgency := PrioLow; potential_impact := Minimal;
     reversible := true; precedent_exists := true |}.

Definition sample_decision (type : DecisionType) (text : string)
    (plat cur : option string) (cost : option Q) : Decision :=
  {| decision_id := "d1"; decision_type := type; description := text;
     context := sample_context plat cur; risk_level := LOW;
     estimated_cost := cost; estimated_revenue := None;
     requires_approval := None; timestamp := 0; confidence := 1 |}.

(** A trigger that reduces the autonomy when more than 50 is to be spent. *)
Definition sample_reduce_trigger : EscalationTrigger :=
  {| trigger_type := SPENDING_THRESHOLD; condition := "spending over 50";
     threshold := 50; action := REDUCE_AUTONOMY; priority := PrioHigh |}.

Definition sample_escalation : Escalation :=
  {| esc_now := 1000; esc_rnd := "r"; esc_trigger := sample_reduce_trigger;
     esc_decision :=
       sample_decision SERVICE_OFFERING "offer" None None (Some 60%Q) |}.

(** An ErrorRate trigger with the given threshold. *)
Definition error_rate_trigger (limit : Q) : EscalationTrigger :=
  {| trigger_type := ERROR_RATE; condition := "error_rate_above_threshold";
     threshold := limit; action := REDUCE_AUTONOMY; priority := PrioMedium |}.

(** An autonomous controller that has approved a payment of 20 SEI, after
    which the operator lowered the daily limit to 10. *)
Definition state_over_daily_limit : State :=
  let s0 := newController AUTONOMOUS sample_limits in
  let s1 :=
    final_state
      (validateDecision sample_numToString no_listeners 1000 "r"
         (sample_decision FINANCIAL_TRANSACTION "pay" None (Some "SEI") (Some 20%Q))
         s0) in
  final_state
    (updateSpendingLimits no_listeners
       {| new_dailyLimit := Some 10%Q; new_perTransactionLimit := None;
          new_platformLimits := None; new_approvalRequiredAbove := None;
          new_currencyLimits := None |} s1).

(** A fresh supervised controller that was asked to approve a post at time
    1000. *)
Definition state_approval_pending : State :=
  final_state
    (requestApproval no_listeners 1000 "r"
       (sample_decision CONTENT_CREATION "post" (Some "twitter") None None)
       (newController SUPERVISED sample_limits)).

(** The same controller once the request's deferred callback has fired. *)
Definition state_approval_timed_out : State :=
  final_state
    (approvalTimeoutFired no_listeners (approvalIdOf 1000 "r") state_approval_pending).

(** A fresh autonomous controller that the operator has set to Supervised. *)
Definition state_after_level_change : State :=
  run_call sample_numToString no_listeners
    (CallUpdateAutonomyLevel SUPERVISED "operator")
    (newController AUTONOMOUS sample_limits).

(** An autonomous controller to which the operator has added
    [sample_reduce_trigger]. *)
Definition state_with_reduce_trigger : State :=
  final_state
    (addEscalationTrigger no_listeners sample_reduce_trigger
       (newController AUTONOMOUS sample_limits)).

(** ** Statements of the specification that the code does not meet *)

(** The spending check, read literally: every financial decision that
    exceeds one of the three limits is denied with an escalation. *)
Definition spending_check_as_claimed : Prop :=
  forall (numToString : Q -> string) (listener : string -> Listener)
         (now : Z) (rnd : string) (d : Decision) (s : State),
    decision_type d = FINANCIAL_TRANSACTION ->
    let cost := num_or_zero (estimated_cost d) in
    let limits := spending_limits (config s) in
    let spent :=
      default 0%Q (currentSpending s !! str_or (currency (context d)) "SEI") in
    (perTransactionLimit limits < cost \/ dailyLimit limits < spent + cost
     \/ approvalRequiredAbove limits < cost)%Q ->
    exists r s',
      validateDecision numToString listener now rnd d s = Return r s'
      /\ approved r = false /\ escalation_required r = Some true.

(** The commit, read literally for the spending ledger: a decision that is
    not financial leaves the day's spending unchanged. *)
Definition commit_as_claimed : Prop :=
  forall (listener : string -> Listener) (now : Z) (d : Decision) (s : State),
    decision_type d <> FINANCIAL_TRANSACTION ->
    currentSpending (final_state (recordApprovedDecision listener now d s))
    = currentSpending s.

(** Content denials, read literally: a content decision whose description
    contains a forbidden entry is denied with escalation_required = true. *)
Definition content_denial_as_claimed : Prop :=
  forall (numToString : Q -> string) (listener : string -> Listener)
         (now : Z) (rnd : string) (d : Decision) (s : State),
    decision_type d = CONTENT_CREATION ->
    (exists forbidden,
        forbidden ∈ forbidden_content_types (interaction_rules (config s))
        /\ includes (toLowerCase (description d)) (toLowerCase forbidden) = true) ->
    exists r s',
      validateDecision numToString listener now rnd d s = Return r s'
      /\ approved r = false /\ escalation_required r = Some true.

(** ErrorRate triggers, read literally: there is an error rate such that the
    trigger matches exactly when the rate exceeds the trigger's threshold. *)
Definition error_rate_as_claimed : Prop :=
  forall d : Decision,
    exists rate : Q,
      forall limit : Q,
        evaluateTrigger (error_rate_trigger limit) d = true <-> (limit < rate)%Q.

(** The sweep, read literally: the sweep that runs after the deadline
    removes a timed-out request from the map. *)
Definition sweep_removes_timed_out_as_claimed : Prop :=
  forall (listener : string -> Listener) (now : Z) (id : string) (loc : nat)
         (r : ApprovalRequest) (s : State),
    jsmap_get id (pendingApprovals s) = Some loc ->
    requests s !! loc = Some r ->
    status r = Timeout ->
    (timeout_at r < inject_Z now)%Q ->
    jsmap_get id
      (pendingApprovals (final_state (sweepExpiredApprovals listener now s)))
    = None.

(** * The rest of the controller *)

(** ** Immediate actions *)

(** The fields of an untyped action that [validateAction] reads.  A field
    that may be missing is an [option]; [public] and [permanent] are only
    tested for truthiness. *)
Record Action := {
  action_type : option string;
  action_description : option string;
  action_platform : option string;
  action_urgency : option Priority;
  action_impact : option Impact;
  action_reversible : option bool;
  action_confidence : option Q;
  action_amount : option Q;
  action_public : bool;
  action_permanent : bool
}.

Definition mapActionToDecisionType (a : Action) : DecisionType :=
  match action_type a with
  | Some "post" | Some "reply" => CONTENT_CREATION
  | Some "payment" => FINANCIAL_TRANSACTION
  | _ => PLATFORM_INTERACTION
  end.

Definition assessActionRisk (a : Action) : RiskLevel :=
  if truthy_num (action_amount a) && Qgtb (num_or_zero (action_amount a)) 100 then HIGH
  else if action_public a || action_permanent a then MEDIUM
  else LOW.

(** The decision that [validateAction] builds at time [now]. *)
Definition actionDecision (now : Z) (a : Action) : Decision :=
  {| decision_id := "action_" ++ pretty now;
     decision_type := mapActionToDecisionType a;
     description := str_or (action_description a) "Platform action";
     context :=
       {| platform := action_platform a; target := None; amount := None;
          currency := None;
          urgency := default PrioLow (action_urgency a);
          potential_impact := default Minimal (action_impact a);
          reversible := negb (bool_decide (action_reversible a = Some false));
          precedent_exists := true |};
     risk_level := assessActionRisk a;
     estimated_cost := None;
     estimated_revenue := None;
     requires_approval := None;
     timestamp := now;
     confidence :=
       if truthy_num (action_confidence a) then num_or_zero (action_confidence a)
       else 5 # 10 |}.

Definition validateAction (numToString : Q -> string) (listener : string -> Listener)
    (now : Z) (rnd : string) (a : Action) : M bool :=
  result ← validateDecision numToString listener now rnd (actionDecision now a);
  mret (approved result).

(** ** Reading the decision history *)

(** [l.slice(start)] for an integer [start]. *)
Definition js_slice_from {A} (start : Z) (l : list A) : list A :=
  let len := Z.of_nat (length l) in
  let first := if start <? 0 then Z.max (len + start) 0 else Z.min start len in
  drop (Z.to_nat first) l.

(** [getDecisionHistory(limit)]; the limit defaults to 100. *)
Definition getDecisionHistory (limit : option Z) (s : State) : list Decision :=
  js_slice_from (- default 100 limit) (decisionHistory s).

(** ** Ranks and state properties *)

(** The position of a risk level on the scale low, medium, high, critical. *)
Definition risk_rank (r : RiskLevel) : Z :=
  match r with
  | LOW => 0
  | MEDIUM => 1
  | HIGH => 2
  | CRITICAL => 3
  end.

(** The decision history is [h]. *)
Definition has_history (h : list Decision) (n : Z) (s : State) : Prop :=
  decisionHistory s = h /\ decisions_made (metrics s) = n.

(** Every decision in the history has been counted. *)
Definition history_counted (s : State) : Prop :=
  decisions_made (metrics s) = Z.of_nat (length (decisionHistory s)).

(** A property of the history of violations and of their counter. *)
Definition on_violations (Pv : list GuardrailViolation -> Z -> Prop) (s : State) : Prop :=
  Pv (violationHistory s) (violations (metrics s)).

(** The approval rate is a fraction, and every listed request was counted. *)
Definition approval_rate_in_range (s : State) : Prop :=
  (0 <= approval_rate (metrics s) <= 1)%Q
  /\ Z.of_nat (length (pendingApprovals s)) <= approvals_requested (metrics s).

(** The same, at a point where at least one request has been counted. *)
Definition approval_rate_in_range_counted (s : State) : Prop :=
  approval_rate_in_range s /\ 1 <= approvals_requested (metrics s).

(** ** More sample inputs *)

(** A payment of 20 SEI. *)
Definition sample_payment : Decision :=
  sample_decision FINANCIAL_TRANSACTION "pay" None (Some "SEI") (Some 20%Q).

(** A like on twitter. *)
Definition sample_like : Decision :=
  sample_decision PLATFORM_INTERACTION "like a post" (Some "twitter") None None.

(** The controller after [n] likes on twitter were submitted at time 1000. *)
Fixpoint state_after_likes (n : nat) : State :=
  match n with
  | O => newController AUTONOMOUS sample_limits
  | S n' =>
      final_state
        (validateDecision sample_numToString no_listeners 1000 "r" sample_like
           (state_after_likes n'))
  end.

(** A critical-risk service offering that costs nothing. *)
Definition sample_critical_offering : Decision :=
  {| decision_id := "d2"; decision_type := SERVICE_OFFERING;
     description := "offer"; context := sample_context None None;
     risk_level := CRITICAL; estimated_cost := None; estimated_revenue := None;
     requires_approval := None; timestamp := 0; confidence := 1 |}.

(** The controller of [state_approval_pending] after the owner has approved
    the request at time 2000. *)
Definition state_approval_granted : State :=
  final_state
    (processApprovalResponse no_listeners 2000 (approvalIdOf 1000 "r") true "owner" None
       state_approval_pending).

(** The state after a series of calls of [updateAutonomyLevel]. *)
Fixpoint after_level_changes (listener : string -> Listener)
    (changes : list (AutonomyLevel * string)) (s : State) : State :=
  match changes with
  | [] => s
  | (lvl, why) :: rest =>
      after_level_changes listener rest
        (final_state (updateAutonomyLevel listener lvl why s))
  end.

(** What [sweepExpiredApprovals] tests of a request: past its deadline and
    still pending. *)
Definition expired_pending (now : Z) (r : ApprovalRequest) : bool :=
  Qltb (timeout_at r) (inject_Z now) && bool_decide (status r = Pending).

(** One round of the loop of [sweepExpiredApprovals]. *)
Definition sweep_one (listener : string -> Listener) (now : Z) (entry : string * nat)
  : M unit :=
  s' ← get;
  match requests s' !! snd entry with
  | Some request =>
      if Qltb (timeout_at request) (inject_Z now)
         && bool_decide (status request = Pending) then
        write_status (snd entry) Timeout ;;
        modify (fun s =>
          set_pendingApprovals (jsmap_delete (fst entry) (pendingApprovals s)) s) ;;
        emit listener "approval_timeout"
      else mret tt
  | None => mret tt
  end.

(** Listeners of which the one for [decision_approved] throws, with a
    listener for [error] that returns. *)
Definition throwing_approval_listener (event : string) : Listener :=
  if String.eqb event "decision_approved" then ListenerThrows
  else if String.eqb event "error" then ListenerReturns
  else NoListener.

(** A payment of 5000 as an immediate action. *)
Definition sample_payment_action : Action :=
  {| action_type := Some "payment"; action_description := Some "pay the supplier";
     action_platform := None; action_urgency := None; action_impact := None;
     action_reversible := None; action_confidence := None;
     action_amount := Some 5000%Q; action_public := false; action_permanent := false |}.

(** * The earnings of the payment system

    The source file continues, after the controller, with the payment
    system.  Of it the embedding covers the earnings tracker, with its
    report and its summary per source, [withdrawEarnings], and the payment
    streams.  The chain is outside the model: the transaction hash that
    [processWithdrawal] makes up is an input, and its answer is always a
    success, as in the code.  A [PaymentRecord] is never changed once
    recorded, so the tracker holds values. *)

Record PaymentRecord := {
  payment_amount : Q;
  payment_currency : string;
  payment_source : string;
  payment_timestamp : Z;
  payment_transactionHash : string;
  payment_payer : string
}.

Record WithdrawalRecord := {
  withdrawal_amount : Q;
  withdrawal_timestamp : Z;
  withdrawal_transactionHash : string
}.

Record EarningsTracker := {
  payments : list PaymentRecord;
  withdrawals : list WithdrawalRecord
}.

Record RevenueStreamSummary := {
  stream_source : string;
  stream_type : string;
  stream_amount : Q;
  stream_frequency : string;
  stream_lastPayment : Z
}.

Record EarningsReport := {
  totalEarnings : Q;
  dailyEarnings : Q;
  weeklyEarnings : Q;
  monthlyEarnings : Q;
  topRevenueStreams : list RevenueStreamSummary;
  pendingPayments : Q;
  withdrawableBalance : Q
}.

Record PaymentResponse := {
  success : bool;
  response_error : option string;
  txHash : option string;
  networkId : option string
}.

(** How an [async] method of the payment system ends. *)
Inductive Promise (A : Type) :=
  | Fulfilled (a : A)
  | Rejected (e : Exn).
Arguments Fulfilled {A} a.
Arguments Rejected {A} e.

(** [new EarningsTracker()]. *)
Definition newEarningsTracker : EarningsTracker :=
  {| payments := []; withdrawals := [] |}.

(** [xs.reduce((sum, x) => sum + x.amount, 0)]. *)
Definition sum_amounts {A} (amount_of : A -> Q) (xs : list A) : Q :=
  fold_left (fun sum x => (sum + amount_of x)%Q) xs 0%Q.

Definition recordPayment (payment : PaymentRecord) (t : EarningsTracker)
  : EarningsTracker :=
  {| payments := payments t ++ [payment]; withdrawals := withdrawals t |}.

Definition recordWithdrawal (now : Z) (amount_withdrawn : Q) (hash : string)
    (t : EarningsTracker) : EarningsTracker :=
  {| payments := payments t;
     withdrawals :=
       withdrawals t
       ++ [{| withdrawal_amount := amount_withdrawn; withdrawal_timestamp := now;
              withdrawal_transactionHash := hash |}] |}.

Definition getWithdrawableBalance (t : EarningsTracker) : Q :=
  (sum_amounts payment_amount (payments t)
   - sum_amounts withdrawal_amount (withdrawals t))%Q.

(** The entry that [getRevenueStreamSummary] keeps per source. *)
Record StreamTotals := {
  total : Q;
  count : Z;
  lastPayment : Z
}.

(** The map that the loop of [getRevenueStreamSummary] builds. *)
Definition streamMap_of (ps : list PaymentRecord) : list (string * StreamTotals) :=
  fold_left
    (fun streamMap payment =>
       let current :=
         default {| total := 0; count := 0; lastPayment := 0 |}
           (jsmap_get (payment_source payment) streamMap) in
       jsmap_set (payment_source payment)
         {| total := (total current + payment_amount payment)%Q;
            count := count current + 1;
            lastPayment := Z.max (lastPayment current) (payment_timestamp payment) |}
         streamMap)
    ps [].

Definition getRevenueStreamSummary (t : EarningsTracker) : list RevenueStreamSummary :=
  map (fun entry : string * StreamTotals =>
         {| stream_source := fst entry;
            stream_type := "service";
            stream_amount := total (snd entry);
            stream_frequency := pretty (count (snd entry)) ++ " payments";
            stream_lastPayment := lastPayment (snd entry) |})
    (streamMap_of (payments t)).

(** The payments younger than [age] milliseconds at time [now]. *)
Definition payments_within (now age : Z) (t : EarningsTracker) : list PaymentRecord :=
  List.filter (fun p => now - payment_timestamp p <? age) (payments t).

Definition generateReport (now : Z) (t : EarningsTracker) : EarningsReport :=
  let dayMs := 24 * 60 * 60 * 1000 in
  let weekMs := 7 * dayMs in
  let monthMs := 30 * dayMs in
  let totalEarnings := sum_amounts payment_amount (payments t) in
  let totalWithdrawn := sum_amounts withdrawal_amount (withdrawals t) in
  {| totalEarnings := totalEarnings;
     dailyEarnings := sum_amounts payment_amount (payments_within now dayMs t);
     weeklyEarnings := sum_amounts payment_amount (payments_within now weekMs t);
     monthlyEarnings := sum_amounts payment_amount (payments_within now monthMs t);
     topRevenueStreams := getRevenueStreamSummary t;
     pendingPayments := 0;
     withdrawableBalance := (totalEarnings - totalWithdrawn)%Q |}.

(** [PaymentSystem.withdrawEarnings(amount)] at time [now]; [hash] is the
    transaction hash that [processWithdrawal] returns, [listener] the
    listeners registered on the payment system.  The result is how the
    promise ends and the tracker the call leaves. *)
Definition withdrawEarnings (listener : string -> Listener) (now : Z) (hash : string)
    (requested : option Q) (t : EarningsTracker)
  : Promise PaymentResponse * EarningsTracker :=
  let available := getWithdrawableBalance t in
  let withdrawAmount := if truthy_num requested then num_or_zero requested else available in
  if Qgtb withdrawAmount available then
    (Fulfilled {| success := false; response_error := Some "Insufficient balance";
                  txHash := None; networkId := None |}, t)
  else
    let t' := recordWithdrawal now withdrawAmount hash t in
    match listener "withdrawal_completed" with
    | ListenerThrows => (Rejected (ListenerError "withdrawal_completed"), t')
    | _ =>
        (Fulfilled {| success := true; response_error := None;
                      txHash := Some hash; networkId := Some "sei-mainnet" |}, t')
    end.

(** A payment of [q] SEI from [src] at time [at_time]. *)
Definition sample_payment_record (src : string) (q : Q) (at_time : Z) : PaymentRecord :=
  {| payment_amount := q; payment_currency := "SEI"; payment_source := src;
     payment_timestamp := at_time; payment_transactionHash := "0x1";
     payment_payer := "payer" |}.

(** A tracker with three payments, from two sources, 30 in all. *)
Definition sample_tracker : EarningsTracker :=
  recordPayment (sample_payment_record "content_service" 5 3000)
    (recordPayment (sample_payment_record "ai_service" 15 2000)
       (recordPayment (sample_payment_record "content_service" 10 1000)
          newEarningsTracker)).

(** ** Payment streams *)

(** A [PaymentStream] object.  Its interval timer and its auto-stop timer
    are events from outside ([StreamTick], [StreamStop]). *)
Record PaymentStream := {
  stream_id : string;
  stream_serviceId : string;
  stream_rate : Q;
  stream_duration : option Q;
  stream_startTime : Z;
  stream_totalPaid : Q;
  stream_active : bool
}.

(** [new PaymentStream(id, serviceId, rate, duration)]. *)
Definition newPaymentStream (id serviceId : string) (rate : Q) (duration : option Q)
  : PaymentStream :=
  {| stream_id := id; stream_serviceId := serviceId; stream_rate := rate;
     stream_duration := duration; stream_startTime := 0; stream_totalPaid := 0;
     stream_active := false |}.

(** [stream.start()] at time [now]. *)
Definition stream_start (now : Z) (st : PaymentStream) : PaymentStream :=
  {| stream_id := stream_id st; stream_serviceId := stream_serviceId st;
     stream_rate := stream_rate st; stream_duration := stream_duration st;
     stream_startTime := now; stream_totalPaid := stream_totalPaid st;
     stream_active := true |}.

(** [stream.stop()]. *)
Definition stream_stop (st : PaymentStream) : PaymentStream :=
  {| stream_id := stream_id st; stream_serviceId := stream_serviceId st;
     stream_rate := stream_rate st; stream_duration := stream_duration st;
     stream_startTime := stream_startTime st; stream_totalPaid := stream_totalPaid st;
     stream_active := false |}.

(** [processPayment()] at time [now], with the listener of [payment] that
    [streamPayment] registers, which records the payment in the tracker. *)
Definition stream_processPayment (now : Z) (st : PaymentStream) (t : EarningsTracker)
  : PaymentStream * EarningsTracker :=
  let payment :=
    {| payment_amount := (stream_rate st / 60)%Q;
       payment_currency := "SEI";
       payment_source := stream_serviceId st;
       payment_timestamp := now;
       payment_transactionHash := "stream_" ++ stream_id st ++ "_" ++ pretty now;
       payment_payer := "stream_payer" |} in
  ({| stream_id := stream_id st; stream_serviceId := stream_serviceId st;
      stream_rate := stream_rate st; stream_duration := stream_duration st;
      stream_startTime := stream_startTime st;
      stream_totalPaid := (stream_totalPaid st + payment_amount payment)%Q;
      stream_active := stream_active st |},
   recordPayment payment t).

Inductive StreamEvent :=
  | StreamTick (now : Z)
  | StreamStop.

(** The callback of the interval timer, and [stop]. *)
Definition stream_step (ev : StreamEvent) (st : PaymentStream) (t : EarningsTracker)
  : PaymentStream * EarningsTracker :=
  match ev with
  | StreamTick now => if stream_active st then stream_processPayment now st t else (st, t)
  | StreamStop => (stream_stop st, t)
  end.

Fixpoint stream_run (evs : list StreamEvent) (st : PaymentStream) (t : EarningsTracker)
  : PaymentStream * EarningsTracker :=
  match evs with
  | [] => (st, t)
  | ev :: rest => let (st', t') := stream_step ev st t in stream_run rest st' t'
  end.
(** * Properties *)

(** ** Rules for [preserves] *)

Section PreservesRules.
Variable listener : string -> Listener.
Variable P : State -> Prop.

Lemma preserves_ret {A} (a : A) : preserves P (mret a).
Proof. intros s Hs. exact Hs. Qed.

Lemma preserves_get : preserves P get.
Proof. intros s Hs. exact Hs. Qed.

Lemma preserves_throw {A} (e : Exn) : preserves P (@throw A e).
Proof. intros s Hs. exact Hs. Qed.

Lemma preserves_modify (f : State -> State) :
  (forall s, P s -> P (f s)) -> preserves P (modify f).
Proof. intros Hf s Hs. apply Hf, Hs. Qed.

Lemma preserves_bind {A B} (m : M A) (f : A -> M B) :
  preserves P m -> (forall a, preserves P (f a)) -> preserves P (m ≫= f).
Proof.
  intros Hm Hf s Hs. specialize (Hm s Hs).
  unfold mbind, M_bind. destruct (m s) as [a s'|e s']; simpl in *.
  - apply Hf, Hm.
  - exact Hm.
Qed.

Lemma preserves_emit (event : string) :
  ignores_log P -> preserves P (emit listener event).
Proof.
  intros Hlog s Hs. unfold emit.
  destruct (listener event); [destruct (String.eqb event "error")| |];
    simpl; apply Hlog, Hs.
Qed.

Lemma preserves_try_catch {A} (body : M A) (handler : Exn -> M A) :
  preserves P body -> (forall e, preserves P (handler e)) ->
  preserves P (try_catch body handler).
Proof.
  intros Hb Hh s Hs. specialize (Hb s Hs). unfold try_catch.
  destruct (body s) as [a s'|e s']; simpl in *.
  - exact Hb.
  - apply Hh, Hb.
Qed.

Lemma preserves_detached {A} (m : M A) : preserves P m -> preserves P (detached m).
Proof. intros Hm s Hs. apply Hm, Hs. Qed.

Lemma preserves_for_each {A} (xs : list A) (body : A -> M unit) :
  (forall x, preserves P (body x)) -> preserves P (for_each xs body).
Proof.
  intros Hb. induction xs as [|x xs IH]; simpl.
  - apply preserves_ret.
  - apply preserves_bind; [apply Hb | intros _; exact IH].
Qed.

End PreservesRules.

(** Breaks a goal [preserves P m] down along the structure of [m]; what is
    left are the state updates, to be shown to keep [P]. *)
Ltac preserve_step :=
  lazymatch goal with
  | |- preserves _ (mret _) => apply preserves_ret
  | |- preserves _ get => apply preserves_get
  | |- preserves _ (throw _) => apply preserves_throw
  | |- preserves _ (_ ≫= _) => apply preserves_bind; [|intros ?]
  | |- preserves _ (try_catch _ _) => apply preserves_try_catch; [|intros ?]
  | |- preserves _ (detached _) => apply preserves_detached
  | |- preserves _ (for_each _ _) => apply preserves_for_each; intros ?
  | |- preserves _ (emit _ _) => apply preserves_emit
  | |- preserves _ (modify _) => apply preserves_modify; intros ? ?
  | |- preserves _ (if ?b then _ else _) => destruct b
  | |- preserves _ (match ?x with _ => _ end) => destruct x
  end.

Ltac preserve := repeat preserve_step.

(** ** Rules for [hoare] *)

Section HoareRules.
Variable listener : string -> Listener.

Lemma hoare_ret {A} (P : State -> Prop) (a : A) Q E :
  (forall s, P s -> Q a s) -> hoare P (mret a) Q E.
Proof. intros H s Hs. apply H, Hs. Qed.

Lemma hoare_get (P : State -> Prop) Q E :
  (forall s, P s -> Q s s) -> hoare P get Q E.
Proof. intros H s Hs. apply H, Hs. Qed.

Lemma hoare_modify (P : State -> Prop) (f : State -> State) Q E :
  (forall s, P s -> Q tt (f s)) -> hoare P (modify f) Q E.
Proof. intros H s Hs. apply H, Hs. Qed.

Lemma hoare_bind {A B} (P : State -> Prop) (m : M A) (f : A -> M B) R Q E :
  hoare P m R E -> (forall a, hoare (R a) (f a) Q E) -> hoare P (m ≫= f) Q E.
Proof.
  intros Hm Hf s Hs. specialize (Hm s Hs). unfold mbind, M_bind.
  destruct (m s) as [a s'|e s']; [apply Hf, Hm | exact Hm].
Qed.

Lemma hoare_try_catch {A} (P : State -> Prop) (body : M A) handler Q E E' :
  hoare P body Q E' -> (forall e, hoare (E' e) (handler e) Q E) ->
  hoare P (try_catch body handler) Q E.
Proof.
  intros Hb Hh s Hs. specialize (Hb s Hs). unfold try_catch.
  destruct (body s) as [a s'|e s']; [exact Hb | apply Hh, Hb].
Qed.

(** What [preserves] gives for a single step: [P] still holds when the
    step returns. *)
Lemma hoare_step_of_preserves {A} (P : State -> Prop) (m : M A) :
  preserves P m -> hoare P m (fun _ => P) (fun _ _ => True).
Proof.
  intros Hm s Hs. specialize (Hm s Hs). destruct (m s); [exact Hm | exact I].
Qed.

Lemma hoare_anything {A} (m : M A) :
  hoare (fun _ => True) m (fun _ _ => True) (fun _ _ => True).
Proof. intros s _. destruct (m s); exact I. Qed.

Lemma hoare_unless_denied (P P' : State -> Prop) check rest Q E :
  hoare P check (fun r s => if approved r then P' s else Q r s) E ->
  hoare P' rest Q E ->
  hoare P (unless_denied check rest) Q E.
Proof.
  intros Hc Hr. unfold unless_denied.
  eapply hoare_bind; [exact Hc|].
  intros r. cbv beta. destruct (approved r).
  - exact Hr.
  - apply hoare_ret. auto.
Qed.

(** *** Computations that return *)

Lemma never_throws_ret {A} (a : A) : never_throws (mret a).
Proof. intros s. eexists _, _. reflexivity. Qed.

Lemma never_throws_get : never_throws get.
Proof. intros s. eexists _, _. reflexivity. Qed.

Lemma never_throws_modify f : never_throws (modify f).
Proof. intros s. eexists _, _. reflexivity. Qed.

Lemma never_throws_detached {A} (m : M A) : never_throws (detached m).
Proof. intros s. eexists _, _. reflexivity. Qed.

Lemma never_throws_bind {A B} (m : M A) (f : A -> M B) :
  never_throws m -> (forall a, never_throws (f a)) -> never_throws (m ≫= f).
Proof.
  intros Hm Hf s. destruct (Hm s) as (a & s' & Hms).
  unfold mbind, M_bind. rewrite Hms. apply Hf.
Qed.

Lemma never_throws_for_each {A} (xs : list A) (body : A -> M unit) :
  (forall x, never_throws (body x)) -> never_throws (for_each xs body).
Proof.
  intros Hb. induction xs as [|x xs IH]; simpl.
  - apply never_throws_ret.
  - apply never_throws_bind; [apply Hb | intros _; exact IH].
Qed.

Lemma never_throws_emit (event : string) :
  listener event <> ListenerThrows ->
  String.eqb event "error" = false ->
  never_throws (emit listener event).
Proof.
  intros Hl He s. unfold emit. rewrite He.
  destruct (listener event); [| |contradiction]; eexists _, _; reflexivity.
Qed.

Lemma never_throws_try_catch {A} (body : M A) handler :
  never_throws body -> never_throws (try_catch body handler).
Proof.
  intros Hb s. destruct (Hb s) as (a & s' & Hbs).
  unfold try_catch. rewrite Hbs. eexists _, _. reflexivity.
Qed.

End HoareRules.

(** Breaks a goal [never_throws m] down along the structure of [m]; what is
    left are the conditions on the listeners of the events [m] emits. *)
Ltac returns_step :=
  lazymatch goal with
  | |- never_throws (mret _) => apply never_throws_ret
  | |- never_throws get => apply never_throws_get
  | |- never_throws (modify _) => apply never_throws_modify
  | |- never_throws (detached _) => apply never_throws_detached
  | |- never_throws (_ ≫= _) => apply never_throws_bind; [|intros ?]
  | |- never_throws (for_each _ _) => apply never_throws_for_each; intros ?
  | |- never_throws (emit _ _) => apply never_throws_emit; [|reflexivity]
  | |- never_throws (if ?b then _ else _) => destruct b
  | |- never_throws (match ?x with _ => _ end) => destruct x
  end.

Ltac returns := repeat returns_step.


(** ** The autonomy score *)

Section Score.
Variable numToString : Q -> string.
Variable listener : string -> Listener.

Lemma calculateAutonomyScore_range (s : State) : 0 <= calculateAutonomyScore s <= 100.
Proof. unfold calculateAutonomyScore. lia. Qed.

Lemma calculateAutonomyScore_spec (s : State) :
  calculateAutonomyScore s = spec_autonomy_score (level (config s)) (metrics s).
Proof.
  unfold calculateAutonomyScore, spec_autonomy_score, calculateInitialAutonomyScore,
    spec_base_score.
  destruct (level (config s)), (Qgtb _ _), (_ <? _), (_ =? _); reflexivity.
Qed.

Lemma score_in_range_ignores_log : ignores_log score_in_range.
Proof. intros l s Hs. exact Hs. Qed.

Ltac score_preserve :=
  preserve;
  try apply score_in_range_ignores_log;
  try (unfold score_in_range in *; simpl;
       first [ assumption | apply calculateAutonomyScore_range ]).

Lemma recordViolation_score v : preserves score_in_range (recordViolation listener v).
Proof.
  unfold recordViolation. score_preserve.
  match goal with |- context [if ?b then _ else _] => destruct b end; assumption.
Qed.

Lemma updateAutonomyLevel_score lvl why :
  preserves score_in_range (updateAutonomyLevel listener lvl why).
Proof. unfold updateAutonomyLevel. score_preserve. Qed.

Lemma triggerEmergencyStop_score why :
  preserves score_in_range (triggerEmergencyStop listener why).
Proof.
  unfold triggerEmergencyStop.
  apply preserves_bind; [apply updateAutonomyLevel_score | intros _].
  unfold write_status. score_preserve.
Qed.

Lemma requestApproval_score now rnd d :
  preserves score_in_range (requestApproval listener now rnd d).
Proof. unfold requestApproval. score_preserve. Qed.

Lemma recordApprovedDecision_score now d :
  preserves score_in_range (recordApprovedDecision listener now d).
Proof. unfold recordApprovedDecision. score_preserve. Qed.

Lemma executeEscalationAction_score now rnd t d :
  preserves score_in_range (executeEscalationAction listener now rnd t d).
Proof.
  unfold executeEscalationAction.
  apply preserves_bind; [score_preserve | intros _].
  destruct (action t).
  - apply triggerEmergencyStop_score.
  - apply preserves_detached, requestApproval_score.
  - score_preserve.
  - apply preserves_bind; [apply preserves_get | intros ?].
    apply updateAutonomyLevel_score.
  - apply recordViolation_score.
Qed.

Lemma checkEscalationTriggers_score now rnd d :
  preserves score_in_range (checkEscalationTriggers listener now rnd d).
Proof.
  unfold checkEscalationTriggers.
  apply preserves_bind; [apply preserves_get | intros s0].
  induction (escalation_triggers (config s0)) as [|t ts IH]; simpl.
  - score_preserve.
  - destruct (evaluateTrigger t d); [|exact IH].
    apply preserves_bind; [apply executeEscalationAction_score | intros _].
    score_preserve.
Qed.

Lemma validateContent_score now d :
  preserves score_in_range (validateContent listener now d).
Proof.
  unfold validateContent.
  apply preserves_bind; [apply preserves_get | intros s0].
  induction (forbidden_content_types _) as [|f fs IH]; simpl.
  - score_preserve.
  - destruct (includes _ _); [|exact IH].
    apply preserves_bind; [apply recordViolation_score | intros _].
    score_preserve.
Qed.

Lemma validateDecision_score now rnd d :
  preserves score_in_range (validateDecision numToString listener now rnd d).
Proof.
  unfold validateDecision.
  apply preserves_try_catch;
    [|intros e; unfold validateDecision_catch; score_preserve].
  unfold validateDecision_body.
  apply preserves_bind; [score_preserve | intros _].
  apply preserves_bind; [apply preserves_get | intros s0].
  destruct (negb _); [score_preserve|].
  unfold validateDecision_checks, when_applies, unless_denied.
  repeat first
    [ apply validateContent_score
    | apply checkEscalationTriggers_score
    | apply recordApprovedDecision_score
    | preserve_step ].
Qed.

Lemma processApprovalResponse_score now id ok who note :
  preserves score_in_range (processApprovalResponse listener now id ok who note).
Proof.
  unfold processApprovalResponse, updateApprovalRate.
  repeat first [ apply recordApprovedDecision_score | preserve_step ];
    try apply score_in_range_ignores_log; assumption.
Qed.

Lemma approvalTimeoutFired_score id :
  preserves score_in_range (approvalTimeoutFired listener id).
Proof. unfold approvalTimeoutFired, write_status. score_preserve. Qed.

Lemma sweepExpiredApprovals_score now :
  preserves score_in_range (sweepExpiredApprovals listener now).
Proof. unfold sweepExpiredApprovals, write_status. score_preserve. Qed.

Lemma run_call_score c :
  forall s, score_in_range s -> score_in_range (run_call numToString listener c s).
Proof.
  destruct c; cbv beta iota delta [run_call];
    match goal with
    | |- forall s, _ -> score_in_range (final_state (?m s)) =>
        change (preserves score_in_range m)
    end.
  - apply validateDecision_score.
  - apply requestApproval_score.
  - apply processApprovalResponse_score.
  - apply updateAutonomyLevel_score.
  - unfold updateSpendingLimits. score_preserve.
  - unfold updateInteractionRules. score_preserve.
  - unfold addEscalationTrigger. score_preserve.
  - unfold removeEscalationTrigger. score_preserve.
  - apply triggerEmergencyStop_score.
  - unfold getMetrics. score_preserve.
  - apply approvalTimeoutFired_score.
  - unfold resetDailySpending. score_preserve.
  - unfold pruneInteractionCounts. score_preserve.
  - apply sweepExpiredApprovals_score.
Qed.

Lemma reachable_score_in_range s :
  reachable numToString listener s -> score_in_range s.
Proof.
  induction 1 as [lvl lim | s c _ IH].
  - unfold score_in_range. simpl. unfold calculateInitialAutonomyScore. simpl.
    destruct lvl; lia.
  - apply run_call_score, IH.
Qed.

(** C8: the score that [calculateAutonomyScore] derives, and [getMetrics]
    returns, is the base of the level (Restricted 25, Supervised 50,
    SemiAutonomous 75, Autonomous 100) plus 10 if approval_rate > 0.8, plus
    10 if violations < 5, plus 5 if escalations = 0, clamped to [0,100]; in
    every reachable state the derived score and the stored one lie in
    [0,100]. *)
Theorem autonomy_score_derived_and_bounded (s : State) :
  reachable numToString listener s ->
  calculateAutonomyScore s = spec_autonomy_score (level (config s)) (metrics s)
  /\ autonomy_score <$> returned (getMetrics s)
     = Some (spec_autonomy_score (level (config s)) (metrics s))
  /\ 0 <= spec_autonomy_score (level (config s)) (metrics s) <= 100
  /\ 0 <= autonomy_score (metrics s) <= 100.
Proof.
  intros Hs. rewrite <- calculateAutonomyScore_spec.
  repeat split; try apply calculateAutonomyScore_range;
    apply (reachable_score_in_range s Hs).
Qed.

End Score.

(** After the operator has set a fresh autonomous controller to Supervised,
    with no violation and no escalation so far: 50 + 10 + 5. *)
Lemma autonomy_score_derived_and_bounded_sample :
  autonomy_score <$> returned (getMetrics state_after_level_change) = Some 65
  /\ 0 <= autonomy_score (metrics state_after_level_change) <= 100.
Proof.
  destruct (autonomy_score_derived_and_bounded sample_numToString no_listeners
              state_after_level_change
              (reachable_call _ _ _ _ (reachable_new _ _ _ _)))
    as (_ & Hderived & _ & Hstored).
  split; [rewrite Hderived; reflexivity | exact Hstored].
Defined.

(** ** Comparisons *)

Lemma Qgtb_true (a b : Q) : Qgtb a b = true <-> (b < a)%Q.
Proof.
  unfold Qgtb. rewrite negb_true_iff, <- not_true_iff_false, Qle_bool_iff.
  split; [apply Qnot_le_lt | apply Qlt_not_le].
Qed.

Lemma Qgtb_false (a b : Q) : Qgtb a b = false <-> ~ (b < a)%Q.
Proof. rewrite <- Qgtb_true. destruct (Qgtb a b); split; congruence. Qed.

(** ** The type gate *)

Section TypeGate.
Variable numToString : Q -> string.
Variable listener : string -> Listener.

Lemma isDecisionTypeAllowed_allow_set (s : State) (type : DecisionType) :
  isDecisionTypeAllowed s type = true <-> type ∈ spec_allow_set (level (config s)).
Proof.
  unfold isDecisionTypeAllowed, spec_allow_set.
  destruct (level (config s)), type; cbn;
    rewrite ?elem_of_cons, ?elem_of_nil; split; intros H;
    first [ reflexivity | discriminate | tauto | intuition discriminate ].
Qed.

Lemma validateDecision_type_denied now rnd (d : Decision) (s : State) :
  isDecisionTypeAllowed s (decision_type d) = false ->
  validateDecision numToString listener now rnd d s
  = Return (createValidationResult s false
              (Some "Decision type not allowed at current autonomy level") (Some true))
      (submitted d s).
Proof.
  intros H. unfold validateDecision, try_catch, validateDecision_body.
  unfold mbind, M_bind, modify, get.
  change (isDecisionTypeAllowed (submitted d s) (decision_type d))
    with (isDecisionTypeAllowed s (decision_type d)).
  rewrite H. reflexivity.
Qed.

Lemma validateDecision_type_allowed now rnd (d : Decision) (s : State) :
  isDecisionTypeAllowed s (decision_type d) = true ->
  validateDecision numToString listener now rnd d s
  = try_catch (validateDecision_checks numToString listener now rnd d)
      (validateDecision_catch listener) (submitted d s).
Proof.
  intros H. unfold validateDecision, try_catch, validateDecision_body.
  unfold mbind, M_bind, modify, get.
  change (isDecisionTypeAllowed (submitted d s) (decision_type d))
    with (isDecisionTypeAllowed s (decision_type d)).
  rewrite H. reflexivity.
Qed.

(** C7: the type gate of [validateDecision] lets a decision through exactly
    when its type is in the allow-set of the current level (Restricted:
    LearningAdaptation; Supervised: LearningAdaptation and
    PlatformInteraction; SemiAutonomous: all but FinancialTransaction;
    Autonomous: all); a type outside the allow-set is denied with
    escalation_required = true, and a type inside it goes on to the
    remaining checks. *)
Theorem type_permission_by_level now rnd (d : Decision) (s : State) :
  (isDecisionTypeAllowed s (decision_type d) = true
   <-> decision_type d ∈ spec_allow_set (level (config s)))
  /\ (decision_type d ∉ spec_allow_set (level (config s)) ->
      validateDecision numToString listener now rnd d s
      = Return {| approved := false;
                  reason := Some "Decision type not allowed at current autonomy level";
                  escalation_required := Some true;
                  result_timeout := Some (approval_timeout (config s)) |}
          (submitted d s))
  /\ (decision_type d ∈ spec_allow_set (level (config s)) ->
      validateDecision numToString listener now rnd d s
      = try_catch (validateDecision_checks numToString listener now rnd d)
          (validateDecision_catch listener) (submitted d s)).
Proof.
  split; [apply isDecisionTypeAllowed_allow_set|]. split; intros H.
  - apply validateDecision_type_denied.
    apply not_true_iff_false. rewrite isDecisionTypeAllowed_allow_set. exact H.
  - apply validateDecision_type_allowed, isDecisionTypeAllowed_allow_set, H.
Qed.

End TypeGate.

(** At level Restricted a PlatformInteraction decision is not approved. *)
Lemma type_permission_restricted_interaction :
  approved
    <$> returned
          (validateDecision sample_numToString no_listeners 1000 "r"
             (sample_decision PLATFORM_INTERACTION "like a post" (Some "twitter") None None)
             (newController RESTRICTED sample_limits))
  = Some false.
Proof.
  rewrite (proj1 (proj2 (type_permission_by_level sample_numToString no_listeners
                           1000 "r" _ _))).
  - reflexivity.
  - cbn. rewrite elem_of_cons, elem_of_nil. intros [H|[]]. discriminate H.
Defined.

(** ** The spending check *)

Section SpendingCheck.
Variable numToString : Q -> string.
Variable listener : string -> Listener.

Lemma unless_denied_reader (f : State -> ValidationResult) rest (s : State) :
  unless_denied (s' ← get; mret (f s')) rest s
  = if approved (f s) then rest s else Return (f s) s.
Proof.
  unfold unless_denied, mbind, M_bind, get, mret, M_ret.
  destruct (approved (f s)); reflexivity.
Qed.

Lemma validateDecision_spending_denied now rnd (d : Decision) (s : State) :
  decision_type d = FINANCIAL_TRANSACTION ->
  level (config s) = AUTONOMOUS ->
  truthy_num (estimated_cost d) = true ->
  approved (validateSpending numToString s d) = false ->
  validateDecision numToString listener now rnd d s
  = Return (validateSpending numToString s d) (submitted d s).
Proof.
  intros Hty Hlvl Hcost Hden.
  rewrite validateDecision_type_allowed
    by (unfold isDecisionTypeAllowed; rewrite Hlvl; reflexivity).
  unfold try_catch, validateDecision_checks.
  rewrite Hcost, bool_decide_eq_true_2 by exact Hty.
  unfold when_applies at 1. cbn [andb].
  rewrite unless_denied_reader.
  change (validateSpending numToString (submitted d s) d)
    with (validateSpending numToString s d).
  rewrite Hden. reflexivity.
Qed.

(** When the spending check is skipped: the decision is not financial, or
    its [estimated_cost] is absent or zero. *)
Lemma validateDecision_spending_skipped now rnd (d : Decision) :
  bool_decide (decision_type d = FINANCIAL_TRANSACTION)
  && truthy_num (estimated_cost d) = false ->
  validateDecision_checks numToString listener now rnd d
  = when_applies (bool_decide (decision_type d = PLATFORM_INTERACTION))
      (s ← get; mret (validateInteractionLimits now s d))
      (when_applies (bool_decide (decision_type d = CONTENT_CREATION))
         (validateContent listener now d)
         (unless_denied (s ← get; mret (validateRiskLevel s d))
            (escalationCheck ← checkEscalationTriggers listener now rnd d;
             if bool_decide (escalation_required escalationCheck = Some true) then
               mret escalationCheck
             else
               recordApprovedDecision listener now d ;;
               s ← get;
               mret (createValidationResult s true
                       (Some "Decision approved within autonomy parameters") None)))).
Proof.
  intros H. unfold validateDecision_checks at 1. rewrite H. reflexivity.
Qed.

(** C1, as the code has it: for a financial decision that has passed the
    type gate (level Autonomous) and carries a non-zero [estimated_cost],
    [validateDecision] denies with escalation_required = true if the cost
    exceeds [perTransactionLimit], otherwise if the day's spending in the
    decision's currency (SEI when none is given) plus the cost exceeds
    [dailyLimit], otherwise if the cost exceeds [approvalRequiredAbove]; the
    three reasons differ. *)
Theorem spending_check_in_order now rnd (d : Decision) (s : State) :
  decision_type d = FINANCIAL_TRANSACTION ->
  level (config s) = AUTONOMOUS ->
  truthy_num (estimated_cost d) = true ->
  let cost := num_or_zero (estimated_cost d) in
  let limits := spending_limits (config s) in
  let spent :=
    default 0%Q (currentSpending s !! str_or (currency (context d)) "SEI") in
  let over_transaction :=
    "Transaction exceeds per-transaction limit (" ++ numToString cost
    ++ " > " ++ numToString (perTransactionLimit limits) ++ ")" in
  let over_day :=
    "Transaction would exceed daily limit (" ++ numToString (spent + cost)%Q
    ++ " > " ++ numToString (dailyLimit limits) ++ ")" in
  let over_threshold :=
    "Transaction exceeds approval threshold (" ++ numToString cost
    ++ " > " ++ numToString (approvalRequiredAbove limits) ++ ")" in
  let denied why :=
    Return {| approved := false; reason := Some why;
              escalation_required := Some true;
              result_timeout := Some (approval_timeout (config s)) |}
      (submitted d s) in
  ((perTransactionLimit limits < cost)%Q ->
   validateDecision numToString listener now rnd d s = denied over_transaction)
  /\ (~ (perTransactionLimit limits < cost)%Q ->
      (dailyLimit limits < spent + cost)%Q ->
      validateDecision numToString listener now rnd d s = denied over_day)
  /\ (~ (perTransactionLimit limits < cost)%Q ->
      ~ (dailyLimit limits < spent + cost)%Q ->
      (approvalRequiredAbove limits < cost)%Q ->
      validateDecision numToString listener now rnd d s = denied over_threshold)
  /\ over_transaction <> over_day
  /\ over_transaction <> over_threshold
  /\ over_day <> over_threshold.
Proof.
  intros Hty Hlvl Hcost cost limits spent over_transaction over_day over_threshold denied.
  assert (Hrun : forall r,
             validateSpending numToString s d = r -> approved r = false ->
             validateDecision numToString listener now rnd d s = Return r (submitted d s)).
  { intros r <- Hr. apply validateDecision_spending_denied; assumption. }
  repeat split.
  - intros H1. apply Hrun; [|reflexivity].
    unfold validateSpending. fold cost limits.
    apply Qgtb_true in H1. rewrite H1. reflexivity.
  - intros H1 H2. apply Hrun; [|reflexivity].
    unfold validateSpending. fold cost limits spent.
    apply Qgtb_false in H1. apply Qgtb_true in H2. rewrite H1, H2. reflexivity.
  - intros H1 H2 H3. apply Hrun; [|reflexivity].
    unfold validateSpending. fold cost limits spent.
    apply Qgtb_false in H1. apply Qgtb_false in H2. apply Qgtb_true in H3.
    rewrite H1, H2, H3. reflexivity.
  - subst over_transaction over_day. cbn. discriminate.
  - subst over_transaction over_threshold. cbn. discriminate.
  - subst over_day over_threshold. cbn. discriminate.
Qed.

End SpendingCheck.

(** A payment of 30 SEI against a transaction limit of 50, a daily limit of
    100 and an approval threshold of 20: the third check denies it. *)
Lemma spending_check_in_order_sample :
  reason
    <$> returned
          (validateDecision sample_numToString no_listeners 1000 "r"
             (sample_decision FINANCIAL_TRANSACTION "pay" None (Some "SEI") (Some 30%Q))
             (newController AUTONOMOUS sample_limits))
  = Some (Some "Transaction exceeds approval threshold (30/1 > 20/1)").
Proof.
  pose proof (spending_check_in_order sample_numToString no_listeners 1000 "r"
                (sample_decision FINANCIAL_TRANSACTION "pay" None (Some "SEI") (Some 30%Q))
                (newController AUTONOMOUS sample_limits)
                eq_refl eq_refl eq_refl) as H.
  cbv zeta in H. destruct H as (_ & _ & H & _).
  rewrite H.
  - vm_compute. reflexivity.
  - vm_compute. discriminate.
  - vm_compute. discriminate.
  - vm_compute. reflexivity.
Defined.

(** With 20 SEI already spent and the daily limit lowered to 10, a
    financial decision with an [estimated_cost] of 0 exceeds the daily limit
    (20 + 0 > 10) and is approved all the same. *)
Lemma spending_check_not_for_every_decision : ~ spending_check_as_claimed.
Proof.
  intros H.
  destruct (H sample_numToString no_listeners 2000 "r"
              (sample_decision FINANCIAL_TRANSACTION "pay" None (Some "SEI") (Some 0%Q))
              state_over_daily_limit eq_refl) as (r & s' & Hrun & Hden & _).
  - right; left. vm_compute. reflexivity.
  - vm_compute in Hrun. inversion Hrun; subst r. discriminate Hden.
Qed.

(** ** The ledgers *)

Section Ledgers.
Variable listener : string -> Listener.

Lemma emit_final_state (event : string) (s : State) :
  final_state (emit listener event s) = set_emitted (emitted s ++ [event]) s.
Proof.
  unfold emit. destruct (listener event); [destruct (String.eqb _ _)| |]; reflexivity.
Qed.

Lemma recordApprovedDecision_currentSpending now (d : Decision) (s : State) :
  currentSpending (final_state (recordApprovedDecision listener now d s))
  = if truthy_num (estimated_cost d) && truthy_str (currency (context d)) then
      let cur := str_or (currency (context d)) "" in
      <[cur := (default 0 (currentSpending s !! cur) + num_or_zero (estimated_cost d))%Q]>
        (currentSpending s)
    else currentSpending s.
Proof.
  unfold recordApprovedDecision, mbind, M_bind, modify, mret, M_ret.
  destruct (truthy_num _ && truthy_str _),
    (bool_decide _ && truthy_str (platform _));
    cbv beta iota zeta; rewrite emit_final_state; reflexivity.
Qed.

Lemma recordApprovedDecision_interactionCounts now (d : Decision) (s : State) :
  interactionCounts (final_state (recordApprovedDecision listener now d s))
  = if bool_decide (decision_type d = PLATFORM_INTERACTION)
       && truthy_str (platform (context d)) then
      let key := hourlyKey (str_or (platform (context d)) "") now in
      <[key := default 0 (interactionCounts s !! key) + 1]> (interactionCounts s)
    else interactionCounts s.
Proof.
  unfold recordApprovedDecision, mbind, M_bind, modify, mret, M_ret.
  destruct (truthy_num _ && truthy_str _),
    (bool_decide _ && truthy_str (platform _));
    cbv beta iota zeta; rewrite emit_final_state; reflexivity.
Qed.

(** C3, as the code has it: committing an approved decision adds its
    [estimated_cost] to the day's spending in its currency whenever the
    decision carries a non-zero cost and a currency, whatever its type, and
    leaves the spending alone when the cost is absent or zero; it adds 1 to
    the hour bucket of the platform for a PlatformInteraction decision that
    names a platform, and leaves the interaction counts alone for every
    other decision type. *)
Theorem commit_updates_ledgers now (d : Decision) (s : State) :
  let s' := final_state (recordApprovedDecision listener now d s) in
  (forall cost cur,
      estimated_cost d = Some cost -> ~ (cost == 0)%Q ->
      currency (context d) = Some cur -> cur <> "" ->
      currentSpending s'
      = <[cur := (default 0 (currentSpending s !! cur) + cost)%Q]> (currentSpending s))
  /\ (truthy_num (estimated_cost d) = false -> currentSpending s' = currentSpending s)
  /\ (forall plat,
         decision_type d = PLATFORM_INTERACTION ->
         platform (context d) = Some plat -> plat <> "" ->
         interactionCounts s'
         = <[hourlyKey plat now := default 0 (interactionCounts s !! hourlyKey plat now) + 1]>
             (interactionCounts s))
  /\ (decision_type d <> PLATFORM_INTERACTION ->
      interactionCounts s' = interactionCounts s).
Proof.
  cbv zeta. repeat split.
  - intros cost cur Hcost Hnz Hcur Hne.
    rewrite recordApprovedDecision_currentSpending, Hcost, Hcur. cbn.
    destruct (Qeq_bool cost 0) eqn:Hz; [apply Qeq_bool_iff in Hz; contradiction|].
    destruct cur; [contradiction|]. reflexivity.
  - intros Hcost. rewrite recordApprovedDecision_currentSpending, Hcost. reflexivity.
  - intros plat Hty Hplat Hne.
    rewrite recordApprovedDecision_interactionCounts, Hplat.
    rewrite bool_decide_eq_true_2 by exact Hty.
    destruct plat; [contradiction|]. reflexivity.
  - intros Hty. rewrite recordApprovedDecision_interactionCounts.
    rewrite bool_decide_eq_false_2 by exact Hty. reflexivity.
Qed.

End Ledgers.

(** A content decision that costs 5 SEI, committed at a fresh controller,
    puts 5 on the SEI ledger and leaves the interaction counts empty. *)
Lemma commit_updates_ledgers_sample :
  let d := sample_decision CONTENT_CREATION "post" (Some "twitter") (Some "SEI") (Some 5%Q) in
  let s' :=
    final_state
      (recordApprovedDecision no_listeners 1000 d (newController AUTONOMOUS sample_limits)) in
  currentSpending s' !! "SEI" = Some (0 + 5)%Q /\ interactionCounts s' = ∅.
Proof.
  cbv zeta.
  destruct (commit_updates_ledgers no_listeners 1000
              (sample_decision CONTENT_CREATION "post" (Some "twitter") (Some "SEI")
                 (Some 5%Q))
              (newController AUTONOMOUS sample_limits)) as (H1 & _ & _ & H4).
  split.
  - rewrite (H1 5%Q "SEI" eq_refl); [| |reflexivity|]; [|discriminate..].
    rewrite lookup_insert_eq. reflexivity.
  - rewrite H4; [reflexivity | discriminate].
Defined.

(** A content decision that costs 5 SEI is not financial, and committing it
    changes the day's spending. *)
Lemma commit_counts_every_costed_decision : ~ commit_as_claimed.
Proof.
  intros H.
  specialize (H no_listeners 1000
                (sample_decision CONTENT_CREATION "post" (Some "twitter") (Some "SEI")
                   (Some 5%Q))
                (newController AUTONOMOUS sample_limits)).
  assert (Hne : CONTENT_CREATION <> FINANCIAL_TRANSACTION) by discriminate.
  specialize (H Hne).
  apply (f_equal (fun m => m !! "SEI")) in H.
  rewrite recordApprovedDecision_currentSpending in H.
  vm_compute in H. discriminate H.
Qed.

(** ** The ladder *)

Section Ladder.
Variable listener : string -> Listener.

Lemma adjustLimitsForLevel_level lvl c : level (adjustLimitsForLevel lvl c) = level c.
Proof. destruct lvl; reflexivity. Qed.

Lemma updateAutonomyLevel_level lvl why (s : State) :
  level (config (final_state (updateAutonomyLevel listener lvl why s))) = lvl.
Proof.
  unfold updateAutonomyLevel, mbind, M_bind, modify, emit.
  destruct (listener _); cbn; apply adjustLimitsForLevel_level.
Qed.

Lemma getReducedAutonomyLevel_one_rung (s : State) :
  getReducedAutonomyLevel s = spec_one_rung_down (level (config s)).
Proof. unfold getReducedAutonomyLevel. destruct (level (config s)); reflexivity. Qed.

Lemma executeEscalationAction_reduce now rnd (t : EscalationTrigger) d (s : State) :
  action t = REDUCE_AUTONOMY ->
  level (config (final_state (executeEscalationAction listener now rnd t d s)))
  = spec_one_rung_down (level (config s)).
Proof.
  intros Ha. unfold executeEscalationAction. rewrite Ha.
  unfold mbind at 1 2, M_bind, modify, get.
  rewrite updateAutonomyLevel_level. apply (getReducedAutonomyLevel_one_rung (set_metrics _ s)).
Qed.

(** C4: each ReduceAutonomy escalation moves the level exactly one rung down
    the ladder Autonomous, SemiAutonomous, Supervised, Restricted, and
    leaves it at Restricted once there: it never skips a rung and never
    moves up.  From Autonomous, four escalations visit SemiAutonomous,
    Supervised, Restricted, Restricted. *)
Theorem reduce_autonomy_walks_the_ladder (steps : list Escalation) (s : State) :
  Forall (fun e => action (esc_trigger e) = REDUCE_AUTONOMY) steps ->
  levels_visited listener steps s = spec_descent (level (config s)) (length steps)
  /\ (forall lvl, rung (spec_one_rung_down lvl) = Z.max 0 (rung lvl - 1))
  /\ spec_descent AUTONOMOUS 4 = [SEMI_AUTONOMOUS; SUPERVISED; RESTRICTED; RESTRICTED].
Proof.
  intros Hsteps. split; [|split; [intros []; reflexivity | reflexivity]].
  revert s. induction Hsteps as [|e rest He _ IH]; intros s; simpl.
  - reflexivity.
  - rewrite IH, executeEscalationAction_reduce by exact He. reflexivity.
Qed.

End Ladder.

(** Four ReduceAutonomy escalations at an autonomous controller. *)
Lemma reduce_autonomy_walks_the_ladder_sample :
  levels_visited no_listeners
    [sample_escalation; sample_escalation; sample_escalation; sample_escalation]
    (newController AUTONOMOUS sample_limits)
  = [SEMI_AUTONOMOUS; SUPERVISED; RESTRICTED; RESTRICTED].
Proof.
  apply (reduce_autonomy_walks_the_ladder no_listeners
           [sample_escalation; sample_escalation; sample_escalation; sample_escalation]
           (newController AUTONOMOUS sample_limits)).
  repeat constructor.
Defined.

(** ** The content policy check *)

Section ContentPolicy.
Variable numToString : Q -> string.
Variable listener : string -> Listener.

Lemma unless_denied_denied check rest (s s' : State) (r : ValidationResult) :
  check s = Return r s' -> approved r = false ->
  unless_denied check rest s = Return r s'.
Proof.
  intros Hc Hr. unfold unless_denied, mbind, M_bind. rewrite Hc, Hr. reflexivity.
Qed.

Lemma recordViolation_returns (v : GuardrailViolation) (s : State) :
  listener "guardrail_violation" <> ListenerThrows ->
  exists s',
    recordViolation listener v s = Return tt s'
    /\ last (violationHistory s') = Some v
    /\ violations (metrics s') = violations (metrics s) + 1
    /\ config s' = config s.
Proof.
  intros Hl. unfold recordViolation, mbind, M_bind, modify, emit.
  cbv beta iota.
  set (s1 := set_emitted _ _).
  assert (Hs1 : violationHistory s1 = (violationHistory s ++ [v])%list) by reflexivity.
  assert (Hend :
    exists s',
      (if Nat.ltb 1000 (length (violationHistory s1)) then
         set_violationHistory
           (drop (length (violationHistory s1) - 500) (violationHistory s1)) s1
       else s1) = s'
      /\ last (violationHistory s') = Some v
      /\ violations (metrics s') = violations (metrics s) + 1
      /\ config s' = config s).
  { destruct (Nat.ltb 1000 (length (violationHistory s1))) eqn:Hlen.
    - eexists. split; [reflexivity|]. split; [|split; reflexivity].
      cbn [violationHistory set_violationHistory]. rewrite Hs1.
      rewrite drop_app_le by (rewrite length_app; simpl; lia).
      apply last_snoc.
    - exists s1. split; [reflexivity|]. split; [|split; reflexivity].
      rewrite Hs1. apply last_snoc. }
  destruct Hend as (s' & Hs' & Hlast & Hcount & Hcfg).
  exists s'. split; [|auto].
  destruct (listener "guardrail_violation"); [| |contradiction];
    cbn; rewrite <- Hs'; reflexivity.
Qed.

Lemma validateContent_loop_denies now (d : Decision) (text : string)
    (forbiddenTypes : list string) (s : State) :
  listener "guardrail_violation" <> ListenerThrows ->
  (exists forbidden,
      forbidden ∈ forbiddenTypes /\ includes text (toLowerCase forbidden) = true) ->
  exists forbidden s',
    forbidden ∈ forbiddenTypes
    /\ includes text (toLowerCase forbidden) = true
    /\ validateContent_loop listener now d text forbiddenTypes s
       = Return {| approved := false;
                   reason := Some ("Content contains forbidden type: " ++ forbidden);
                   escalation_required := None;
                   result_timeout := None |} s'
    /\ last (violationHistory s') = Some (content_violation now d forbidden)
    /\ violations (metrics s') = violations (metrics s) + 1.
Proof.
  intros Hl. induction forbiddenTypes as [|f fs IH]; intros (x & Hx & Hinc).
  - apply elem_of_nil in Hx. contradiction.
  - simpl. destruct (includes text (toLowerCase f)) eqn:Hf.
    + destruct (recordViolation_returns (content_violation now d f) s Hl)
        as (s' & Hrun & Hlast & Hcount & _).
      exists f, s'. split; [apply list_elem_of_here|]. split; [exact Hf|].
      split; [|auto].
      unfold mbind, M_bind. fold (content_violation now d f). rewrite Hrun.
      reflexivity.
    + apply elem_of_cons in Hx as [->|Hx]; [congruence|].
      destruct IH as (g & s' & Hg & Hginc & Hrun & Hlast & Hcount); [eauto|].
      exists g, s'. split; [apply list_elem_of_further, Hg | auto].
Qed.

(** C6, as the code has it: for a ContentCreation decision that has passed
    the type gate (level SemiAutonomous or Autonomous) and whose description
    contains, case-insensitively, an entry of [forbidden_content_types],
    [validateDecision] records a [GuardrailViolation] of severity error with
    action_taken "blocked" and returns a denial that names the entry; the
    denial leaves [escalation_required] unset.  (The listeners of
    [guardrail_violation], if any, are taken to return.) *)
Theorem content_policy_denial now rnd (d : Decision) (s : State) :
  decision_type d = CONTENT_CREATION ->
  level (config s) = SEMI_AUTONOMOUS \/ level (config s) = AUTONOMOUS ->
  listener "guardrail_violation" <> ListenerThrows ->
  (exists forbidden,
      forbidden ∈ forbidden_content_types (interaction_rules (config s))
      /\ includes (toLowerCase (description d)) (toLowerCase forbidden) = true) ->
  exists forbidden s',
    forbidden ∈ forbidden_content_types (interaction_rules (config s))
    /\ includes (toLowerCase (description d)) (toLowerCase forbidden) = true
    /\ validateDecision numToString listener now rnd d s
       = Return {| approved := false;
                   reason := Some ("Content contains forbidden type: " ++ forbidden);
                   escalation_required := None;
                   result_timeout := None |} s'
    /\ last (violationHistory s')
       = Some {| violation_type := "content_policy";
                 severity := SevError;
                 violation_description := "Content contains forbidden type: " ++ forbidden;
                 violation_timestamp := now;
                 violation_decision_id := Some (decision_id d);
                 action_taken := "blocked" |}
    /\ violations (metrics s') = violations (metrics s) + 1.
Proof.
  intros Hty Hlvl Hl Hmatch.
  destruct (validateContent_loop_denies now d (toLowerCase (description d))
              (forbidden_content_types (interaction_rules (config s)))
              (submitted d s) Hl Hmatch)
    as (f & s' & Hf & Hinc & Hrun & Hlast & Hcount).
  exists f, s'. split; [exact Hf|]. split; [exact Hinc|]. split; [|auto].
  rewrite validateDecision_type_allowed
    by (unfold isDecisionTypeAllowed; rewrite Hty; destruct Hlvl as [-> | ->]; reflexivity).
  unfold try_catch, validateDecision_checks. rewrite Hty.
  rewrite !bool_decide_eq_false_2 by discriminate.
  rewrite bool_decide_eq_true_2 by reflexivity.
  cbn [andb when_applies].
  erewrite unless_denied_denied; [reflexivity | | reflexivity].
  unfold validateContent, mbind at 1, M_bind, get. exact Hrun.
Qed.

End ContentPolicy.

(** "Buy SPAM now" at an autonomous controller: denied for the entry "spam",
    with no escalation flag. *)
Lemma content_policy_denial_sample :
  exists forbidden s',
    validateDecision sample_numToString no_listeners 1000 "r"
      (sample_decision CONTENT_CREATION "Buy SPAM now" (Some "twitter") None None)
      (newController AUTONOMOUS sample_limits)
    = Return {| approved := false;
                reason := Some ("Content contains forbidden type: " ++ forbidden);
                escalation_required := None;
                result_timeout := None |} s'.
Proof.
  destruct (content_policy_denial sample_numToString no_listeners 1000 "r"
              (sample_decision CONTENT_CREATION "Buy SPAM now" (Some "twitter") None None)
              (newController AUTONOMOUS sample_limits))
    as (f & s' & _ & _ & Hrun & _).
  - reflexivity.
  - right. reflexivity.
  - discriminate.
  - exists "spam". split; [apply list_elem_of_here | reflexivity].
  - exists f, s'. exact Hrun.
Defined.

(** "Buy SPAM now" is denied without [escalation_required]. *)
Lemma content_denial_does_not_escalate : ~ content_denial_as_claimed.
Proof.
  intros H.
  destruct (H sample_numToString no_listeners 1000 "r"
              (sample_decision CONTENT_CREATION "Buy SPAM now" (Some "twitter") None None)
              (newController AUTONOMOUS sample_limits) eq_refl)
    as (r & s' & Hrun & _ & Hesc).
  - exists "spam". split; [apply list_elem_of_here | reflexivity].
  - vm_compute in Hrun. inversion Hrun; subst r. discriminate Hesc.
Qed.

(** ** The escalation triggers *)

Section Escalation.
Variable numToString : Q -> string.
Variable listener : string -> Listener.

Lemma evaluateTrigger_spending_only (t : EscalationTrigger) (d : Decision) :
  evaluateTrigger t d = true
  <-> trigger_type t = SPENDING_THRESHOLD
      /\ (threshold t < num_or_zero (estimated_cost d))%Q.
Proof.
  unfold evaluateTrigger. destruct (trigger_type t);
    rewrite ?Qgtb_true; split; intros H;
    first [ discriminate | destruct H; discriminate | tauto ].
Qed.

(** The loop stops at the first trigger that matches. *)
Lemma checkEscalationTriggers_loop_first now rnd (d : Decision) pre t post :
  Forall (fun t' => evaluateTrigger t' d = false) pre ->
  evaluateTrigger t d = true ->
  checkEscalationTriggers_loop listener now rnd d (pre ++ t :: post)
  = (executeEscalationAction listener now rnd t d ;;
     s ← get; mret (escalation_denial s t)).
Proof.
  intros Hpre Ht. induction Hpre as [|t' pre Ht' _ IH]; simpl.
  - rewrite Ht. reflexivity.
  - rewrite Ht'. exact IH.
Qed.

Lemma checkEscalationTriggers_loop_none now rnd (d : Decision) triggers :
  Forall (fun t' => evaluateTrigger t' d = false) triggers ->
  checkEscalationTriggers_loop listener now rnd d triggers
  = (s ← get; mret (createValidationResult s true None None)).
Proof.
  induction 1 as [|t' pre Ht' _ IH]; simpl; [reflexivity|].
  rewrite Ht'. exact IH.
Qed.

(** *** One escalation is counted *)

Lemma counts_escalations_ignores_log n : ignores_log (counts_escalations n).
Proof. intros l s Hs. exact Hs. Qed.

Ltac count_preserve :=
  preserve;
  try apply counts_escalations_ignores_log;
  try (unfold counts_escalations in *; cbn; assumption).

Lemma recordViolation_counts n v :
  preserves (counts_escalations n) (recordViolation listener v).
Proof.
  unfold recordViolation. count_preserve.
  match goal with |- context [if ?b then _ else _] => destruct b end; assumption.
Qed.

Lemma updateAutonomyLevel_counts n lvl why :
  preserves (counts_escalations n) (updateAutonomyLevel listener lvl why).
Proof. unfold updateAutonomyLevel. count_preserve. Qed.

Lemma triggerEmergencyStop_counts n why :
  preserves (counts_escalations n) (triggerEmergencyStop listener why).
Proof.
  unfold triggerEmergencyStop.
  apply preserves_bind; [apply updateAutonomyLevel_counts | intros _].
  unfold write_status. count_preserve.
Qed.

Lemma requestApproval_counts n now rnd d :
  preserves (counts_escalations n) (requestApproval listener now rnd d).
Proof. unfold requestApproval. count_preserve. Qed.

Lemma executeEscalationAction_counts_one now rnd t d (s : State) :
  escalations
    (metrics (final_state (executeEscalationAction listener now rnd t d s)))
  = escalations (metrics s) + 1.
Proof.
  unfold executeEscalationAction.
  match goal with
  | |- context [modify ?f ≫= ?k] =>
      change (final_state ((modify f ≫= k) s)) with (final_state (k tt (f s)));
      cut (preserves (counts_escalations (escalations (metrics s) + 1)) (k tt));
      [intros Hk; apply Hk; reflexivity | cbv beta]
  end.
  destruct (action t).
  - apply triggerEmergencyStop_counts.
  - apply preserves_detached, requestApproval_counts.
  - count_preserve.
  - apply preserves_bind; [apply preserves_get | intros ?].
    apply updateAutonomyLevel_counts.
  - apply recordViolation_counts.
Qed.

(** *** A matching trigger denies *)

Lemma checkEscalationTriggers_loop_denies now rnd (d : Decision) triggers :
  Exists (fun t => evaluateTrigger t d = true) triggers ->
  hoare (fun _ => True)
    (checkEscalationTriggers_loop listener now rnd d triggers)
    (fun r _ => approved r = false /\ escalation_required r = Some true)
    (fun _ _ => True).
Proof.
  induction triggers as [|t ts IH]; intros Hex.
  - inversion Hex.
  - simpl. destruct (evaluateTrigger t d) eqn:Ht.
    + eapply hoare_bind; [apply hoare_anything | intros ?].
      eapply hoare_bind with (R := fun _ _ => True);
        [apply hoare_get; intros s Hs; exact Hs | intros s].
      apply hoare_ret. intros _ _. split; reflexivity.
    + apply IH. inversion Hex; subst; [congruence | assumption].
Qed.

Lemma has_triggers_ignores_log ts : ignores_log (has_triggers ts).
Proof. intros l s Hs. exact Hs. Qed.

Lemma validateContent_has_triggers ts now d :
  preserves (has_triggers ts) (validateContent listener now d).
Proof.
  unfold validateContent.
  apply preserves_bind; [apply preserves_get | intros s0].
  induction (forbidden_content_types _) as [|f fs IH]; simpl.
  - preserve.
  - destruct (includes _ _); [|exact IH].
    unfold recordViolation. preserve;
      try apply has_triggers_ignores_log;
      try (unfold has_triggers in *; cbn; assumption).
    match goal with |- context [if ?b then _ else _] => destruct b end; assumption.
Qed.

(** A check that keeps [P] when it approves; when it denies, the denial is
    what [validateDecision] returns. *)
Lemma hoare_check_of_preserves (P : State -> Prop) (check : M ValidationResult) :
  preserves P check ->
  hoare P check
    (fun r s => if approved r then P s else approved r = false)
    (fun _ _ => True).
Proof.
  intros Hc s Hs. specialize (Hc s Hs).
  destruct (check s) as [r s'|e s']; [|exact I].
  destruct (approved r) eqn:Hr; [exact Hc | reflexivity].
Qed.

Lemma validateDecision_checks_denied_by_trigger now rnd (d : Decision) triggers :
  Exists (fun t => evaluateTrigger t d = true) triggers ->
  hoare (has_triggers triggers)
    (validateDecision_checks numToString listener now rnd d)
    (fun r _ => approved r = false)
    (fun _ _ => True).
Proof.
  intros Hex. unfold validateDecision_checks, when_applies.
  assert (Hreader : forall f : State -> ValidationResult,
             hoare (has_triggers triggers) (s ← get; mret (f s))
               (fun r s => if approved r then has_triggers triggers s
                           else approved r = false)
               (fun _ _ => True)).
  { intros f. apply hoare_check_of_preserves. preserve. }
  assert (Hlast :
    hoare (has_triggers triggers)
      (escalationCheck ← checkEscalationTriggers listener now rnd d;
       if bool_decide (escalation_required escalationCheck = Some true) then
         mret escalationCheck
       else
         recordApprovedDecision listener now d ;;
         s ← get;
         mret (createValidationResult s true
                 (Some "Decision approved within autonomy parameters") None))
      (fun r _ => approved r = false) (fun _ _ => True)).
  { eapply hoare_bind.
    - unfold checkEscalationTriggers.
      eapply hoare_bind with (R := fun s0 _ => has_triggers triggers s0);
        [apply hoare_get; intros s Hs; exact Hs | intros s0].
      intros s Hs. unfold has_triggers in Hs.
      apply (checkEscalationTriggers_loop_denies now rnd d _); [|exact I].
      rewrite Hs. exact Hex.
    - intros r s [Hden Hesc].
      rewrite bool_decide_eq_true_2 by exact Hesc. exact Hden. }
  repeat match goal with
         | |- hoare _ (if ?b then _ else _) _ _ => destruct b
         | |- hoare _ (unless_denied (validateContent _ _ _) _) _ _ =>
             eapply hoare_unless_denied;
             [apply hoare_check_of_preserves, validateContent_has_triggers|]
         | |- hoare _ (unless_denied (_ ≫= _) _) _ _ =>
             eapply hoare_unless_denied; [apply Hreader|]
         end;
    exact Hlast.
Qed.

Lemma validateDecision_denied_by_trigger now rnd (d : Decision) (s : State) :
  Exists (fun t => evaluateTrigger t d = true) (escalation_triggers (config s)) ->
  forall r s',
    validateDecision numToString listener now rnd d s = Return r s' ->
    approved r = false.
Proof.
  intros Hex r s' Hrun.
  assert (H : hoare (has_triggers (escalation_triggers (config s)))
                (validateDecision numToString listener now rnd d)
                (fun r _ => approved r = false) (fun _ _ => True)).
  { unfold validateDecision.
    eapply hoare_try_catch with (E' := fun _ _ => True).
    - unfold validateDecision_body.
      eapply hoare_bind
        with (R := fun _ => has_triggers (escalation_triggers (config s)));
        [apply hoare_modify; intros s0 Hs0; exact Hs0 | intros ?].
      eapply hoare_bind
        with (R := fun _ => has_triggers (escalation_triggers (config s)));
        [apply hoare_get; intros s0 Hs0; exact Hs0 | intros s0].
      destruct (negb _).
      + apply hoare_ret. reflexivity.
      + apply validateDecision_checks_denied_by_trigger, Hex.
    - intros e. unfold validateDecision_catch.
      eapply hoare_bind; [apply hoare_anything | intros ?].
      eapply hoare_bind with (R := fun _ _ => True);
        [apply hoare_get; intros s0 Hs0; exact Hs0 | intros s0].
      apply hoare_ret. reflexivity. }
  specialize (H s eq_refl). rewrite Hrun in H. exact H.
Qed.

End Escalation.

(** ** With listeners that return, the validation returns *)

Section ListenersReturn.
Variable numToString : Q -> string.
Variable listener : string -> Listener.
Hypothesis listeners_return : forall event, listener event <> ListenerThrows.

Lemma recordViolation_never_throws v : never_throws (recordViolation listener v).
Proof. unfold recordViolation. returns; apply listeners_return. Qed.

Lemma updateAutonomyLevel_never_throws lvl why :
  never_throws (updateAutonomyLevel listener lvl why).
Proof. unfold updateAutonomyLevel. returns; apply listeners_return. Qed.

Lemma triggerEmergencyStop_never_throws why :
  never_throws (triggerEmergencyStop listener why).
Proof.
  unfold triggerEmergencyStop.
  apply never_throws_bind; [apply updateAutonomyLevel_never_throws | intros _].
  unfold write_status. returns; apply listeners_return.
Qed.

Lemma executeEscalationAction_never_throws now rnd t d :
  never_throws (executeEscalationAction listener now rnd t d).
Proof.
  unfold executeEscalationAction.
  apply never_throws_bind; [apply never_throws_modify | intros _].
  destruct (action t).
  - apply triggerEmergencyStop_never_throws.
  - apply never_throws_detached.
  - returns; apply listeners_return.
  - apply never_throws_bind; [apply never_throws_get | intros ?].
    apply updateAutonomyLevel_never_throws.
  - apply recordViolation_never_throws.
Qed.

Lemma checkEscalationTriggers_never_throws now rnd d :
  never_throws (checkEscalationTriggers listener now rnd d).
Proof.
  unfold checkEscalationTriggers.
  apply never_throws_bind; [apply never_throws_get | intros s0].
  induction (escalation_triggers (config s0)) as [|t ts IH]; simpl.
  - returns.
  - destruct (evaluateTrigger t d); [|exact IH].
    apply never_throws_bind; [apply executeEscalationAction_never_throws | intros _].
    returns.
Qed.

Lemma validateContent_never_throws now d :
  never_throws (validateContent listener now d).
Proof.
  unfold validateContent.
  apply never_throws_bind; [apply never_throws_get | intros s0].
  induction (forbidden_content_types _) as [|f fs IH]; simpl.
  - returns.
  - destruct (includes _ _); [|exact IH].
    apply never_throws_bind; [apply recordViolation_never_throws | intros _].
    returns.
Qed.

Lemma recordApprovedDecision_never_throws now d :
  never_throws (recordApprovedDecision listener now d).
Proof. unfold recordApprovedDecision. returns; apply listeners_return. Qed.

Lemma validateDecision_never_throws now rnd d :
  never_throws (validateDecision numToString listener now rnd d).
Proof.
  unfold validateDecision. apply never_throws_try_catch.
  unfold validateDecision_body.
  apply never_throws_bind; [apply never_throws_modify | intros _].
  apply never_throws_bind; [apply never_throws_get | intros s0].
  destruct (negb _); [apply never_throws_ret|].
  unfold validateDecision_checks, when_applies, unless_denied.
  repeat first
    [ apply validateContent_never_throws
    | apply checkEscalationTriggers_never_throws
    | apply recordApprovedDecision_never_throws
    | returns_step ].
Qed.

End ListenersReturn.

Section FirstTrigger.
Variable numToString : Q -> string.
Variable listener : string -> Listener.

Lemma final_state_then_reader {A B} (m : M A) (f : State -> B) (s : State) :
  final_state ((m ;; s' ← get; mret (f s')) s) = final_state (m s).
Proof. unfold mbind, M_bind, get. destruct (m s); reflexivity. Qed.

(** C5, as the code has it: [checkEscalationTriggers] takes the first
    configured trigger that matches and executes its action, and only that
    one (one escalation is counted); a SpendingThreshold trigger matches
    exactly when [estimated_cost] (0 when absent) exceeds its threshold, and
    a trigger of any other type, ErrorRate included, never matches; when a
    trigger matches, [checkEscalationTriggers] returns a denial with
    escalation_required = true and [validateDecision] does not approve the
    decision in that call (it returns a denial whenever no listener
    throws). *)
Theorem first_matching_trigger_wins now rnd (d : Decision) (s : State) pre t post :
  escalation_triggers (config s) = (pre ++ t :: post)%list ->
  Forall (fun t' => evaluateTrigger t' d = false) pre ->
  evaluateTrigger t d = true ->
  (forall t',
      evaluateTrigger t' d = true
      <-> trigger_type t' = SPENDING_THRESHOLD
          /\ (threshold t' < num_or_zero (estimated_cost d))%Q)
  /\ checkEscalationTriggers listener now rnd d s
     = (executeEscalationAction listener now rnd t d ;;
        s' ← get; mret (escalation_denial s' t)) s
  /\ escalations
       (metrics (final_state (checkEscalationTriggers listener now rnd d s)))
     = escalations (metrics s) + 1
  /\ (forall r s',
         checkEscalationTriggers listener now rnd d s = Return r s' ->
         approved r = false /\ escalation_required r = Some true)
  /\ (forall r s',
         validateDecision numToString listener now rnd d s = Return r s' ->
         approved r = false)
  /\ ((forall event, listener event <> ListenerThrows) ->
      (exists r s',
          checkEscalationTriggers listener now rnd d s = Return r s'
          /\ approved r = false /\ escalation_required r = Some true)
      /\ (exists r s',
             validateDecision numToString listener now rnd d s = Return r s'
             /\ approved r = false)).
Proof.
  intros Hcfg Hpre Ht.
  assert (Hrun :
    checkEscalationTriggers listener now rnd d s
    = (executeEscalationAction listener now rnd t d ;;
       s' ← get; mret (escalation_denial s' t)) s).
  { unfold checkEscalationTriggers, mbind at 1, M_bind, get. rewrite Hcfg.
    rewrite checkEscalationTriggers_loop_first by assumption. reflexivity. }
  assert (Hex : Exists (fun t' => evaluateTrigger t' d = true)
                  (escalation_triggers (config s))).
  { rewrite Hcfg. apply Exists_app. right. apply Exists_cons_hd, Ht. }
  split; [intros t'; apply evaluateTrigger_spending_only|].
  split; [exact Hrun|].
  split; [rewrite Hrun, final_state_then_reader;
          apply executeEscalationAction_counts_one|].
  assert (Hden : forall r s',
             checkEscalationTriggers listener now rnd d s = Return r s' ->
             approved r = false /\ escalation_required r = Some true).
  { intros r s'. rewrite Hrun. unfold mbind, M_bind, get, mret, M_ret.
    destruct (executeEscalationAction listener now rnd t d s); [|discriminate].
    intros [= <- _]. split; reflexivity. }
  split; [exact Hden|].
  split; [apply validateDecision_denied_by_trigger, Hex|].
  intros Hquiet. split.
  - destruct (checkEscalationTriggers_never_throws listener Hquiet now rnd d s)
      as (r & s' & Hret).
    exists r, s'. split; [exact Hret | exact (Hden r s' Hret)].
  - destruct (validateDecision_never_throws numToString listener Hquiet now rnd d s)
      as (r & s' & Hret).
    exists r, s'. split; [exact Hret|].
    apply (validateDecision_denied_by_trigger _ _ now rnd d s Hex r s' Hret).
Qed.

End FirstTrigger.

(** An offer that costs 2000 at a fresh autonomous controller: the default
    spending trigger (threshold 1000) fires and the offer is denied. *)
Lemma first_matching_trigger_wins_sample :
  exists r s',
    validateDecision sample_numToString no_listeners 1000 "r"
      (sample_decision SERVICE_OFFERING "offer" None None (Some 2000%Q))
      (newController AUTONOMOUS sample_limits)
    = Return r s'
    /\ approved r = false.
Proof.
  destruct (first_matching_trigger_wins sample_numToString no_listeners 1000 "r"
              (sample_decision SERVICE_OFFERING "offer" None None (Some 2000%Q))
              (newController AUTONOMOUS sample_limits)
              [] _ _ eq_refl (List.Forall_nil _) eq_refl)
    as (_ & _ & _ & _ & _ & H).
  apply H. intros event. discriminate.
Defined.

(** No error rate explains an ErrorRate trigger: it does not match even a
    threshold below the rate. *)
Lemma error_rate_trigger_never_matches : ~ error_rate_as_claimed.
Proof.
  intros H.
  destruct (H (sample_decision SERVICE_OFFERING "offer" None None (Some 2000%Q)))
    as (rate & Hrate).
  specialize (Hrate (rate - 1)%Q). destruct Hrate as [_ Hmatch].
  assert (Hlt : (rate - 1 < rate)%Q).
  { rewrite <- (Qplus_0_r rate) at 2. unfold Qminus.
    apply Qplus_lt_r. reflexivity. }
  specialize (Hmatch Hlt). discriminate Hmatch.
Qed.

(** ** The approval workflow *)

Section Approvals.
Variable listener : string -> Listener.

Lemma jsmap_get_values {V} (k : string) (v : V) (m : list (string * V)) :
  jsmap_get k m = Some v -> v ∈ jsmap_values m.
Proof.
  induction m as [|[k' v'] m IH]; simpl; [discriminate|].
  destruct (String.eqb k k').
  - intros [= ->]. apply list_elem_of_here.
  - intros H. apply list_elem_of_further, IH, H.
Qed.

Lemma jsmap_get_delete {V} (k : string) (m : list (string * V)) :
  NoDup (map fst m) -> jsmap_get k (jsmap_delete k m) = None.
Proof.
  induction m as [|[k' v'] m IH]; simpl; [reflexivity|].
  intros Hnd. apply NoDup_cons in Hnd as [Hk' Hnd].
  destruct (String.eqb k k') eqn:Hk.
  - apply String.eqb_eq in Hk as ->.
    clear IH. induction m as [|[k2 v2] m IH]; simpl; [reflexivity|].
    destruct (String.eqb k' k2) eqn:Hk2.
    + apply String.eqb_eq in Hk2 as ->. exfalso. apply Hk'. simpl.
      apply list_elem_of_here.
    + apply IH.
      * intros Hin. apply Hk'. simpl. apply list_elem_of_further, Hin.
      * simpl in Hnd. apply NoDup_cons in Hnd as [_ Hnd]. exact Hnd.
  - simpl. rewrite Hk. apply IH, Hnd.
Qed.

(** [processApprovalResponse] fails, and changes nothing, unless the id is
    in the map and its request is pending. *)
Lemma processApprovalResponse_rejects now id ok who note (s : State) :
  (forall loc r,
      jsmap_get id (pendingApprovals s) = Some loc ->
      requests s !! loc = Some r -> status r <> Pending) ->
  processApprovalResponse listener now id ok who note s
  = Raise InvalidApprovalRequest s.
Proof.
  intros H. unfold processApprovalResponse, mbind at 1, M_bind, get.
  destruct (jsmap_get id (pendingApprovals s)) as [loc|]; [|reflexivity].
  destruct (requests s !! loc) as [r|] eqn:Hr; [|reflexivity].
  rewrite bool_decide_eq_false_2 by (apply (H loc r); [reflexivity | exact Hr]).
  reflexivity.
Qed.

Lemma has_pending_ignores_log m : ignores_log (has_pending m).
Proof. intros l s Hs. exact Hs. Qed.

Ltac pending_preserve :=
  preserve;
  try apply has_pending_ignores_log;
  try (unfold has_pending in *; cbn; assumption).

(** A response that was accepted has taken the id out of the map. *)
Lemma processApprovalResponse_deletes now id ok who note (s s' : State) :
  processApprovalResponse listener now id ok who note s = Return tt s' ->
  pendingApprovals s' = jsmap_delete id (pendingApprovals s).
Proof.
  intros Hrun.
  assert (H : hoare (has_pending (pendingApprovals s))
                (processApprovalResponse listener now id ok who note)
                (fun _ s' => pendingApprovals s' = jsmap_delete id (pendingApprovals s))
                (fun _ _ => True)).
  { unfold processApprovalResponse.
    eapply hoare_bind with (R := fun _ => has_pending (pendingApprovals s));
      [apply hoare_get; auto | intros s0].
    destruct (jsmap_get id (pendingApprovals s0)); [|intros ? _; exact I].
    destruct (requests s0 !! n); [|intros ? _; exact I].
    destruct (negb _); [intros ? _; exact I|].
    eapply hoare_bind with (R := fun _ => has_pending (pendingApprovals s));
      [apply hoare_step_of_preserves; pending_preserve | intros ?].
    eapply hoare_bind with (R := fun _ => has_pending (pendingApprovals s));
      [apply hoare_step_of_preserves; unfold updateApprovalRate, recordApprovedDecision;
       pending_preserve | intros ?].
    eapply hoare_bind with (R := fun _ => has_pending (pendingApprovals s));
      [apply hoare_step_of_preserves; pending_preserve | intros ?].
    apply hoare_modify. intros s1 Hs1. unfold has_pending in Hs1.
    cbn. rewrite Hs1. reflexivity. }
  specialize (H s eq_refl). rewrite Hrun in H. exact H.
Qed.

(** So a second response on the same id fails. *)
Lemma processApprovalResponse_twice now now' id ok ok' who who' note note'
    (s s' : State) :
  NoDup (map fst (pendingApprovals s)) ->
  processApprovalResponse listener now id ok who note s = Return tt s' ->
  processApprovalResponse listener now' id ok' who' note' s'
  = Raise InvalidApprovalRequest s'.
Proof.
  intros Hnd Hrun. apply processApprovalResponse_rejects.
  intros loc r Hloc. apply processApprovalResponse_deletes in Hrun.
  rewrite Hrun, jsmap_get_delete in Hloc by exact Hnd. discriminate Hloc.
Qed.


End Approvals.




(** ** The map of pending approvals holds each id once *)

Section PendingKeys.
Variable numToString : Q -> string.
Variable listener : string -> Listener.

Lemma jsmap_set_keys {V} (k x : string) (v : V) (m : list (string * V)) :
  x ∈ map fst (jsmap_set k v m) -> x = k \/ x ∈ map fst m.
Proof.
  induction m as [|[k' v'] m IH]; simpl.
  - rewrite elem_of_cons, elem_of_nil. tauto.
  - destruct (String.eqb k k'); simpl; rewrite !elem_of_cons; [tauto|].
    intros [->|H]; [tauto|]. destruct (IH H); tauto.
Qed.

Lemma jsmap_delete_keys {V} (k x : string) (m : list (string * V)) :
  x ∈ map fst (jsmap_delete k m) -> x ∈ map fst m.
Proof.
  induction m as [|[k' v'] m IH]; simpl; [tauto|].
  destruct (String.eqb k k'); simpl; rewrite !elem_of_cons; [tauto|].
  intros [->|H]; [tauto|]. right. apply IH, H.
Qed.

Lemma jsmap_set_NoDup {V} (k : string) (v : V) (m : list (string * V)) :
  NoDup (map fst m) -> NoDup (map fst (jsmap_set k v m)).
Proof.
  induction m as [|[k' v'] m IH]; simpl; intros Hnd.
  - apply NoDup_singleton.
  - apply NoDup_cons in Hnd as [Hk' Hnd].
    destruct (String.eqb k k') eqn:Hk; simpl; apply NoDup_cons.
    + split; assumption.
    + split; [|apply IH, Hnd].
      intros Hin. apply jsmap_set_keys in Hin as [->|Hin]; [|contradiction].
      rewrite String.eqb_refl in Hk. discriminate Hk.
Qed.

Lemma jsmap_delete_NoDup {V} (k : string) (m : list (string * V)) :
  NoDup (map fst m) -> NoDup (map fst (jsmap_delete k m)).
Proof.
  induction m as [|[k' v'] m IH]; simpl; intros Hnd; [exact Hnd|].
  apply NoDup_cons in Hnd as [Hk' Hnd].
  destruct (String.eqb k k'); [exact Hnd|]. simpl. apply NoDup_cons.
  split; [|apply IH, Hnd].
  intros Hin. apply Hk'. apply (jsmap_delete_keys k), Hin.
Qed.

Lemma pending_keys_unique_ignores_log : ignores_log pending_keys_unique.
Proof. intros l s Hs. exact Hs. Qed.

Ltac keys_preserve :=
  preserve;
  try apply pending_keys_unique_ignores_log;
  try (unfold pending_keys_unique in *; cbn;
       first [ assumption
             | apply jsmap_set_NoDup; assumption
             | apply jsmap_delete_NoDup; assumption
             | apply NoDup_nil_2 ]).

Lemma recordViolation_keys v :
  preserves pending_keys_unique (recordViolation listener v).
Proof.
  unfold recordViolation. keys_preserve.
  match goal with |- context [if ?b then _ else _] => destruct b end; assumption.
Qed.

Lemma updateAutonomyLevel_keys lvl why :
  preserves pending_keys_unique (updateAutonomyLevel listener lvl why).
Proof. unfold updateAutonomyLevel. keys_preserve. Qed.

Lemma triggerEmergencyStop_keys why :
  preserves pending_keys_unique (triggerEmergencyStop listener why).
Proof.
  unfold triggerEmergencyStop.
  apply preserves_bind; [apply updateAutonomyLevel_keys | intros _].
  unfold write_status. keys_preserve.
Qed.

Lemma requestApproval_keys now rnd d :
  preserves pending_keys_unique (requestApproval listener now rnd d).
Proof. unfold requestApproval. keys_preserve. Qed.

Lemma recordApprovedDecision_keys now d :
  preserves pending_keys_unique (recordApprovedDecision listener now d).
Proof. unfold recordApprovedDecision. keys_preserve. Qed.

Lemma executeEscalationAction_keys now rnd t d :
  preserves pending_keys_unique (executeEscalationAction listener now rnd t d).
Proof.
  unfold executeEscalationAction.
  apply preserves_bind; [keys_preserve | intros _].
  destruct (action t).
  - apply triggerEmergencyStop_keys.
  - apply preserves_detached, requestApproval_keys.
  - keys_preserve.
  - apply preserves_bind; [apply preserves_get | intros ?].
    apply updateAutonomyLevel_keys.
  - apply recordViolation_keys.
Qed.

Lemma checkEscalationTriggers_keys now rnd d :
  preserves pending_keys_unique (checkEscalationTriggers listener now rnd d).
Proof.
  unfold checkEscalationTriggers.
  apply preserves_bind; [apply preserves_get | intros s0].
  induction (escalation_triggers (config s0)) as [|t ts IH]; simpl.
  - keys_preserve.
  - destruct (evaluateTrigger t d); [|exact IH].
    apply preserves_bind; [apply executeEscalationAction_keys | intros _].
    keys_preserve.
Qed.

Lemma validateContent_keys now d :
  preserves pending_keys_unique (validateContent listener now d).
Proof.
  unfold validateContent.
  apply preserves_bind; [apply preserves_get | intros s0].
  induction (forbidden_content_types _) as [|f fs IH]; simpl.
  - keys_preserve.
  - destruct (includes _ _); [|exact IH].
    apply preserves_bind; [apply recordViolation_keys | intros _].
    keys_preserve.
Qed.

Lemma validateDecision_keys now rnd d :
  preserves pending_keys_unique (validateDecision numToString listener now rnd d).
Proof.
  unfold validateDecision.
  apply preserves_try_catch;
    [|intros e; unfold validateDecision_catch; keys_preserve].
  unfold validateDecision_body.
  apply preserves_bind; [keys_preserve | intros _].
  apply preserves_bind; [apply preserves_get | intros s0].
  destruct (negb _); [keys_preserve|].
  unfold validateDecision_checks, when_applies, unless_denied.
  repeat first
    [ apply validateContent_keys
    | apply checkEscalationTriggers_keys
    | apply recordApprovedDecision_keys
    | preserve_step ].
Qed.

Lemma processApprovalResponse_keys now id ok who note :
  preserves pending_keys_unique (processApprovalResponse listener now id ok who note).
Proof.
  unfold processApprovalResponse, updateApprovalRate.
  repeat first [ apply recordApprovedDecision_keys | preserve_step ];
    try apply pending_keys_unique_ignores_log;
    try (unfold pending_keys_unique in *; cbn;
         first [ assumption | apply jsmap_delete_NoDup; assumption ]).
Qed.

Lemma sweepExpiredApprovals_keys now :
  preserves pending_keys_unique (sweepExpiredApprovals listener now).
Proof. unfold sweepExpiredApprovals, write_status. keys_preserve. Qed.

Lemma run_call_keys c :
  forall s, pending_keys_unique s ->
            pending_keys_unique (run_call numToString listener c s).
Proof.
  destruct c; cbv beta iota delta [run_call];
    match goal with
    | |- forall s, _ -> pending_keys_unique (final_state (?m s)) =>
        change (preserves pending_keys_unique m)
    end.
  - apply validateDecision_keys.
  - apply requestApproval_keys.
  - apply processApprovalResponse_keys.
  - apply updateAutonomyLevel_keys.
  - unfold updateSpendingLimits. keys_preserve.
  - unfold updateInteractionRules. keys_preserve.
  - unfold addEscalationTrigger. keys_preserve.
  - unfold removeEscalationTrigger. keys_preserve.
  - apply triggerEmergencyStop_keys.
  - unfold getMetrics. keys_preserve.
  - unfold approvalTimeoutFired, write_status. keys_preserve.
  - unfold resetDailySpending. keys_preserve.
  - unfold pruneInteractionCounts. keys_preserve.
  - apply sweepExpiredApprovals_keys.
Qed.

Lemma reachable_pending_keys_unique s :
  reachable numToString listener s -> pending_keys_unique s.
Proof.
  induction 1 as [lvl lim | s c _ IH].
  - apply NoDup_nil_2.
  - apply run_call_keys, IH.
Qed.

(** In a reachable state, a second response on an id whose first response
    was accepted fails. *)
Lemma processApprovalResponse_second_fails now now' id ok ok' who who' note note'
    (s s' : State) :
  reachable numToString listener s ->
  processApprovalResponse listener now id ok who note s = Return tt s' ->
  processApprovalResponse listener now' id ok' who' note' s'
  = Raise InvalidApprovalRequest s'.
Proof.
  intros Hs. apply processApprovalResponse_twice.
  apply reachable_pending_keys_unique, Hs.
Qed.

End PendingKeys.
(** C2 fails on the code: a request whose callback has fired has status
    timeout and is still in the map; [triggerEmergencyStop] then writes
    denied into it. *)
Lemma emergency_stop_overwrites_timeout :
  status <$> requests state_approval_timed_out !! 0%nat = Some Timeout
  /\ status
       <$> requests
             (final_state
                (triggerEmergencyStop no_listeners "operator" state_approval_timed_out))
           !! 0%nat
     = Some Denied.
Proof. split; vm_compute; reflexivity. Qed.

(** ** Exceptions during validation *)

Section Exceptions.
Variable numToString : Q -> string.
Variable listener : string -> Listener.

(** With a listener for [error] that returns, [validateDecision] returns
    whatever happens in its [try] block, and an exception there becomes a
    denial with escalation_required = true. *)
Lemma validateDecision_catches now rnd (d : Decision) (s : State) :
  listener "error" = ListenerReturns ->
  (exists r s', validateDecision numToString listener now rnd d s = Return r s')
  /\ (forall e s1,
         validateDecision_body numToString listener now rnd d s = Raise e s1 ->
         exists s',
           validateDecision numToString listener now rnd d s
           = Return (createValidationResult s1 false
                       (Some "Validation error occurred") (Some true)) s').
Proof.
  intros Hl.
  assert (Hcatch : forall e s1,
             validateDecision_catch listener e s1
             = Return (createValidationResult s1 false
                         (Some "Validation error occurred") (Some true))
                 (set_emitted (emitted s1 ++ ["error"]) s1)).
  { intros e s1. unfold validateDecision_catch, mbind, M_bind, emit.
    rewrite Hl. reflexivity. }
  unfold validateDecision, try_catch. split.
  - destruct (validateDecision_body _ _ _ _ _ s) as [r s'|e s1].
    + eauto.
    + rewrite Hcatch. eauto.
  - intros e s1 ->. rewrite Hcatch. eauto.
Qed.

End Exceptions.

(** C9 fails on the code: the listener of [guardrail_violation] throws
    while "Buy SPAM now" is validated, no listener is registered for
    [error], and [validateDecision] throws instead of returning a denial. *)
Lemma validateDecision_throws_without_error_listener :
  exists s',
    validateDecision sample_numToString throwing_violation_listener 1000 "r"
      (sample_decision CONTENT_CREATION "Buy SPAM now" (Some "twitter") None None)
      (newController AUTONOMOUS sample_limits)
    = Raise UnhandledErrorEvent s'.
Proof. eexists. vm_compute. reflexivity. Qed.

(** ** The specification's scenarios, run on the code *)

(** Level SemiAutonomous, a payment of 150: denied by the type gate, before
    any spending limit is looked at. *)
Lemma scenario_payment_below_autonomous :
  returned
    (validateDecision sample_numToString no_listeners 1000 "r"
       (sample_decision FINANCIAL_TRANSACTION "pay" None (Some "SEI") (Some 150%Q))
       (newController SEMI_AUTONOMOUS sample_limits))
  = Some {| approved := false;
            reason := Some "Decision type not allowed at current autonomy level";
            escalation_required := Some true;
            result_timeout := Some 300%Q |}.
Proof. vm_compute. reflexivity. Qed.

(** A SpendingThreshold trigger at 50 that reduces the autonomy, a decision
    that costs 60 at level Autonomous: denied, the level becomes
    SemiAutonomous and one escalation is counted. *)
Lemma scenario_reduce_autonomy :
  let run :=
    validateDecision sample_numToString no_listeners 1000 "r"
      (sample_decision SERVICE_OFFERING "offer" None None (Some 60%Q))
      state_with_reduce_trigger in
  approved <$> returned run = Some false
  /\ level (config (final_state run)) = SEMI_AUTONOMOUS
  /\ escalations (metrics (final_state run)) = 1.
Proof. vm_compute. repeat split; reflexivity. Qed.

(** A request that nobody answers: its callback marks it timeout, and a
    response that arrives afterwards is refused. *)
Lemma scenario_response_after_timeout :
  status <$> requests state_approval_timed_out !! 0%nat = Some Timeout
  /\ processApprovalResponse no_listeners 400000 (approvalIdOf 1000 "r") true
       "owner" None state_approval_timed_out
     = Raise InvalidApprovalRequest state_approval_timed_out.
Proof.
  split; [vm_compute; reflexivity|].
  apply processApprovalResponse_rejects.
  intros loc r Hloc Hr. vm_compute in Hloc. injection Hloc as <-.
  vm_compute in Hr. injection Hr as <-. discriminate.
Qed.

(** * Further properties of the controller *)

(** ** What an approval means *)

Section ApprovalSoundness.
Variable numToString : Q -> string.
Variable listener : string -> Listener.

Lemma when_applies_reader_approved (applies : bool) (f : State -> ValidationResult)
    rest (s s' : State) (r : ValidationResult) :
  when_applies applies (s0 ← get; mret (f s0)) rest s = Return r s' ->
  approved r = true ->
  (applies = true -> approved (f s) = true) /\ rest s = Return r s'.
Proof.
  unfold when_applies. destruct applies.
  - rewrite unless_denied_reader. destruct (approved (f s)) eqn:Hf.
    + intros Hrest _. split; [reflexivity | exact Hrest].
    + intros [= <- _] Hr. congruence.
  - intros Hrest _. split; [discriminate | exact Hrest].
Qed.

(** A content check that approves has found nothing and recorded nothing. *)
Lemma validateContent_loop_approved now (d : Decision) (text : string)
    (forbiddenTypes : list string) (s s' : State) (r : ValidationResult) :
  validateContent_loop listener now d text forbiddenTypes s = Return r s' ->
  approved r = true ->
  s' = s
  /\ Forall (fun forbidden => includes text (toLowerCase forbidden) = false)
       forbiddenTypes.
Proof.
  induction forbiddenTypes as [|f fs IH]; simpl.
  - intros [= _ <-] _. split; [reflexivity | constructor].
  - destruct (includes text (toLowerCase f)) eqn:Hf.
    + unfold mbind, M_bind, get, mret, M_ret.
      destruct (recordViolation listener _ s); [|discriminate].
      intros [= <- _] Hr. discriminate Hr.
    + intros Hrun Hr. destruct (IH Hrun Hr) as [-> Hfs].
      split; [reflexivity | constructor; assumption].
Qed.

Lemma checkEscalationTriggers_clear now rnd (d : Decision) (s : State) :
  Forall (fun t => evaluateTrigger t d = false) (escalation_triggers (config s)) ->
  checkEscalationTriggers listener now rnd d s
  = Return (createValidationResult s true None None) s.
Proof.
  intros Hnone. unfold checkEscalationTriggers, mbind at 1, M_bind, get.
  rewrite checkEscalationTriggers_loop_none by exact Hnone. reflexivity.
Qed.

Lemma checkEscalationTriggers_fired now rnd (d : Decision) (s s' : State)
    (r : ValidationResult) :
  Exists (fun t => evaluateTrigger t d = true) (escalation_triggers (config s)) ->
  checkEscalationTriggers listener now rnd d s = Return r s' ->
  approved r = false /\ escalation_required r = Some true.
Proof.
  intros Hex Hrun.
  pose proof (checkEscalationTriggers_loop_denies listener now rnd d _ Hex s I) as H.
  unfold checkEscalationTriggers, mbind at 1, M_bind, get in Hrun.
  rewrite Hrun in H. exact H.
Qed.

Lemma triggers_match_or_not (d : Decision) (triggers : list EscalationTrigger) :
  Forall (fun t => evaluateTrigger t d = false) triggers
  \/ Exists (fun t => evaluateTrigger t d = true) triggers.
Proof.
  induction triggers as [|t ts [IH|IH]].
  - left. constructor.
  - destruct (evaluateTrigger t d) eqn:Ht.
    + right. apply Exists_cons_hd, Ht.
    + left. constructor; assumption.
  - right. apply Exists_cons_tl, IH.
Qed.

(** The way through [validateDecision] that ends in an approval. *)
Lemma validateDecision_approved_inv now rnd (d : Decision) (s s' : State)
    (r : ValidationResult) :
  validateDecision numToString listener now rnd d s = Return r s' ->
  approved r = true ->
  isDecisionTypeAllowed s (decision_type d) = true
  /\ (decision_type d = FINANCIAL_TRANSACTION ->
      truthy_num (estimated_cost d) = true ->
      approved (validateSpending numToString s d) = true)
  /\ (decision_type d = PLATFORM_INTERACTION ->
      approved (validateInteractionLimits now s d) = true)
  /\ (decision_type d = CONTENT_CREATION ->
      Forall (fun forbidden =>
                includes (toLowerCase (description d)) (toLowerCase forbidden) = false)
        (forbidden_content_types (interaction_rules (config s))))
  /\ approved (validateRiskLevel s d) = true
  /\ Forall (fun t => evaluateTrigger t d = false) (escalation_triggers (config s))
  /\ recordApprovedDecision listener now d (submitted d s) = Return tt s'
  /\ r = createValidationResult s true
           (Some "Decision approved within autonomy parameters") None.
Proof.
  intros Hrun Hr. unfold validateDecision, try_catch in Hrun.
  destruct (validateDecision_body numToString listener now rnd d s)
    as [r0 s0|e s0] eqn:Hbody.
  2:{ unfold validateDecision_catch, mbind, M_bind, get, mret, M_ret in Hrun.
      destruct (emit listener "error" s0); [|discriminate].
      injection Hrun as <- _. discriminate Hr. }
  injection Hrun as -> ->.
  unfold validateDecision_body, mbind at 1 2, M_bind, modify, get in Hbody.
  change (isDecisionTypeAllowed (submitted d s) (decision_type d))
    with (isDecisionTypeAllowed s (decision_type d)) in Hbody.
  destruct (isDecisionTypeAllowed s (decision_type d)) eqn:Hallowed; simpl in Hbody.
  2:{ injection Hbody as <- _. discriminate Hr. }
  split; [reflexivity|].
  unfold validateDecision_checks in Hbody.
  apply when_applies_reader_approved in Hbody as [Hspend Hbody]; [|exact Hr].
  apply when_applies_reader_approved in Hbody as [Hinter Hbody]; [|exact Hr].
  split.
  { intros Hty Hcost. apply Hspend. rewrite Hcost, bool_decide_eq_true_2 by exact Hty.
    reflexivity. }
  split.
  { intros Hty. apply Hinter, bool_decide_eq_true_2, Hty. }
  assert (Hcontent :
    (decision_type d = CONTENT_CREATION ->
     Forall (fun forbidden =>
               includes (toLowerCase (description d)) (toLowerCase forbidden) = false)
       (forbidden_content_types (interaction_rules (config s))))
    /\ unless_denied (s0 ← get; mret (validateRiskLevel s0 d))
         (escalationCheck ← checkEscalationTriggers listener now rnd d;
          if bool_decide (escalation_required escalationCheck = Some true) then
            mret escalationCheck
          else
            recordApprovedDecision listener now d ;;
            s0 ← get;
            mret (createValidationResult s0 true
                    (Some "Decision approved within autonomy parameters") None))
         (submitted d s)
       = Return r s').
  { unfold when_applies in Hbody.
    destruct (bool_decide (decision_type d = CONTENT_CREATION)) eqn:Hty.
    - unfold unless_denied at 1, mbind at 1, M_bind in Hbody.
      destruct (validateContent listener now d (submitted d s)) as [rc sc|] eqn:Hc;
        [|discriminate].
      destruct (approved rc) eqn:Hrc.
      + unfold validateContent, mbind at 1, M_bind, get in Hc.
        apply validateContent_loop_approved in Hc as [-> Hnone]; [|exact Hrc].
        split; [intros _; exact Hnone | exact Hbody].
      + injection Hbody as <- _. congruence.
    - split; [|exact Hbody].
      intros Hty'. apply bool_decide_eq_false_1 in Hty. contradiction. }
  destruct Hcontent as [Hcontent Hrest]. split; [exact Hcontent|].
  rewrite unless_denied_reader in Hrest.
  change (validateRiskLevel (submitted d s) d) with (validateRiskLevel s d) in Hrest.
  destruct (approved (validateRiskLevel s d)) eqn:Hrisk.
  2:{ injection Hrest as <- _. congruence. }
  split; [reflexivity|].
  unfold mbind at 1, M_bind in Hrest.
  destruct (triggers_match_or_not d (escalation_triggers (config s))) as [Hnone|Hex].
  - split; [exact Hnone|].
    rewrite checkEscalationTriggers_clear in Hrest by exact Hnone.
    cbn [escalation_required createValidationResult] in Hrest.
    rewrite bool_decide_eq_false_2 in Hrest by discriminate.
    unfold mbind, M_bind, get, mret, M_ret in Hrest.
    destruct (recordApprovedDecision listener now d (submitted d s)) as [[] s2|] eqn:Hrec;
      [|discriminate].
    injection Hrest as <- <-.
    split; reflexivity.
  - destruct (checkEscalationTriggers listener now rnd d (submitted d s))
      as [re se|] eqn:Hesc; [|discriminate].
    apply checkEscalationTriggers_fired in Hesc as [Hden Hesc]; [|exact Hex].
    rewrite bool_decide_eq_true_2 in Hrest by exact Hesc.
    injection Hrest as <- _. congruence.
Qed.

End ApprovalSoundness.

Section ApprovalMeaning.
Variable numToString : Q -> string.
Variable listener : string -> Listener.


Lemma validateSpending_approved (d : Decision) (s : State) :
  approved (validateSpending numToString s d) = true ->
  let cost := num_or_zero (estimated_cost d) in
  let limits := spending_limits (config s) in
  let spent :=
    default 0%Q (currentSpending s !! str_or (currency (context d)) "SEI") in
  (cost <= perTransactionLimit limits)%Q
  /\ (spent + cost <= dailyLimit limits)%Q
  /\ (cost <= approvalRequiredAbove limits)%Q.
Proof.
  unfold validateSpending. cbv zeta.
  destruct (Qgtb _ (perTransactionLimit _)) eqn:H1; [discriminate|].
  destruct (Qgtb _ (dailyLimit _)) eqn:H2; [discriminate|].
  destruct (Qgtb _ (approvalRequiredAbove _)) eqn:H3; [discriminate|].
  intros _. apply Qgtb_false in H1, H2, H3.
  repeat split; apply Qnot_lt_le; assumption.
Qed.


(** X3: an approved interaction is within the hourly limit.  When
    [validateDecision] approves a PlatformInteraction decision that names a
    platform, the count of the platform's bucket for the current hour was
    below [max_posts_per_hour], and the approval has raised it by one. *)
Theorem approved_interaction_within_limit now rnd (d : Decision) (s s' : State)
    (r : ValidationResult) (plat : string) :
  validateDecision numToString listener now rnd d s = Return r s' ->
  approved r = true ->
  decision_type d = PLATFORM_INTERACTION ->
  platform (context d) = Some plat -> plat <> "" ->
  let count := default 0 (interactionCounts s !! hourlyKey plat now) in
  (inject_Z count < max_posts_per_hour (interaction_rules (config s)))%Q
  /\ interactionCounts s'
     = <[hourlyKey plat now := count + 1]> (interactionCounts s).
Proof.
  intros Hrun Hr Hty Hplat Hne count.
  destruct (validateDecision_approved_inv numToString listener now rnd d s s' r Hrun Hr)
    as (_ & _ & Hinter & _ & _ & _ & Hrec & _).
  specialize (Hinter Hty).
  assert (Hstr : str_or (platform (context d)) "default" = plat).
  { rewrite Hplat. destruct plat; [contradiction | reflexivity]. }
  split.
  - unfold validateInteractionLimits in Hinter. rewrite Hstr in Hinter.
    fold count in Hinter.
    destruct (Qgeb (inject_Z count) _) eqn:Hge; [discriminate|].
    unfold Qgeb in Hge. apply Qnot_le_lt. intros Hle.
    apply Qle_bool_iff in Hle. congruence.
  - pose proof (f_equal final_state Hrec) as Hfin. simpl in Hfin. rewrite <- Hfin.
    rewrite recordApprovedDecision_interactionCounts, Hplat.
    rewrite bool_decide_eq_true_2 by exact Hty.
    destruct plat; [contradiction|]. reflexivity.
Qed.

End ApprovalMeaning.



(** An approved like on twitter raises the bucket of the hour from 0 to 1. *)
Lemma approved_interaction_within_limit_sample :
  exists r s',
    validateDecision sample_numToString no_listeners 1000 "r" sample_like
      (newController AUTONOMOUS sample_limits) = Return r s'
    /\ interactionCounts s' !! hourlyKey "twitter" 1000 = Some (0 + 1).
Proof.
  assert (Hrun : exists r s',
             validateDecision sample_numToString no_listeners 1000 "r" sample_like
               (newController AUTONOMOUS sample_limits) = Return r s'
             /\ approved r = true).
  { vm_compute. eexists _, _. split; reflexivity. }
  destruct Hrun as (r & s' & Hrun & Hr).
  destruct (approved_interaction_within_limit sample_numToString no_listeners 1000 "r"
              sample_like _ s' r "twitter" Hrun Hr eq_refl eq_refl)
    as (_ & Hcount); [easy|].
  exists r, s'. split; [exact Hrun|].
  rewrite Hcount. apply lookup_insert_eq.
Defined.

(** ** The hourly interaction limit *)

Section InteractionLimit.
Variable numToString : Q -> string.
Variable listener : string -> Listener.

Lemma validateInteractionLimits_denied now (d : Decision) (s : State) :
  (max_posts_per_hour (interaction_rules (config s))
   <= inject_Z (default 0%Z (interactionCounts s
                             !! hourlyKey (str_or (platform (context d)) "default") now)))%Q ->
  validateInteractionLimits now s d
  = createValidationResult s false (Some "Hourly interaction limit exceeded") (Some false).
Proof.
  intros Hle. unfold validateInteractionLimits, Qgeb.
  apply Qle_bool_iff in Hle. rewrite Hle. reflexivity.
Qed.

(** X4: a PlatformInteraction decision whose platform (or [default] when none
    is given) has used up [max_posts_per_hour] in the current hour is denied
    by [validateDecision] at every level but Restricted, with the reason of
    the hourly limit, with escalation_required = false and no timeout; the
    decision is recorded in the history, and nothing else changes (no count
    is raised, no trigger is evaluated, whatever the decision's risk). *)
Theorem interaction_limit_denial now rnd (d : Decision) (s : State) :
  decision_type d = PLATFORM_INTERACTION ->
  level (config s) <> RESTRICTED ->
  (max_posts_per_hour (interaction_rules (config s))
   <= inject_Z (default 0%Z (interactionCounts s
                             !! hourlyKey (str_or (platform (context d)) "default") now)))%Q ->
  validateDecision numToString listener now rnd d s
  = Return {| approved := false;
              reason := Some "Hourly interaction limit exceeded";
              escalation_required := Some false;
              result_timeout := None |}
      (submitted d s).
Proof.
  intros Hty Hlvl Hfull.
  rewrite validateDecision_type_allowed.
  2:{ unfold isDecisionTypeAllowed. rewrite Hty.
      destruct (level (config s)); try reflexivity. contradiction. }
  unfold try_catch.
  rewrite validateDecision_spending_skipped
    by (rewrite Hty; reflexivity).
  rewrite bool_decide_eq_true_2 by exact Hty.
  unfold when_applies at 1. rewrite unless_denied_reader.
  change (validateInteractionLimits now (submitted d s) d)
    with (validateInteractionLimits now s d).
  rewrite validateInteractionLimits_denied by exact Hfull.
  reflexivity.
Qed.

End InteractionLimit.

(** After twenty likes within the hour, the twenty-first is denied. *)
Lemma interaction_limit_denial_sample :
  validateDecision sample_numToString no_listeners 1000 "r" sample_like
    (state_after_likes 20)
  = Return {| approved := false;
              reason := Some "Hourly interaction limit exceeded";
              escalation_required := Some false;
              result_timeout := None |}
      (submitted sample_like (state_after_likes 20)).
Proof.
  apply (interaction_limit_denial sample_numToString no_listeners 1000 "r"
           sample_like (state_after_likes 20)).
  - reflexivity.
  - vm_compute. discriminate.
  - vm_compute. discriminate.
Defined.

(** ** The ladder of levels *)

Section Ceiling.
Variable numToString : Q -> string.
Variable listener : string -> Listener.

Lemma validateRiskLevel_rank (s : State) (d : Decision) :
  approved (validateRiskLevel s d) = true
  <-> risk_rank (risk_level d) <= rung (level (config s)).
Proof.
  unfold validateRiskLevel.
  destruct (level (config s)), (risk_level d); cbn; split; intros H;
    first [ reflexivity | discriminate | lia ].
Qed.

Lemma validateRiskLevel_denial (s : State) (d : Decision) :
  approved (validateRiskLevel s d) = false ->
  escalation_required (validateRiskLevel s d) = Some true
  /\ result_timeout (validateRiskLevel s d) = Some (approval_timeout (config s)).
Proof.
  unfold validateRiskLevel.
  destruct (level (config s)), (risk_level d); cbn; intros H;
    first [ discriminate | split; reflexivity ].
Qed.

(** X5: the risk check accepts a decision exactly when its risk is not above
    the level's ceiling (Restricted: low, Supervised: medium,
    SemiAutonomous: high, Autonomous: critical); a decision that
    [validateDecision] approves is within the ceiling; and a decision above
    it, of an allowed type that has no check of its own (not financial, not
    a platform interaction, not content), is denied with
    escalation_required = true and only recorded in the history. *)
Theorem risk_ceiling_by_level now rnd (d : Decision) (s : State) :
  (approved (validateRiskLevel s d) = true
   <-> risk_rank (risk_level d) <= rung (level (config s)))
  /\ (forall r s',
         validateDecision numToString listener now rnd d s = Return r s' ->
         approved r = true ->
         risk_rank (risk_level d) <= rung (level (config s)))
  /\ (rung (level (config s)) < risk_rank (risk_level d) ->
      isDecisionTypeAllowed s (decision_type d) = true ->
      decision_type d <> FINANCIAL_TRANSACTION ->
      decision_type d <> PLATFORM_INTERACTION ->
      decision_type d <> CONTENT_CREATION ->
      exists why,
        validateDecision numToString listener now rnd d s
        = Return {| approved := false; reason := Some why;
                    escalation_required := Some true;
                    result_timeout := Some (approval_timeout (config s)) |}
            (submitted d s)).
Proof.
  split; [apply validateRiskLevel_rank|]. split.
  - intros r s' Hrun Hr. apply validateRiskLevel_rank.
    apply (validateDecision_approved_inv numToString listener now rnd d s s' r Hrun Hr).
  - intros Habove Hallowed Hfin Hint Hcon.
    assert (Hden : approved (validateRiskLevel s d) = false).
    { apply not_true_iff_false. rewrite validateRiskLevel_rank. lia. }
    destruct (validateRiskLevel_denial s d Hden) as [Hesc Htime].
    rewrite validateDecision_type_allowed by exact Hallowed.
    unfold try_catch, validateDecision_checks.
    rewrite !bool_decide_eq_false_2 by assumption.
    unfold when_applies. cbn [andb]. rewrite unless_denied_reader.
    change (validateRiskLevel (submitted d s) d) with (validateRiskLevel s d).
    rewrite Hden.
    destruct (validateRiskLevel s d) as [ok why esc time] eqn:Hres.
    cbn in Hden, Hesc, Htime. subst ok esc time.
    destruct why as [why|].
    + exists why. reflexivity.
    + exfalso. revert Hres. unfold validateRiskLevel.
      destruct (level (config s)), (risk_level d); cbn; discriminate.
Qed.

Lemma isDecisionTypeAllowed_mono (s1 s2 : State) (type : DecisionType) :
  rung (level (config s1)) <= rung (level (config s2)) ->
  isDecisionTypeAllowed s1 type = true -> isDecisionTypeAllowed s2 type = true.
Proof.
  unfold isDecisionTypeAllowed.
  destruct (level (config s1)), (level (config s2)), type; cbn;
    intros Hle H; first [ reflexivity | discriminate | lia ].
Qed.

(** X6: permissions only grow along the ladder Restricted, Supervised,
    SemiAutonomous, Autonomous.  A decision type that the type gate allows
    at a level, and a risk that the risk check accepts at a level, are
    allowed and accepted at every level above it; so the level that
    [getReducedAutonomyLevel] steps down to allows nothing that the current
    level refuses. *)
Theorem permissions_grow_with_level (s1 s2 : State) (d : Decision) :
  rung (level (config s1)) <= rung (level (config s2))
  \/ level (config s1) = getReducedAutonomyLevel s2 ->
  (isDecisionTypeAllowed s1 (decision_type d) = true ->
   isDecisionTypeAllowed s2 (decision_type d) = true)
  /\ (approved (validateRiskLevel s1 d) = true ->
      approved (validateRiskLevel s2 d) = true).
Proof.
  intros H.
  assert (Hle : rung (level (config s1)) <= rung (level (config s2))).
  { destruct H as [H| ->]; [exact H|]. unfold getReducedAutonomyLevel.
    destruct (level (config s2)); cbn; lia. }
  split; [apply isDecisionTypeAllowed_mono, Hle|].
  rewrite !validateRiskLevel_rank. lia.
Qed.

End Ceiling.

(** A critical-risk offering at level SemiAutonomous is denied with an
    escalation. *)
Lemma risk_ceiling_by_level_sample :
  exists why,
    validateDecision sample_numToString no_listeners 1000 "r" sample_critical_offering
      (newController SEMI_AUTONOMOUS sample_limits)
    = Return {| approved := false; reason := Some why;
                escalation_required := Some true;
                result_timeout := Some 300%Q |}
        (submitted sample_critical_offering (newController SEMI_AUTONOMOUS sample_limits)).
Proof.
  apply (proj2 (proj2 (risk_ceiling_by_level sample_numToString no_listeners 1000 "r"
                         sample_critical_offering
                         (newController SEMI_AUTONOMOUS sample_limits))));
    first [ reflexivity | discriminate ].
Defined.

(** What Supervised allows, SemiAutonomous allows. *)
Lemma permissions_grow_with_level_sample :
  isDecisionTypeAllowed (newController SEMI_AUTONOMOUS sample_limits) PLATFORM_INTERACTION
  = true.
Proof.
  refine (proj1 (permissions_grow_with_level
                   (newController SUPERVISED sample_limits)
                   (newController SEMI_AUTONOMOUS sample_limits) sample_like _) _).
  - right. reflexivity.
  - reflexivity.
Defined.

(** ** Invariants of the controller *)

(** What is needed for a state property to hold after [validateDecision]:
    that the methods it calls keep it. *)
Section Frame.
Variable numToString : Q -> string.
Variable listener : string -> Listener.
Variable P : State -> Prop.
Hypothesis P_log : ignores_log P.
Hypothesis P_escalation :
  forall s, P s ->
    P (set_metrics (set_escalations (escalations (metrics s) + 1) (metrics s)) s).
Hypothesis P_recordViolation : forall v, preserves P (recordViolation listener v).
Hypothesis P_updateAutonomyLevel :
  forall lvl why, preserves P (updateAutonomyLevel listener lvl why).
Hypothesis P_triggerEmergencyStop :
  forall why, preserves P (triggerEmergencyStop listener why).
Hypothesis P_requestApproval :
  forall now rnd d, preserves P (requestApproval listener now rnd d).
Hypothesis P_recordApprovedDecision :
  forall now d, preserves P (recordApprovedDecision listener now d).

Lemma frame_executeEscalationAction now rnd t d :
  preserves P (executeEscalationAction listener now rnd t d).
Proof.
  unfold executeEscalationAction.
  apply preserves_bind; [apply preserves_modify, P_escalation | intros _].
  destruct (action t).
  - apply P_triggerEmergencyStop.
  - apply preserves_detached, P_requestApproval.
  - apply preserves_emit, P_log.
  - apply preserves_bind; [apply preserves_get | intros ?].
    apply P_updateAutonomyLevel.
  - apply P_recordViolation.
Qed.

Lemma frame_checkEscalationTriggers now rnd d :
  preserves P (checkEscalationTriggers listener now rnd d).
Proof.
  unfold checkEscalationTriggers.
  apply preserves_bind; [apply preserves_get | intros s0].
  induction (escalation_triggers (config s0)) as [|t ts IH]; simpl.
  - preserve.
  - destruct (evaluateTrigger t d); [|exact IH].
    apply preserves_bind; [apply frame_executeEscalationAction | intros _].
    preserve.
Qed.

Lemma frame_validateContent now d :
  preserves P (validateContent listener now d).
Proof.
  unfold validateContent.
  apply preserves_bind; [apply preserves_get | intros s0].
  induction (forbidden_content_types _) as [|f fs IH]; simpl.
  - preserve.
  - destruct (includes _ _); [|exact IH].
    apply preserves_bind; [apply P_recordViolation | intros _].
    preserve.
Qed.

Lemma frame_validateDecision_checks now rnd d :
  preserves P (validateDecision_checks numToString listener now rnd d).
Proof.
  unfold validateDecision_checks, when_applies, unless_denied.
  repeat first
    [ apply frame_validateContent
    | apply frame_checkEscalationTriggers
    | apply P_recordApprovedDecision
    | preserve_step ].
Qed.

Lemma frame_validateDecision now rnd d (s : State) :
  P (submitted d s) ->
  P (final_state (validateDecision numToString listener now rnd d s)).
Proof.
  intros Hs.
  assert (H : preserves P
                (try_catch
                   (s0 ← get;
                    if negb (isDecisionTypeAllowed s0 (decision_type d)) then
                      mret (createValidationResult s0 false
                              (Some "Decision type not allowed at current autonomy level")
                              (Some true))
                    else validateDecision_checks numToString listener now rnd d)
                   (validateDecision_catch listener))).
  { apply preserves_try_catch.
    - apply preserves_bind; [apply preserves_get | intros s0].
      destruct (negb _); [apply preserves_ret | apply frame_validateDecision_checks].
    - intros e. unfold validateDecision_catch.
      apply preserves_bind; [apply preserves_emit, P_log | intros _]. preserve. }
  exact (H (submitted d s) Hs).
Qed.

End Frame.

(** Solves the goals that [preserve] leaves for a property that the update
    at hand does not touch. *)
Ltac untouched :=
  preserve;
  try (intros ? ? ?; assumption);
  try assumption;
  try (match goal with |- context [if ?b then _ else _] => destruct b end; assumption).

(** *** The history of decisions *)

Section History.
Variable numToString : Q -> string.
Variable listener : string -> Listener.

Lemma recordViolation_history h n v :
  preserves (has_history h n) (recordViolation listener v).
Proof. unfold recordViolation. untouched. Qed.

Lemma updateAutonomyLevel_history h n lvl why :
  preserves (has_history h n) (updateAutonomyLevel listener lvl why).
Proof. unfold updateAutonomyLevel. untouched. Qed.

Lemma triggerEmergencyStop_history h n why :
  preserves (has_history h n) (triggerEmergencyStop listener why).
Proof.
  unfold triggerEmergencyStop.
  apply preserves_bind; [apply updateAutonomyLevel_history | intros _].
  unfold write_status. untouched.
Qed.

Lemma requestApproval_history h n now rnd d :
  preserves (has_history h n) (requestApproval listener now rnd d).
Proof. unfold requestApproval. untouched. Qed.

Lemma recordApprovedDecision_history h n now d :
  preserves (has_history h n) (recordApprovedDecision listener now d).
Proof. unfold recordApprovedDecision. untouched. Qed.

Lemma validateDecision_history now rnd d (s : State) :
  has_history (decisionHistory s ++ [d])%list (decisions_made (metrics s) + 1)
    (final_state (validateDecision numToString listener now rnd d s)).
Proof.
  apply frame_validateDecision.
  - intros l s0 Hs0. exact Hs0.
  - intros s0 Hs0. exact Hs0.
  - apply recordViolation_history.
  - apply updateAutonomyLevel_history.
  - apply triggerEmergencyStop_history.
  - apply requestApproval_history.
  - apply recordApprovedDecision_history.
  - split; reflexivity.
Qed.

Lemma other_calls_history h n c :
  (forall now rnd d, c <> CallValidateDecision now rnd d) ->
  forall s, has_history h n s -> has_history h n (run_call numToString listener c s).
Proof.
  intros Hc.
  destruct c; cbv beta iota delta [run_call];
    try match goal with
    | |- forall s, _ -> has_history _ _ (final_state (?m s)) =>
        change (preserves (has_history h n) m)
    end.
  - exfalso. eapply Hc. reflexivity.
  - apply requestApproval_history.
  - unfold processApprovalResponse, updateApprovalRate.
    repeat first [ apply recordApprovedDecision_history | preserve_step ];
      try (intros ? ? ?; assumption); assumption.
  - apply updateAutonomyLevel_history.
  - unfold updateSpendingLimits. untouched.
  - unfold updateInteractionRules. untouched.
  - unfold addEscalationTrigger. untouched.
  - unfold removeEscalationTrigger. untouched.
  - apply triggerEmergencyStop_history.
  - unfold getMetrics. untouched.
  - unfold approvalTimeoutFired, write_status. untouched.
  - unfold resetDailySpending. untouched.
  - unfold pruneInteractionCounts. untouched.
  - unfold sweepExpiredApprovals, write_status. untouched.
Qed.


Lemma run_call_history_counted c (s : State) :
  history_counted s -> history_counted (run_call numToString listener c s).
Proof.
  unfold history_counted. intros Hs.
  assert (Hcases : (exists now rnd d, c = CallValidateDecision now rnd d)
                   \/ (forall now rnd d, c <> CallValidateDecision now rnd d)).
  { destruct c; first [ left; do 3 eexists; reflexivity | right; intros; discriminate ]. }
  destruct Hcases as [(now & rnd & d & ->)|Hc].
  - destruct (validateDecision_history now rnd d s) as [Hh Hn].
    cbn [run_call]. rewrite Hh, Hn, length_app, Hs. simpl. lia.
  - destruct (other_calls_history _ _ c Hc s (conj eq_refl eq_refl)) as [Hh Hn].
    rewrite Hh, Hn. exact Hs.
Qed.

(** X8: in every state the controller can reach, [decisions_made] is the
    length of the decision history: the history is never trimmed, and
    every decision in it was counted once. *)
Theorem decisions_made_counts_history (s : State) :
  reachable numToString listener s ->
  decisions_made (metrics s) = Z.of_nat (length (decisionHistory s)).
Proof.
  induction 1 as [lvl lim | s c _ IH].
  - reflexivity.
  - apply run_call_history_counted, IH.
Qed.

End History.

(** Twenty likes and a payment: 21 decisions counted and kept. *)
Lemma decisions_made_counts_history_sample :
  decisions_made
    (metrics (run_call sample_numToString no_listeners
                (CallValidateDecision 1000 "r" sample_payment) (state_after_likes 20)))
  = 21.
Proof.
  rewrite (decisions_made_counts_history sample_numToString no_listeners).
  - vm_compute. reflexivity.
  - apply reachable_call.
    assert (H : forall n, reachable sample_numToString no_listeners (state_after_likes n)).
    { induction n as [|n IH]; simpl.
      - apply reachable_new.
      - apply (reachable_call _ _ _ (CallValidateDecision 1000 "r" sample_like)), IH. }
    apply H.
Defined.

(** *** The history of violations *)

Section Violations.
Variable numToString : Q -> string.
Variable listener : string -> Listener.
Variable Pv : list GuardrailViolation -> Z -> Prop.
Hypothesis Pv_recordViolation :
  forall v, preserves (on_violations Pv) (recordViolation listener v).

Lemma updateAutonomyLevel_violations lvl why :
  preserves (on_violations Pv) (updateAutonomyLevel listener lvl why).
Proof. unfold updateAutonomyLevel. untouched. Qed.

Lemma triggerEmergencyStop_violations why :
  preserves (on_violations Pv) (triggerEmergencyStop listener why).
Proof.
  unfold triggerEmergencyStop.
  apply preserves_bind; [apply updateAutonomyLevel_violations | intros _].
  unfold write_status. untouched.
Qed.

Lemma requestApproval_violations now rnd d :
  preserves (on_violations Pv) (requestApproval listener now rnd d).
Proof. unfold requestApproval. untouched. Qed.

Lemma recordApprovedDecision_violations now d :
  preserves (on_violations Pv) (recordApprovedDecision listener now d).
Proof. unfold recordApprovedDecision. untouched. Qed.

Lemma run_call_violations c :
  forall s, on_violations Pv s -> on_violations Pv (run_call numToString listener c s).
Proof.
  destruct c; cbv beta iota delta [run_call];
    try match goal with
    | |- forall s, _ -> on_violations _ (final_state (?m s)) =>
        change (preserves (on_violations Pv) m)
    end.
  - intros s Hs. apply frame_validateDecision.
    + intros l s0 Hs0. exact Hs0.
    + intros s0 Hs0. exact Hs0.
    + apply Pv_recordViolation.
    + apply updateAutonomyLevel_violations.
    + apply triggerEmergencyStop_violations.
    + apply requestApproval_violations.
    + apply recordApprovedDecision_violations.
    + exact Hs.
  - apply requestApproval_violations.
  - unfold processApprovalResponse, updateApprovalRate.
    repeat first [ apply recordApprovedDecision_violations | preserve_step ];
      try (intros ? ? ?; assumption); assumption.
  - apply updateAutonomyLevel_violations.
  - unfold updateSpendingLimits. untouched.
  - unfold updateInteractionRules. untouched.
  - unfold addEscalationTrigger. untouched.
  - unfold removeEscalationTrigger. untouched.
  - apply triggerEmergencyStop_violations.
  - unfold getMetrics. untouched.
  - unfold approvalTimeoutFired, write_status. untouched.
  - unfold resetDailySpending. untouched.
  - unfold pruneInteractionCounts. untouched.
  - unfold sweepExpiredApprovals, write_status. untouched.
Qed.

Lemma reachable_violations (s : State) :
  Pv [] 0 -> reachable numToString listener s -> on_violations Pv s.
Proof.
  intros H0. induction 1 as [lvl lim | s c _ IH].
  - exact H0.
  - apply run_call_violations, IH.
Qed.

End Violations.

Section ViolationBounds.
Variable numToString : Q -> string.
Variable listener : string -> Listener.

Lemma recordViolation_final_state v (s : State) :
  let pushed :=
    set_emitted (emitted s ++ ["guardrail_violation"])
      (set_metrics (set_violations (violations (metrics s) + 1) (metrics s))
         (set_violationHistory (violationHistory s ++ [v]) s)) in
  final_state (recordViolation listener v s)
  = match listener "guardrail_violation" with
    | ListenerThrows => pushed
    | _ =>
        if Nat.ltb 1000 (length (violationHistory s ++ [v])) then
          set_violationHistory
            (drop (length (violationHistory s ++ [v]) - 500) (violationHistory s ++ [v]))
            pushed
        else pushed
    end.
Proof.
  unfold recordViolation, mbind, M_bind, modify, emit. cbv beta iota zeta.
  destruct (listener "guardrail_violation"); reflexivity.
Qed.

Lemma recordViolation_counted v :
  preserves (on_violations (fun h n => Z.of_nat (length h) <= n))
    (recordViolation listener v).
Proof.
  intros s Hs. unfold on_violations in *. rewrite recordViolation_final_state.
  cbv zeta.
  destruct (listener "guardrail_violation"); try destruct (Nat.ltb _ _);
    cbn [violationHistory metrics violations set_violationHistory set_emitted
         set_metrics set_violations];
    rewrite ?length_drop, length_app; simpl; lia.
Qed.

Lemma recordViolation_trimmed v :
  listener "guardrail_violation" <> ListenerThrows ->
  preserves (on_violations (fun h _ => (length h <= 1000)%nat))
    (recordViolation listener v).
Proof.
  intros Hl s Hs. unfold on_violations in *. rewrite recordViolation_final_state.
  cbv zeta.
  destruct (listener "guardrail_violation"); [| |contradiction];
    (destruct (Nat.ltb _ _) eqn:Hlen;
     cbn [violationHistory metrics violations set_violationHistory set_emitted
          set_metrics set_violations];
     [ rewrite length_drop, length_app; simpl; lia
     | apply Nat.ltb_ge in Hlen; exact Hlen ]).
Qed.

(** X9: in every state the controller can reach, the counter [violations]
    is at least the length of the violation history, and, when no listener
    of [guardrail_violation] throws, the history holds at most 1000
    entries.  (The history is cut back to its last 500 entries after the
    event is emitted, so a throwing listener skips the cut.) *)
Theorem violation_history_bounded (s : State) :
  reachable numToString listener s ->
  Z.of_nat (length (violationHistory s)) <= violations (metrics s)
  /\ (listener "guardrail_violation" <> ListenerThrows ->
      (length (violationHistory s) <= 1000)%nat).
Proof.
  intros Hs. split.
  - apply (reachable_violations numToString listener
             (fun h n => Z.of_nat (length h) <= n) recordViolation_counted s);
      [simpl; lia | exact Hs].
  - intros Hl.
    apply (reachable_violations numToString listener
             (fun h _ => (length h <= 1000)%nat)
             (fun v => recordViolation_trimmed v Hl) s);
      [simpl; lia | exact Hs].
Qed.

End ViolationBounds.

(** After a post with forbidden content: one violation kept, one counted. *)
Lemma violation_history_bounded_sample :
  let s := run_call sample_numToString no_listeners
             (CallValidateDecision 1000 "r"
                (sample_decision CONTENT_CREATION "this is spam" None None None))
             (newController AUTONOMOUS sample_limits) in
  length (violationHistory s) = 1%nat
  /\ Z.of_nat (length (violationHistory s)) <= violations (metrics s)
  /\ (length (violationHistory s) <= 1000)%nat.
Proof.
  cbv zeta. split; [vm_compute; reflexivity|].
  destruct (violation_history_bounded sample_numToString no_listeners
              (run_call sample_numToString no_listeners
                 (CallValidateDecision 1000 "r"
                    (sample_decision CONTENT_CREATION "this is spam" None None None))
                 (newController AUTONOMOUS sample_limits)))
    as [Hcount Htrim].
  - apply reachable_call, reachable_new.
  - split; [exact Hcount|]. apply Htrim. discriminate.
Defined.

(** *** The approval rate *)

Section ApprovalRate.
Variable numToString : Q -> string.
Variable listener : string -> Listener.

Lemma jsmap_set_length {V} (k : string) (v : V) (m : list (string * V)) :
  (length (jsmap_set k v m) <= S (length m))%nat.
Proof.
  induction m as [|[k' v'] m IH]; simpl; [lia|].
  destruct (String.eqb k k'); simpl; lia.
Qed.

Lemma jsmap_delete_length {V} (k : string) (m : list (string * V)) :
  (length (jsmap_delete k m) <= length m)%nat.
Proof.
  induction m as [|[k' v'] m IH]; simpl; [lia|].
  destruct (String.eqb k k'); simpl; lia.
Qed.

Lemma jsmap_get_nonempty {V} (k : string) (v : V) (m : list (string * V)) :
  jsmap_get k m = Some v -> (1 <= length m)%nat.
Proof. destruct m; simpl; [discriminate | lia]. Qed.

Lemma running_rate_in_range (r T : Q) (b : bool) :
  (0 <= r <= 1)%Q -> (1 <= T)%Q ->
  (0 <= (r * (T - 1) + (if b then 1 else 0)) / T <= 1)%Q.
Proof.
  intros [H0 H1] HT.
  assert (HTpos : (0 < T)%Q) by lra.
  assert (Hb : (0 <= (if b then 1 else 0) <= 1)%Q) by (destruct b; lra).
  split.
  - apply Qle_shift_div_l; [exact HTpos|]. nra.
  - apply Qle_shift_div_r; [exact HTpos|]. nra.
Qed.

Lemma approval_rate_in_range_ignores_log : ignores_log approval_rate_in_range.
Proof. intros l s Hs. exact Hs. Qed.

Lemma approval_rate_in_range_delete k (s : State) :
  approval_rate_in_range s ->
  approval_rate_in_range (set_pendingApprovals (jsmap_delete k (pendingApprovals s)) s).
Proof.
  intros [Hr Hn]. split; [exact Hr|]. cbn.
  pose proof (jsmap_delete_length k (pendingApprovals s)). lia.
Qed.

Lemma recordViolation_rate v :
  preserves approval_rate_in_range (recordViolation listener v).
Proof. unfold recordViolation. untouched. Qed.

Lemma updateAutonomyLevel_rate lvl why :
  preserves approval_rate_in_range (updateAutonomyLevel listener lvl why).
Proof. unfold updateAutonomyLevel. untouched. Qed.

Lemma triggerEmergencyStop_rate why :
  preserves approval_rate_in_range (triggerEmergencyStop listener why).
Proof.
  unfold triggerEmergencyStop.
  apply preserves_bind; [apply updateAutonomyLevel_rate | intros _].
  unfold write_status. untouched.
  match goal with H : approval_rate_in_range _ |- _ => destruct H as [Hr Hn] end.
  split; [exact Hr|]. cbn. lia.
Qed.

Lemma requestApproval_rate now rnd d :
  preserves approval_rate_in_range (requestApproval listener now rnd d).
Proof.
  intros s [Hr Hn].
  assert (Hfinal :
    final_state (requestApproval listener now rnd d s)
    = set_emitted (emitted s ++ ["approval_requested"])
        (set_metrics
           (set_approvals_requested (approvals_requested (metrics s) + 1) (metrics s))
           (set_pendingApprovals
              (jsmap_set (approvalIdOf now rnd) (length (requests s)) (pendingApprovals s))
              (set_requests
                 (requests s
                  ++ [{| request_id := approvalIdOf now rnd; request_decision := d;
                         requested_at := now;
                         timeout_at :=
                           (inject_Z now + approval_timeout (config s) * 1000)%Q;
                         status := Pending; approver := None;
                         response_time := None; notes := None |}]) s)))).
  { unfold requestApproval, mbind, M_bind, get, modify, emit. cbv beta iota zeta.
    destruct (listener "approval_requested"); reflexivity. }
  rewrite Hfinal. split; [exact Hr|]. cbn.
  pose proof (jsmap_set_length (approvalIdOf now rnd) (length (requests s))
                (pendingApprovals s)).
  lia.
Qed.

Lemma recordApprovedDecision_rate now d :
  preserves approval_rate_in_range (recordApprovedDecision listener now d).
Proof. unfold recordApprovedDecision. untouched. Qed.

Lemma recordApprovedDecision_rate_counted now d :
  preserves approval_rate_in_range_counted (recordApprovedDecision listener now d).
Proof. unfold recordApprovedDecision. untouched. Qed.

Lemma updateApprovalRate_rate_counted ok :
  preserves approval_rate_in_range_counted (updateApprovalRate ok).
Proof.
  unfold updateApprovalRate. apply preserves_modify.
  intros s [[Hr Hn] H1]. split; [split|]; cbn; [|exact Hn|exact H1].
  apply running_rate_in_range; [exact Hr|].
  change 1%Q with (inject_Z 1). rewrite <- Zle_Qle. exact H1.
Qed.

Lemma processApprovalResponse_rate now id ok who note :
  preserves approval_rate_in_range (processApprovalResponse listener now id ok who note).
Proof.
  intros s Hs. unfold processApprovalResponse, mbind at 1, M_bind, get.
  destruct (jsmap_get id (pendingApprovals s)) as [loc|] eqn:Hid; [|exact Hs].
  destruct (requests s !! loc) as [r|]; [|exact Hs].
  destruct (negb _); [exact Hs|].
  assert (Hcounted : approval_rate_in_range_counted s).
  { split; [exact Hs|]. destruct Hs as [_ Hn].
    apply jsmap_get_nonempty in Hid. lia. }
  match goal with
  | |- approval_rate_in_range (final_state (?m s)) =>
      cut (preserves approval_rate_in_range_counted m);
        [intros Hm; apply (Hm s Hcounted)|]
  end.
  repeat first
    [ apply recordApprovedDecision_rate_counted
    | apply updateApprovalRate_rate_counted
    | preserve_step ];
    try (intros ? ? ?; assumption); try assumption.
  match goal with H : approval_rate_in_range_counted _ |- _ => destruct H as [H H1] end.
  split; [|exact H1]. apply approval_rate_in_range_delete, H.
Qed.

Lemma sweepExpiredApprovals_rate now :
  preserves approval_rate_in_range (sweepExpiredApprovals listener now).
Proof.
  unfold sweepExpiredApprovals, write_status. untouched.
  apply approval_rate_in_range_delete. assumption.
Qed.

Lemma run_call_rate c :
  forall s, approval_rate_in_range s ->
            approval_rate_in_range (run_call numToString listener c s).
Proof.
  destruct c; cbv beta iota delta [run_call];
    try match goal with
    | |- forall s, _ -> approval_rate_in_range (final_state (?m s)) =>
        change (preserves approval_rate_in_range m)
    end.
  - intros s Hs. apply frame_validateDecision.
    + apply approval_rate_in_range_ignores_log.
    + intros s0 Hs0. exact Hs0.
    + apply recordViolation_rate.
    + apply updateAutonomyLevel_rate.
    + apply triggerEmergencyStop_rate.
    + apply requestApproval_rate.
    + apply recordApprovedDecision_rate.
    + exact Hs.
  - apply requestApproval_rate.
  - apply processApprovalResponse_rate.
  - apply updateAutonomyLevel_rate.
  - unfold updateSpendingLimits. untouched.
  - unfold updateInteractionRules. untouched.
  - unfold addEscalationTrigger. untouched.
  - unfold removeEscalationTrigger. untouched.
  - apply triggerEmergencyStop_rate.
  - unfold getMetrics. untouched.
  - unfold approvalTimeoutFired, write_status. untouched.
  - unfold resetDailySpending. untouched.
  - unfold pruneInteractionCounts. untouched.
  - apply sweepExpiredApprovals_rate.
Qed.

(** X10: in every state the controller can reach, [approval_rate] lies in
    [0,1] and the number of requests in the map of pending approvals is at
    most [approvals_requested]; so [updateApprovalRate], which divides by
    [approvals_requested], is only ever run when that counter is at least
    one. *)
Theorem approval_rate_is_a_fraction (s : State) :
  reachable numToString listener s ->
  (0 <= approval_rate (metrics s) <= 1)%Q
  /\ Z.of_nat (length (pendingApprovals s)) <= approvals_requested (metrics s).
Proof.
  induction 1 as [lvl lim | s c _ IH].
  - split; cbn; [lra | lia].
  - apply run_call_rate, IH.
Qed.

End ApprovalRate.

(** One request, approved: the rate is 1. *)
Lemma approval_rate_is_a_fraction_sample :
  (approval_rate (metrics state_approval_granted) == 1)%Q
  /\ (0 <= approval_rate (metrics state_approval_granted) <= 1)%Q.
Proof.
  split; [vm_compute; reflexivity|].
  apply (approval_rate_is_a_fraction sample_numToString no_listeners).
  apply (reachable_call _ _ _
           (CallProcessApprovalResponse 2000 (approvalIdOf 1000 "r") true "owner" None)).
  apply (reachable_call _ _ _
           (CallRequestApproval 1000 "r"
              (sample_decision CONTENT_CREATION "post" (Some "twitter") None None))).
  apply reachable_new.
Defined.

(** ** Changes of level *)

Section LevelChange.
Variable listener : string -> Listener.

Lemma updateAutonomyLevel_config lvl why (s : State) :
  config (final_state (updateAutonomyLevel listener lvl why s))
  = adjustLimitsForLevel lvl (set_level lvl (config s)).
Proof.
  unfold updateAutonomyLevel, mbind, M_bind, modify, emit.
  destruct (listener _); reflexivity.
Qed.

Lemma adjustLimitsForLevel_dailyLimit lvl c :
  (dailyLimit (spending_limits (adjustLimitsForLevel lvl c))
   <= dailyLimit (spending_limits c))%Q
  /\ (lvl = RESTRICTED ->
      (dailyLimit (spending_limits (adjustLimitsForLevel lvl c)) <= 10)%Q)
  /\ (lvl = SUPERVISED ->
      (dailyLimit (spending_limits (adjustLimitsForLevel lvl c)) <= 100)%Q).
Proof.
  destruct lvl; cbn; repeat split; intros;
    first [ discriminate | apply Q.le_min_r | apply Q.le_min_l | apply Qle_refl ].
Qed.

Lemma adjustLimitsForLevel_max_posts lvl c :
  (max_posts_per_hour (interaction_rules (adjustLimitsForLevel lvl c))
   <= max_posts_per_hour (interaction_rules c))%Q
  /\ (lvl = RESTRICTED ->
      (max_posts_per_hour (interaction_rules (adjustLimitsForLevel lvl c)) <= 2)%Q)
  /\ (lvl = SUPERVISED ->
      (max_posts_per_hour (interaction_rules (adjustLimitsForLevel lvl c)) <= 10)%Q).
Proof.
  destruct lvl; cbn; repeat split; intros;
    first [ discriminate | apply Q.le_min_r | apply Q.le_min_l | apply Qle_refl ].
Qed.

(** X11: [updateAutonomyLevel] sets the level and never raises a limit.
    Whatever the listeners do, the daily spending limit and the hourly post
    limit after the call are at most what they were; moving to Restricted
    caps them at 10 and 2, moving to Supervised at 100 and 10; moving to
    SemiAutonomous or Autonomous leaves the spending limits and interaction
    rules as they are; the per-transaction limit, the approval threshold
    and the triggers are never changed. *)
Theorem level_change_never_raises_limits lvl why (s : State) :
  let c := config s in
  let c' := config (final_state (updateAutonomyLevel listener lvl why s)) in
  level c' = lvl
  /\ (dailyLimit (spending_limits c') <= dailyLimit (spending_limits c))%Q
  /\ (max_posts_per_hour (interaction_rules c')
      <= max_posts_per_hour (interaction_rules c))%Q
  /\ (lvl = RESTRICTED ->
      (dailyLimit (spending_limits c') <= 10)%Q
      /\ (max_posts_per_hour (interaction_rules c') <= 2)%Q)
  /\ (lvl = SUPERVISED ->
      (dailyLimit (spending_limits c') <= 100)%Q
      /\ (max_posts_per_hour (interaction_rules c') <= 10)%Q)
  /\ (lvl = SEMI_AUTONOMOUS \/ lvl = AUTONOMOUS ->
      spending_limits c' = spending_limits c
      /\ interaction_rules c' = interaction_rules c)
  /\ perTransactionLimit (spending_limits c') = perTransactionLimit (spending_limits c)
  /\ approvalRequiredAbove (spending_limits c')
     = approvalRequiredAbove (spending_limits c)
  /\ escalation_triggers c' = escalation_triggers c.
Proof.
  cbv zeta. rewrite updateAutonomyLevel_config.
  destruct (adjustLimitsForLevel_dailyLimit lvl (set_level lvl (config s)))
    as (Hd & Hd0 & Hd1).
  destruct (adjustLimitsForLevel_max_posts lvl (set_level lvl (config s)))
    as (Hp & Hp0 & Hp1).
  split; [rewrite adjustLimitsForLevel_level; reflexivity|].
  split; [exact Hd|]. split; [exact Hp|].
  split; [intros H; split; [apply Hd0, H | apply Hp0, H]|].
  split; [intros H; split; [apply Hd1, H | apply Hp1, H]|].
  split; [intros [-> | ->]; split; reflexivity|].
  destruct lvl; repeat split; reflexivity.
Qed.

Lemma after_level_changes_limits changes (s : State) :
  (dailyLimit (spending_limits (config (after_level_changes listener changes s)))
   <= dailyLimit (spending_limits (config s)))%Q
  /\ (max_posts_per_hour
        (interaction_rules (config (after_level_changes listener changes s)))
      <= max_posts_per_hour (interaction_rules (config s)))%Q.
Proof.
  revert s. induction changes as [|[lvl why] rest IH]; intros s; simpl.
  - split; apply Qle_refl.
  - destruct (IH (final_state (updateAutonomyLevel listener lvl why s))) as [Hd Hp].
    rewrite updateAutonomyLevel_config in Hd, Hp.
    split.
    + eapply Qle_trans; [exact Hd|].
      apply (adjustLimitsForLevel_dailyLimit lvl (set_level lvl (config s))).
    + eapply Qle_trans; [exact Hp|].
      apply (adjustLimitsForLevel_max_posts lvl (set_level lvl (config s))).
Qed.

(** X12: a cap set by a change of level is not lifted by later changes of
    level.  After any series of calls of [updateAutonomyLevel] that passes
    through Restricted, the daily spending limit is at most 10 and the
    hourly post limit at most 2, also when the series ends at Autonomous;
    and no series raises either limit. *)
Theorem level_caps_are_not_lifted changes (s : State) :
  RESTRICTED ∈ changes.*1 ->
  let c' := config (after_level_changes listener changes s) in
  (dailyLimit (spending_limits c') <= 10)%Q
  /\ (max_posts_per_hour (interaction_rules c') <= 2)%Q
  /\ (dailyLimit (spending_limits c') <= dailyLimit (spending_limits (config s)))%Q
  /\ (max_posts_per_hour (interaction_rules c')
      <= max_posts_per_hour (interaction_rules (config s)))%Q.
Proof.
  intros Hin. cbv zeta.
  assert (Hcap :
    (dailyLimit (spending_limits (config (after_level_changes listener changes s)))
     <= 10)%Q
    /\ (max_posts_per_hour
          (interaction_rules (config (after_level_changes listener changes s)))
        <= 2)%Q).
  { revert s. induction changes as [|[lvl why] rest IH]; intros s.
    - apply elem_of_nil in Hin. contradiction.
    - simpl in Hin. apply elem_of_cons in Hin as [Hhere|Hlater]; simpl.
      + subst lvl.
        destruct (after_level_changes_limits rest
                    (final_state (updateAutonomyLevel listener RESTRICTED why s)))
          as [Hd Hp].
        rewrite updateAutonomyLevel_config in Hd, Hp. split.
        * eapply Qle_trans; [exact Hd|].
          apply (adjustLimitsForLevel_dailyLimit RESTRICTED). reflexivity.
        * eapply Qle_trans; [exact Hp|].
          apply (adjustLimitsForLevel_max_posts RESTRICTED). reflexivity.
      + apply IH, Hlater. }
  destruct Hcap as [Hd Hp].
  destruct (after_level_changes_limits changes s) as [Hd' Hp'].
  repeat split; assumption.
Qed.

End LevelChange.

(** Down to Restricted and back up to Autonomous: the daily limit of 100 has
    become 10, the hourly post limit of 20 has become 2. *)
Lemma level_caps_are_not_lifted_sample :
  let c' :=
    config (after_level_changes no_listeners
              [(RESTRICTED, "incident"); (AUTONOMOUS, "all clear")]
              (newController AUTONOMOUS sample_limits)) in
  level c' = AUTONOMOUS
  /\ (dailyLimit (spending_limits c') <= 10)%Q
  /\ (max_posts_per_hour (interaction_rules c') <= 2)%Q.
Proof.
  cbv zeta. split; [reflexivity|].
  destruct (level_caps_are_not_lifted no_listeners
              [(RESTRICTED, "incident"); (AUTONOMOUS, "all clear")]
              (newController AUTONOMOUS sample_limits)) as (Hd & Hp & _).
  - simpl. apply list_elem_of_here.
  - split; [exact Hd | exact Hp].
Defined.

(** ** The emergency stop *)

Section EmergencyStop.
Variable listener : string -> Listener.

Lemma emit_returns (event : string) (s : State) :
  listener event <> ListenerThrows -> event <> "error" ->
  emit listener event s = Return tt (set_emitted (emitted s ++ [event]) s).
Proof.
  intros Hl He. unfold emit.
  destruct (listener event); [|reflexivity|contradiction].
  destruct (String.eqb event "error") eqn:Heq; [|reflexivity].
  apply String.eqb_eq in Heq. contradiction.
Qed.

Lemma updateAutonomyLevel_returns lvl why (s : State) :
  listener "autonomy_level_changed" <> ListenerThrows ->
  exists s',
    updateAutonomyLevel listener lvl why s = Return tt s'
    /\ config s' = adjustLimitsForLevel lvl (set_level lvl (config s))
    /\ pendingApprovals s' = pendingApprovals s
    /\ requests s' = requests s.
Proof.
  intros Hl. unfold updateAutonomyLevel, mbind, M_bind, modify. cbv beta iota.
  rewrite emit_returns by (exact Hl || discriminate).
  eexists. split; [reflexivity|]. repeat split.
Qed.

Lemma bind_returns {A B} (m : M A) (f : A -> M B) (s s' : State) (a : A) :
  m s = Return a s' -> (m ≫= f) s = f a s'.
Proof. intros H. unfold mbind, M_bind. rewrite H. reflexivity. Qed.

Lemma for_each_cons {A} (x : A) xs (body : A -> M unit) (s : State) :
  for_each (x :: xs) body s
  = match body x s with
    | Return _ s' => for_each xs body s'
    | Raise e s' => Raise e s'
    end.
Proof. reflexivity. Qed.

Lemma cancel_one_returns (loc : nat) (s : State) :
  listener "approval_cancelled" <> ListenerThrows ->
  (write_status loc Denied ;; emit listener "approval_cancelled") s
  = Return tt
      (set_emitted (emitted s ++ ["approval_cancelled"])
         (set_requests (alter (with_status Denied) loc (requests s)) s)).
Proof.
  intros Hl. unfold write_status, mbind, M_bind, modify.
  rewrite emit_returns by (exact Hl || discriminate). reflexivity.
Qed.

(** The loop of [triggerEmergencyStop] over the entries of the map. *)
Lemma cancel_all_returns (entries : list (string * nat)) :
  listener "approval_cancelled" <> ListenerThrows ->
  forall s,
  exists s',
    for_each entries
      (fun entry => write_status (snd entry) Denied ;; emit listener "approval_cancelled") s
    = Return tt s'
    /\ config s' = config s
    /\ (forall loc,
           requests s' !! loc
           = if bool_decide (loc ∈ entries.*2) then with_status Denied <$> requests s !! loc
             else requests s !! loc).
Proof.
  intros Hl. induction entries as [|[id loc0] entries IH]; intros s.
  - exists s. split; [reflexivity|]. split; [reflexivity|]. intros loc.
    rewrite bool_decide_eq_false_2 by apply not_elem_of_nil. reflexivity.
  - rewrite for_each_cons. cbv beta. cbn [snd].
    rewrite cancel_one_returns by exact Hl.
    destruct (IH (set_emitted (emitted s ++ ["approval_cancelled"])
                    (set_requests (alter (with_status Denied) loc0 (requests s)) s)))
      as (s' & Hrun & Hcfg & Hreq).
    exists s'. split; [exact Hrun|]. split; [exact Hcfg|]. intros loc.
    rewrite Hreq. cbn [requests set_emitted set_requests fmap list_fmap snd].
    destruct (decide (loc = loc0)) as [->|Hne].
    + rewrite list_lookup_alter_eq.
      rewrite (bool_decide_eq_true_2 (loc0 ∈ loc0 :: entries.*2))
        by apply list_elem_of_here.
      destruct (bool_decide _); destruct (requests s !! loc0); reflexivity.
    + rewrite list_lookup_alter_ne by congruence.
      destruct (bool_decide (loc ∈ entries.*2)) eqn:Hin.
      * apply bool_decide_eq_true_1 in Hin.
        rewrite bool_decide_eq_true_2 by (apply list_elem_of_further, Hin).
        reflexivity.
      * apply bool_decide_eq_false_1 in Hin.
        rewrite bool_decide_eq_false_2; [reflexivity|].
        intros H. apply elem_of_cons in H as [H|H]; contradiction.
Qed.

(** X13: when the listeners of [autonomy_level_changed],
    [approval_cancelled] and [emergency_stop_triggered] do not throw,
    [triggerEmergencyStop] returns with the level at Restricted, the daily
    limit capped at 10 and the hourly post limit at 2, the map of pending
    approvals empty, every request the map listed set to denied (whatever
    its status was), and every other request as it was. *)
Theorem emergency_stop_denies_all_listed why (s : State) :
  listener "autonomy_level_changed" <> ListenerThrows ->
  listener "approval_cancelled" <> ListenerThrows ->
  listener "emergency_stop_triggered" <> ListenerThrows ->
  exists s',
    triggerEmergencyStop listener why s = Return tt s'
    /\ level (config s') = RESTRICTED
    /\ (dailyLimit (spending_limits (config s')) <= 10)%Q
    /\ (max_posts_per_hour (interaction_rules (config s')) <= 2)%Q
    /\ pendingApprovals s' = []
    /\ getPendingApprovals s' = []
    /\ (forall loc,
           requests s' !! loc
           = if bool_decide (loc ∈ jsmap_values (pendingApprovals s))
             then with_status Denied <$> requests s !! loc
             else requests s !! loc).
Proof.
  intros Hlevel Hcancel Hstop.
  destruct (updateAutonomyLevel_returns RESTRICTED ("Emergency stop: " ++ why) s Hlevel)
    as (s1 & Hrun1 & Hcfg1 & Hpend1 & Hreq1).
  destruct (cancel_all_returns (pendingApprovals s1) Hcancel s1)
    as (s2 & Hrun2 & Hcfg2 & Hreq2).
  exists (set_emitted (emitted s2 ++ ["emergency_stop_triggered"])
            (set_pendingApprovals [] s2)).
  split.
  { unfold triggerEmergencyStop.
    rewrite (bind_returns _ _ _ _ _ Hrun1).
    rewrite (bind_returns get _ s1 s1 s1 eq_refl).
    rewrite (bind_returns _ _ _ _ _ Hrun2).
    rewrite (bind_returns (modify (set_pendingApprovals [])) _ s2
               (set_pendingApprovals [] s2) tt eq_refl).
    rewrite emit_returns by (exact Hstop || discriminate). reflexivity. }
  cbn [config pendingApprovals requests set_emitted set_pendingApprovals].
  rewrite Hcfg2, Hcfg1.
  split; [apply adjustLimitsForLevel_level|].
  split; [apply (adjustLimitsForLevel_dailyLimit RESTRICTED); reflexivity|].
  split; [apply (adjustLimitsForLevel_max_posts RESTRICTED); reflexivity|].
  split; [reflexivity|]. split; [reflexivity|].
  intros loc. rewrite Hreq2, Hpend1, Hreq1. reflexivity.
Qed.

End EmergencyStop.

(** The emergency stop on [state_approval_pending]: the one request, at
    reference 0, is denied and no longer listed. *)
Lemma emergency_stop_denies_all_listed_sample :
  exists s',
    triggerEmergencyStop no_listeners "test" state_approval_pending = Return tt s'
    /\ pendingApprovals s' = []
    /\ status <$> requests s' !! 0%nat = Some Denied.
Proof.
  destruct (emergency_stop_denies_all_listed no_listeners "test" state_approval_pending)
    as (s' & Hrun & _ & _ & _ & Hpend & _ & Hreq); try discriminate.
  exists s'. split; [exact Hrun|]. split; [exact Hpend|].
  rewrite Hreq. vm_compute. reflexivity.
Defined.

(** ** Triggers that can fire *)

Section TriggerRemoval.
Variable listener : string -> Listener.

Lemma removeEscalationTrigger_config ty (s : State) :
  escalation_triggers (config (final_state (removeEscalationTrigger listener ty s)))
  = List.filter (fun t => negb (bool_decide (trigger_type t = ty)))
      (escalation_triggers (config s)).
Proof.
  unfold removeEscalationTrigger, mbind, M_bind, modify.
  rewrite emit_final_state. reflexivity.
Qed.

(** X14: [removeEscalationTrigger] takes out every trigger of the given type
    and keeps the others, in their order, whatever the listeners do; and
    since only SpendingThreshold triggers can match a decision, once those
    are removed [checkEscalationTriggers] accepts every decision and
    changes nothing. *)
Theorem removed_trigger_type_is_gone ty now rnd (d : Decision) (s : State) :
  let s1 := final_state (removeEscalationTrigger listener ty s) in
  Forall (fun t => trigger_type t <> ty) (escalation_triggers (config s1))
  /\ (forall t, t ∈ escalation_triggers (config s) -> trigger_type t <> ty ->
                t ∈ escalation_triggers (config s1))
  /\ (forall t, t ∈ escalation_triggers (config s1) ->
                t ∈ escalation_triggers (config s))
  /\ (ty = SPENDING_THRESHOLD ->
      checkEscalationTriggers listener now rnd d s1
      = Return (createValidationResult s1 true None None) s1).
Proof.
  cbv zeta.
  assert (Hall : Forall (fun t => trigger_type t <> ty)
                   (escalation_triggers
                      (config (final_state (removeEscalationTrigger listener ty s))))).
  { rewrite removeEscalationTrigger_config. apply List.Forall_forall.
    intros t Ht. apply List.filter_In in Ht as [_ Ht].
    apply negb_true_iff, bool_decide_eq_false_1 in Ht. exact Ht. }
  split; [exact Hall|]. split; [|split].
  - intros t Ht Hty. rewrite removeEscalationTrigger_config.
    apply list_elem_of_In, List.filter_In. split; [apply list_elem_of_In, Ht|].
    apply negb_true_iff, bool_decide_eq_false_2, Hty.
  - intros t Ht. rewrite removeEscalationTrigger_config in Ht.
    apply list_elem_of_In, List.filter_In in Ht as [Ht _]. apply list_elem_of_In, Ht.
  - intros ->. unfold checkEscalationTriggers.
    rewrite (bind_returns get _ _ _ _ eq_refl).
    rewrite checkEscalationTriggers_loop_none; [reflexivity|].
    eapply List.Forall_impl; [|exact Hall].
    intros t Ht. apply not_true_iff_false. rewrite evaluateTrigger_spending_only.
    intros [Hty _]. contradiction.
Qed.

End TriggerRemoval.

(** ** Responses to approval requests *)

Section Responses.
Variable listener : string -> Listener.

(** X15: [processApprovalResponse] throws its "invalid or expired" error,
    leaving the controller untouched, exactly when the id is not in the map
    of pending approvals with a request whose status is pending. *)
Theorem response_rejected_iff_not_pending now id ok who note (s : State) :
  processApprovalResponse listener now id ok who note s = Raise InvalidApprovalRequest s
  <-> ~ (exists loc r,
            jsmap_get id (pendingApprovals s) = Some loc
            /\ requests s !! loc = Some r /\ status r = Pending).
Proof.
  split.
  - intros Hrun (loc & r & Hid & Hloc & Hst). revert Hrun.
    unfold processApprovalResponse, mbind at 1, M_bind, get.
    rewrite Hid, Hloc, bool_decide_eq_true_2 by exact Hst.
    cbn [negb]. unfold mbind, M_bind, modify, updateApprovalRate, detached, emit.
    destruct ok, (listener "approval_processed"); cbn; discriminate.
  - intros Hno. apply processApprovalResponse_rejects.
    intros loc r Hid Hloc Hst. apply Hno. eauto.
Qed.

End Responses.

(** ** A request and its response *)

Section RoundTrip.
Variable listener : string -> Listener.

Lemma jsmap_get_set {V} (k : string) (v : V) (m : list (string * V)) :
  jsmap_get k m = None -> jsmap_get k (jsmap_set k v m) = Some v.
Proof.
  induction m as [|[k' v'] m IH]; simpl.
  - rewrite String.eqb_refl. reflexivity.
  - destruct (String.eqb k k') eqn:Hk; [discriminate|].
    intros H. simpl. rewrite Hk. apply IH, H.
Qed.

Lemma jsmap_delete_set {V} (k : string) (v : V) (m : list (string * V)) :
  jsmap_get k m = None -> jsmap_delete k (jsmap_set k v m) = m.
Proof.
  induction m as [|[k' v'] m IH]; simpl.
  - rewrite String.eqb_refl. reflexivity.
  - destruct (String.eqb k k') eqn:Hk; [discriminate|].
    intros H. simpl. rewrite Hk, IH by exact H. reflexivity.
Qed.

Lemma recordApprovedDecision_frame now (d : Decision) (s : State) :
  let s' := final_state (recordApprovedDecision listener now d s) in
  config s' = config s /\ pendingApprovals s' = pendingApprovals s
  /\ requests s' = requests s /\ metrics s' = metrics s.
Proof.
  unfold recordApprovedDecision, mbind, M_bind, modify, mret, M_ret.
  destruct (truthy_num _ && truthy_str _),
    (bool_decide _ && truthy_str (platform _));
    cbv beta iota zeta; rewrite emit_final_state; repeat split.
Qed.

Lemma requestApproval_returns now rnd (d : Decision) (s : State) :
  listener "approval_requested" <> ListenerThrows ->
  requestApproval listener now rnd d s
  = Return (length (requests s))
      (set_emitted (emitted s ++ ["approval_requested"])
         (set_metrics
            (set_approvals_requested (approvals_requested (metrics s) + 1) (metrics s))
            (set_pendingApprovals
               (jsmap_set (approvalIdOf now rnd) (length (requests s))
                  (pendingApprovals s))
               (set_requests
                  (requests s
                   ++ [{| request_id := approvalIdOf now rnd; request_decision := d;
                          requested_at := now;
                          timeout_at :=
                            (inject_Z now + approval_timeout (config s) * 1000)%Q;
                          status := Pending; approver := None;
                          response_time := None; notes := None |}]) s)))).
Proof.
  intros Hl. unfold requestApproval, mbind, M_bind, get, modify. cbv beta iota zeta.
  rewrite emit_returns by (exact Hl || discriminate). reflexivity.
Qed.

(** X16: a request and its response.  In a state whose map does not hold
    the id yet, and with listeners of [approval_requested] and
    [approval_processed] that do not throw, [requestApproval] followed by
    [processApprovalResponse] on the new id returns; the map of pending
    approvals is back to what it was; the store holds one more request,
    which carries the decision, the answer as its status, the approver, the
    notes and the time between the two calls; one more request is counted;
    and the ledgers are those of [recordApprovedDecision] run at the time
    of the response when the answer is yes (with no check against the
    limits), and untouched when it is no. *)
Theorem request_then_response now now' rnd (d : Decision) ok who note (s : State) :
  listener "approval_requested" <> ListenerThrows ->
  listener "approval_processed" <> ListenerThrows ->
  jsmap_get (approvalIdOf now rnd) (pendingApprovals s) = None ->
  exists s1 s2,
    requestApproval listener now rnd d s = Return (length (requests s)) s1
    /\ processApprovalResponse listener now' (approvalIdOf now rnd) ok who note s1
       = Return tt s2
    /\ pendingApprovals s2 = pendingApprovals s
    /\ requests s2
       = (requests s
          ++ [{| request_id := approvalIdOf now rnd; request_decision := d;
                 requested_at := now;
                 timeout_at := (inject_Z now + approval_timeout (config s) * 1000)%Q;
                 status := if ok then Approved else Denied;
                 approver := Some who;
                 response_time := Some (now' - now); notes := note |}])%list
    /\ approvals_requested (metrics s2) = approvals_requested (metrics s) + 1
    /\ currentSpending s2
       = (if ok then
            currentSpending (final_state (recordApprovedDecision listener now' d s))
          else currentSpending s)
    /\ interactionCounts s2
       = (if ok then
            interactionCounts (final_state (recordApprovedDecision listener now' d s))
          else interactionCounts s).
Proof.
  intros Hreq Hproc Hfresh.
  rewrite requestApproval_returns by exact Hreq.
  set (request := {| request_id := approvalIdOf now rnd; request_decision := d;
                     requested_at := now;
                     timeout_at := (inject_Z now + approval_timeout (config s) * 1000)%Q;
                     status := Pending; approver := None;
                     response_time := None; notes := None |}).
  set (s1 := set_emitted _ _).
  assert (Hid : jsmap_get (approvalIdOf now rnd) (pendingApprovals s1)
                = Some (length (requests s))).
  { apply jsmap_get_set, Hfresh. }
  assert (Hloc : requests s1 !! length (requests s) = Some request).
  { unfold s1. cbn [requests set_emitted set_metrics set_pendingApprovals set_requests].
    apply list_lookup_middle. reflexivity. }
  set (sA := set_requests
               (alter (with_response (if ok then Approved else Denied) who note
                         (now' - requested_at request)) (length (requests s))
                  (requests s1)) s1).
  set (sB := set_metrics
               (set_approval_rate
                  ((approval_rate (metrics sA)
                    * (inject_Z (approvals_requested (metrics sA)) - 1)
                    + (if ok then 1 else 0))
                   / inject_Z (approvals_requested (metrics sA)))%Q (metrics sA)) sA).
  set (sC := if ok then final_state (recordApprovedDecision listener now' d sB) else sB).
  set (sD := set_emitted (emitted sC ++ ["approval_processed"]) sC).
  exists s1, (set_pendingApprovals
                (jsmap_delete (approvalIdOf now rnd) (pendingApprovals sD)) sD).
  split; [reflexivity|].
  assert (HC : config sC = config sB /\ pendingApprovals sC = pendingApprovals sB
               /\ requests sC = requests sB /\ metrics sC = metrics sB).
  { unfold sC. destruct ok; [apply recordApprovedDecision_frame | repeat split]. }
  destruct HC as (_ & HCpend & HCreq & HCmet).
  split.
  { unfold processApprovalResponse.
    rewrite (bind_returns get _ s1 s1 s1 eq_refl).
    rewrite Hid, Hloc. cbn [status request bool_decide negb].
    rewrite bool_decide_eq_true_2 by reflexivity. cbn [negb].
    rewrite (bind_returns _ _ s1 sA tt) by reflexivity.
    rewrite (bind_returns _ _ sA sC tt).
    2:{ unfold sC. destruct ok.
        - unfold updateApprovalRate.
          rewrite (bind_returns _ _ sA sB tt) by reflexivity.
          reflexivity.
        - reflexivity. }
    rewrite (bind_returns _ _ sC sD tt).
    2:{ apply emit_returns; [exact Hproc | discriminate]. }
    reflexivity. }
  cbn [pendingApprovals requests metrics currentSpending interactionCounts
       set_pendingApprovals].
  split.
  { unfold sD. cbn [pendingApprovals set_emitted]. rewrite HCpend.
    apply jsmap_delete_set, Hfresh. }
  split.
  { unfold sD. cbn [requests set_emitted]. rewrite HCreq.
    unfold sB, sA, s1.
    cbn [requests set_emitted set_metrics set_pendingApprovals set_requests].
    apply list_eq. intros i.
    destruct (decide (i = length (requests s))) as [->|Hne].
    - rewrite list_lookup_alter_eq, !list_lookup_middle by reflexivity.
      destruct ok; reflexivity.
    - rewrite list_lookup_alter_ne by congruence.
      destruct (decide (i < length (requests s))%nat) as [Hlt|Hge].
      + rewrite !lookup_app_l by exact Hlt. reflexivity.
      + rewrite !lookup_ge_None_2 by (rewrite length_app; simpl; lia). reflexivity. }
  split.
  { unfold sD. cbn [metrics set_emitted]. rewrite HCmet. reflexivity. }
  unfold sD, sC. cbn [currentSpending interactionCounts set_emitted].
  destruct ok; [|split; reflexivity].
  rewrite !recordApprovedDecision_currentSpending,
    !recordApprovedDecision_interactionCounts.
  split; reflexivity.
Qed.

End RoundTrip.

(** A post is put up for approval at time 1000 and approved at time 2000:
    the response time is 1000 and the map is empty again. *)
Lemma request_then_response_sample :
  exists s2,
    processApprovalResponse no_listeners 2000 (approvalIdOf 1000 "r") true "owner" None
      state_approval_pending = Return tt s2
    /\ pendingApprovals s2 = []
    /\ (response_time <$> requests s2 !! 0%nat) = Some (Some 1000).
Proof.
  destruct (request_then_response no_listeners 1000 2000 "r"
              (sample_decision CONTENT_CREATION "post" (Some "twitter") None None)
              true "owner" None (newController SUPERVISED sample_limits))
    as (s1 & s2 & Hrun1 & Hrun2 & Hpend & Hreq & _); try discriminate; [reflexivity|].
  assert (Hs1 : s1 = state_approval_pending).
  { unfold state_approval_pending. rewrite Hrun1. reflexivity. }
  rewrite Hs1 in Hrun2.
  exists s2. split; [exact Hrun2|]. split; [exact Hpend|].
  rewrite Hreq. reflexivity.
Defined.

(** ** The sweep of expired requests *)

Section Sweep.
Variable listener : string -> Listener.
Hypothesis timeout_listener_returns : listener "approval_timeout" <> ListenerThrows.

Lemma jsmap_delete_subset {V} (k : string) (m : list (string * V)) e :
  e ∈ jsmap_delete k m -> e ∈ m.
Proof.
  induction m as [|[k' v'] m IH]; simpl; [auto|].
  destruct (String.eqb k k').
  - apply list_elem_of_further.
  - intros H. apply elem_of_cons in H as [->|H].
    + apply list_elem_of_here.
    + apply list_elem_of_further, IH, H.
Qed.

Lemma sweep_one_returns now entry (s : State) :
  exists s',
    sweep_one listener now entry s = Return tt s'
    /\ (forall e, e ∈ pendingApprovals s' -> e ∈ pendingApprovals s)
    /\ (forall loc,
           requests s' !! loc = requests s !! loc
           \/ exists r,
                requests s !! loc = Some r /\ expired_pending now r = true
                /\ requests s' !! loc = Some (with_status Timeout r))
    /\ (forall r', requests s' !! snd entry = Some r' -> expired_pending now r' = false).
Proof.
  unfold sweep_one. rewrite (bind_returns get _ s s s eq_refl).
  destruct (requests s !! snd entry) as [r|] eqn:Hr.
  - fold (expired_pending now r). destruct (expired_pending now r) eqn:Hexp.
    + eexists. split.
      { unfold write_status.
        rewrite (bind_returns _ _ s _ tt) by reflexivity.
        rewrite (bind_returns _ _ _ _ tt) by reflexivity.
        rewrite emit_returns by (exact timeout_listener_returns || discriminate).
        reflexivity. }
      cbn [pendingApprovals requests set_emitted set_pendingApprovals set_requests].
      split; [intros e; apply jsmap_delete_subset|]. split.
      * intros loc. destruct (decide (loc = snd entry)) as [->|Hne].
        -- right. exists r. rewrite list_lookup_alter_eq, Hr. auto.
        -- left. apply list_lookup_alter_ne. congruence.
      * intros r'. rewrite list_lookup_alter_eq, Hr. intros [= <-].
        unfold expired_pending. cbn [status with_status].
        rewrite bool_decide_eq_false_2 by discriminate. apply andb_false_r.
    + exists s. split; [reflexivity|]. split; [auto|]. split; [auto|].
      intros r'. rewrite Hr. intros [= <-]. exact Hexp.
  - exists s. split; [reflexivity|]. split; [auto|]. split; [auto|].
    intros r'. rewrite Hr. discriminate.
Qed.

Lemma expired_pending_with_status_Timeout now r :
  expired_pending now (with_status Timeout r) = false.
Proof.
  unfold expired_pending. cbn [status with_status].
  rewrite bool_decide_eq_false_2 by discriminate. apply andb_false_r.
Qed.

Lemma sweep_loop_returns now (entries : list (string * nat)) :
  forall s,
  exists s',
    for_each entries (sweep_one listener now) s = Return tt s'
    /\ (forall e, e ∈ pendingApprovals s' -> e ∈ pendingApprovals s)
    /\ (forall loc,
           requests s' !! loc = requests s !! loc
           \/ exists r,
                requests s !! loc = Some r /\ expired_pending now r = true
                /\ requests s' !! loc = Some (with_status Timeout r))
    /\ (forall e r', e ∈ entries -> requests s' !! snd e = Some r' ->
                     expired_pending now r' = false).
Proof.
  induction entries as [|e0 entries IH]; intros s.
  - exists s. split; [reflexivity|]. split; [auto|]. split; [auto|].
    intros e r' He. apply elem_of_nil in He. contradiction.
  - destruct (sweep_one_returns now e0 s) as (s1 & Hrun1 & Hsub1 & Hreq1 & Hdone1).
    destruct (IH s1) as (s' & Hrun & Hsub & Hreq & Hdone).
    exists s'. split; [rewrite for_each_cons, Hrun1; exact Hrun|].
    split; [auto|]. split.
    + intros loc.
      destruct (Hreq loc) as [Hsame|(r1 & Hr1 & Hexp1 & Hr')].
      * rewrite Hsame. apply Hreq1.
      * destruct (Hreq1 loc) as [Hsame1|(r & Hr & Hexp & Hr1')].
        -- right. exists r1. rewrite <- Hsame1. auto.
        -- exfalso. rewrite Hr1' in Hr1. injection Hr1 as <-.
           rewrite expired_pending_with_status_Timeout in Hexp1. discriminate.
    + intros e r' He Hr'. apply elem_of_cons in He as [->|He]; [|eauto].
      destruct (Hreq (snd e0)) as [Hsame|(r1 & Hr1 & Hexp1 & Hr1')].
      * apply Hdone1. rewrite <- Hsame. exact Hr'.
      * rewrite Hr1' in Hr'. injection Hr' as <-.
        apply expired_pending_with_status_Timeout.
Qed.

(** X17: the sweep of expired requests, when the listener of
    [approval_timeout] does not throw, returns and leaves no request in the
    map that is both past its deadline and pending.  The map only loses
    entries, and a request is changed only from pending and expired to
    timeout. *)
Theorem sweep_leaves_no_expired_pending now (s : State) :
  exists s',
    sweepExpiredApprovals listener now s = Return tt s'
    /\ (forall id loc r,
           (id, loc) ∈ pendingApprovals s' -> requests s' !! loc = Some r ->
           expired_pending now r = false)
    /\ (forall e, e ∈ pendingApprovals s' -> e ∈ pendingApprovals s)
    /\ (forall loc,
           requests s' !! loc = requests s !! loc
           \/ exists r,
                requests s !! loc = Some r /\ expired_pending now r = true
                /\ requests s' !! loc = Some (with_status Timeout r)).
Proof.
  destruct (sweep_loop_returns now (pendingApprovals s) s)
    as (s' & Hrun & Hsub & Hreq & Hdone).
  exists s'. split.
  { unfold sweepExpiredApprovals. rewrite (bind_returns get _ s s s eq_refl).
    exact Hrun. }
  split; [|split; assumption].
  intros id loc r Hin Hr. apply (Hdone (id, loc) r); [apply Hsub, Hin | exact Hr].
Qed.

End Sweep.

(** The sweep at time 400000 on [state_approval_pending], whose request
    expired at 301000: the request is no longer listed. *)
Lemma sweep_leaves_no_expired_pending_sample :
  exists s',
    sweepExpiredApprovals no_listeners 400000 state_approval_pending = Return tt s'
    /\ pendingApprovals s' = []
    /\ (forall id loc r,
           (id, loc) ∈ pendingApprovals s' -> requests s' !! loc = Some r ->
           expired_pending 400000 r = false).
Proof.
  destruct (sweep_leaves_no_expired_pending no_listeners) with
    (now := 400000) (s := state_approval_pending) as (s' & Hrun & Hnone & _).
  - discriminate.
  - exists s'. split; [exact Hrun|]. split; [|exact Hnone].
    vm_compute in Hrun. injection Hrun as <-. reflexivity.
Defined.

(** ** The keys of the hour buckets *)

Section HourKeys.

Lemma digit_of_pretty_N_char (d : N) :
  (d < 10)%N -> digit_of (pretty_N_char d) = Some (Z.of_N d).
Proof.
  intros H.
  assert (Hd : (d = 0 \/ d = 1 \/ d = 2 \/ d = 3 \/ d = 4 \/ d = 5 \/ d = 6
                \/ d = 7 \/ d = 8 \/ d = 9)%N) by lia.
  repeat (destruct Hd as [->|Hd]; [reflexivity|]). subst d. reflexivity.
Qed.

Lemma pretty_N_char_not_underscore (d : N) :
  Ascii.eqb (pretty_N_char d) "_" = false.
Proof. unfold pretty_N_char. repeat case_match; reflexivity. Qed.

Lemma parse_digits_pretty_N_go (x : N) :
  forall s,
    parse_digits (pretty_N_go x s) None
    = parse_digits s (if decide (x = 0)%N then None else Some (Z.of_N x)).
Proof.
  induction (N.lt_wf_0 x) as [x _ IH]. intros s.
  destruct (decide (x = 0)%N) as [->|Hx].
  - rewrite pretty_N_go_0. reflexivity.
  - rewrite pretty_N_go_step by lia.
    rewrite IH by (apply N.div_lt; lia).
    cbn [parse_digits].
    rewrite digit_of_pretty_N_char by (apply N.mod_lt; lia).
    f_equal. f_equal.
    pose proof (N.div_mod x 10 ltac:(lia)) as Hdm.
    destruct (decide (x `div` 10 = 0)%N) as [H0|H0]; simpl; lia.
Qed.

Lemma pretty_N_go_head (x : N) :
  forall s,
    (exists c s', s = String c s' /\ digit_of c <> None) \/ (0 < x)%N ->
    exists c s', pretty_N_go x s = String c s' /\ digit_of c <> None.
Proof.
  induction (N.lt_wf_0 x) as [x _ IH]. intros s Hs.
  destruct (decide (x = 0)%N) as [->|Hx].
  - rewrite pretty_N_go_0. destruct Hs as [Hs|Hs]; [exact Hs | lia].
  - rewrite pretty_N_go_step by lia. apply IH; [apply N.div_lt; lia|].
    left. eexists _, _. split; [reflexivity|].
    rewrite digit_of_pretty_N_char by (apply N.mod_lt; lia). discriminate.
Qed.

Lemma split_on_pretty_N_go (x : N) :
  forall s,
    split_on "_" s = [s] -> split_on "_" (pretty_N_go x s) = [pretty_N_go x s].
Proof.
  induction (N.lt_wf_0 x) as [x _ IH]. intros s Hs.
  destruct (decide (x = 0)%N) as [->|Hx].
  - rewrite pretty_N_go_0. exact Hs.
  - rewrite pretty_N_go_step by lia. apply IH; [apply N.div_lt; lia|].
    cbn [split_on]. rewrite pretty_N_char_not_underscore, Hs. reflexivity.
Qed.

Lemma parseInt_digit_head (c : ascii) (s : string) :
  digit_of c <> None -> parseInt (String c s) = parse_digits (String c s) None.
Proof.
  intros H. destruct c as [[] [] [] [] [] [] [] []];
    first [ reflexivity | exfalso; apply H; reflexivity ].
Qed.

Lemma parseInt_pretty (z : Z) : parseInt (pretty z) = Some z.
Proof.
  assert (Hpos : forall p : positive,
             parse_digits (pretty_N_go (N.pos p) "") None = Some (Z.pos p)).
  { intros p. rewrite parse_digits_pretty_N_go. reflexivity. }
  destruct z as [|p|p].
  - reflexivity.
  - change (pretty (Z.pos p)) with (pretty_N_go (N.pos p) "").
    destruct (pretty_N_go_head (N.pos p) "") as (c & s' & Heq & Hc); [right; lia|].
    rewrite Heq, parseInt_digit_head by exact Hc. rewrite <- Heq. apply Hpos.
  - change (pretty (Z.neg p)) with (String "-" (pretty_N_go (N.pos p) "")).
    cbn [parseInt]. rewrite Hpos. reflexivity.
Qed.

Lemma split_on_pretty (z : Z) : split_on "_" (pretty z) = [pretty z].
Proof.
  destruct z as [|p|p].
  - reflexivity.
  - change (pretty (Z.pos p)) with (pretty_N_go (N.pos p) "").
    apply split_on_pretty_N_go. reflexivity.
  - change (pretty (Z.neg p)) with (String "-" (pretty_N_go (N.pos p) "")).
    cbn [split_on]. rewrite split_on_pretty_N_go by reflexivity. reflexivity.
Qed.

Lemma split_on_app (sep : ascii) (a b : string) :
  exists l, l <> [] /\ split_on sep (a ++ String sep b) = (l ++ split_on sep b)%list.
Proof.
  induction a as [|c a (l & Hl & IH)]; simpl.
  - rewrite Ascii.eqb_refl. exists [""]. split; [discriminate | reflexivity].
  - destruct (Ascii.eqb c sep).
    + exists ("" :: l). split; [discriminate|]. rewrite IH. reflexivity.
    + rewrite IH. destruct l as [|h t]; [contradiction|].
      exists (String c h :: t). split; [discriminate | reflexivity].
Qed.

Lemma last_app_nonempty {A} (l m : list A) (d : A) :
  m <> [] -> List.last (l ++ m) d = List.last m d.
Proof.
  intros Hm. induction l as [|a l IH]; [reflexivity|].
  cbn [app List.last]. destruct (l ++ m)%list eqn:Hlm; [|exact IH].
  apply app_eq_nil in Hlm as [_ ->]. contradiction.
Qed.

Lemma string_length_app (a b : string) :
  String.length (a ++ b) = (String.length a + String.length b)%nat.
Proof. induction a as [|c a IH]; simpl; [reflexivity | rewrite IH; reflexivity]. Qed.

Lemma string_app_inv_tail (t a b : string) : a ++ t = b ++ t -> a = b.
Proof.
  revert b. induction a as [|c a IH]; intros [|c' b] H; simpl in H.
  - reflexivity.
  - apply (f_equal String.length) in H.
    rewrite !string_length_app in H. simpl in H. lia.
  - apply (f_equal String.length) in H.
    rewrite !string_length_app in H. simpl in H. lia.
  - injection H as -> H. f_equal. apply IH, H.
Qed.

Lemma key_hour_hourlyKey (platform : string) (now : Z) :
  key_hour (hourlyKey platform now) = Some (now / (60 * 60 * 1000)).
Proof.
  unfold key_hour, hourlyKey.
  change ("_" ++ pretty (now / (60 * 60 * 1000)))
    with (String "_" (pretty (now / (60 * 60 * 1000)))).
  destruct (split_on_app "_" platform (pretty (now / (60 * 60 * 1000))))
    as (l & _ & ->).
  rewrite last_app_nonempty by (rewrite split_on_pretty; discriminate).
  rewrite split_on_pretty. cbn [List.last].
  pose proof (parseInt_pretty (now / (60 * 60 * 1000))) as Hparse.
  destruct (pretty (now / (60 * 60 * 1000))) as [|c s]; [discriminate Hparse|].
  exact Hparse.
Qed.

(** X18: the key of an hour bucket can be read back.  For every platform
    name (also one that contains an underscore) and every time, the hour
    that the hourly clean-up parses out of the key that
    [validateInteractionLimits] and [recordApprovedDecision] build is the
    hour the key was built from; and two keys are equal only for the same
    platform and the same hour, so no two buckets share a count. *)
Theorem hour_key_round_trip (platform platform' : string) (now now' : Z) :
  key_hour (hourlyKey platform now) = Some (now / (60 * 60 * 1000))
  /\ (hourlyKey platform now = hourlyKey platform' now' <->
      platform = platform' /\ now / (60 * 60 * 1000) = now' / (60 * 60 * 1000)).
Proof.
  split; [apply key_hour_hourlyKey|]. split.
  - intros Heq.
    assert (Hhour : now / (60 * 60 * 1000) = now' / (60 * 60 * 1000)).
    { pose proof (f_equal key_hour Heq) as H.
      rewrite !key_hour_hourlyKey in H. injection H as H. exact H. }
    split; [|exact Hhour].
    unfold hourlyKey in Heq. rewrite Hhour in Heq.
    apply string_app_inv_tail in Heq. exact Heq.
  - intros [-> Hhour]. unfold hourlyKey. rewrite Hhour. reflexivity.
Qed.

Lemma pruneInteractionCounts_lookup now' (s : State) (platform : string) (now : Z) :
  interactionCounts (final_state (pruneInteractionCounts now' s))
    !! hourlyKey platform now
  = if now / (60 * 60 * 1000) <? now' / (60 * 60 * 1000) - 24 then None
    else interactionCounts s !! hourlyKey platform now.
Proof.
  unfold pruneInteractionCounts, modify.
  cbn [final_state interactionCounts set_interactionCounts].
  apply option_eq. intros x. rewrite map_lookup_filter_Some.
  cbn [fst]. rewrite key_hour_hourlyKey.
  destruct (_ <? _); split; intros H;
    first [ discriminate | destruct H; discriminate | tauto | auto ].
Qed.

(** X19: the hourly clean-up of the interaction counts removes the bucket
    of a platform and hour exactly when the hour lies more than 24 hours
    before the hour of the clean-up, and leaves every other bucket's count
    as it is; so a clean-up that runs no later than 24 hours after a
    decision is checked does not change what [validateInteractionLimits]
    answers for it. *)
Theorem cleanup_removes_only_old_buckets now' (s : State) :
  (forall platform now,
      interactionCounts (final_state (pruneInteractionCounts now' s))
        !! hourlyKey platform now
      = if now / (60 * 60 * 1000) <? now' / (60 * 60 * 1000) - 24 then None
        else interactionCounts s !! hourlyKey platform now)
  /\ (forall now d,
         now' / (60 * 60 * 1000) - 24 <= now / (60 * 60 * 1000) ->
         validateInteractionLimits now (final_state (pruneInteractionCounts now' s)) d
         = validateInteractionLimits now s d).
Proof.
  split; [intros platform now; apply pruneInteractionCounts_lookup|].
  intros now d Hrecent. unfold validateInteractionLimits.
  rewrite pruneInteractionCounts_lookup.
  destruct (_ <? _) eqn:Hold; [apply Z.ltb_lt in Hold; lia|].
  reflexivity.
Qed.

End HourKeys.

(** ** When [validateDecision] returns *)

Section Returns.
Variable numToString : Q -> string.
Variable listener : string -> Listener.

(** X20: [validateDecision] returns a result, for every decision and from
    every state, when a listener is registered for [error] and returns, or
    when no listener of any event throws.  In the first case an exception
    in its [try] block becomes a denial with escalation_required = true
    and the reason of a validation error. *)
Theorem validateDecision_returns now rnd (d : Decision) (s : State) :
  listener "error" = ListenerReturns
  \/ (forall event, listener event <> ListenerThrows) ->
  exists r s',
    validateDecision numToString listener now rnd d s = Return r s'
    /\ (listener "error" = ListenerReturns ->
        forall e s1,
          validateDecision_body numToString listener now rnd d s = Raise e s1 ->
          r = {| approved := false; reason := Some "Validation error occurred";
                 escalation_required := Some true;
                 result_timeout := Some (approval_timeout (config s1)) |}).
Proof.
  intros [Herror|Hquiet].
  - destruct (validateDecision_catches numToString listener now rnd d s Herror)
      as [(r & s' & Hrun) Hcatch].
    exists r, s'. split; [exact Hrun|]. intros _ e s1 Hbody.
    destruct (Hcatch e s1 Hbody) as (s2 & Hrun2).
    rewrite Hrun in Hrun2. injection Hrun2 as -> _. reflexivity.
  - destruct (validateDecision_never_throws numToString listener Hquiet now rnd d s)
      as (r & s' & Hrun).
    exists r, s'. split; [exact Hrun|]. intros Herror e s1 Hbody.
    destruct (validateDecision_catches numToString listener now rnd d s Herror)
      as [_ Hcatch].
    destruct (Hcatch e s1 Hbody) as (s2 & Hrun2).
    rewrite Hrun in Hrun2. injection Hrun2 as -> _. reflexivity.
Qed.

End Returns.

(** A payment whose [decision_approved] listener throws, on a controller
    with a listener for [error]: the call returns a denial. *)
Lemma validateDecision_returns_sample :
  exists r s',
    validateDecision sample_numToString throwing_approval_listener 1000 "r"
      sample_payment (newController AUTONOMOUS sample_limits) = Return r s'
    /\ approved r = false /\ escalation_required r = Some true.
Proof.
  destruct (validateDecision_returns sample_numToString throwing_approval_listener
              1000 "r" sample_payment (newController AUTONOMOUS sample_limits))
    as (r & s' & Hrun & Hcatch); [left; reflexivity|].
  exists r, s'. split; [exact Hrun|].
  destruct (validateDecision_body sample_numToString throwing_approval_listener
              1000 "r" sample_payment (newController AUTONOMOUS sample_limits))
    as [r0 s0|e s1] eqn:Hbody; [vm_compute in Hbody; discriminate Hbody|].
  rewrite (Hcatch eq_refl e s1 eq_refl). split; reflexivity.
Defined.

(** ** Immediate actions *)

Section Actions.
Variable numToString : Q -> string.
Variable listener : string -> Listener.

Lemma try_catch_returns {A} (body : M A) handler (s s' : State) (a : A) :
  body s = Return a s' -> try_catch body handler s = Return a s'.
Proof. intros H. unfold try_catch. rewrite H. reflexivity. Qed.

Lemma mapActionToDecisionType_cases (a : Action) :
  mapActionToDecisionType a = CONTENT_CREATION
  \/ mapActionToDecisionType a = FINANCIAL_TRANSACTION
  \/ mapActionToDecisionType a = PLATFORM_INTERACTION.
Proof.
  unfold mapActionToDecisionType.
  repeat case_match; auto.
Qed.

(** X21: [validateAction] refuses every action at level Restricted, and
    every post, reply and payment at level Supervised: it returns false,
    whatever the action's fields and whatever the listeners do, and only
    records the decision it has built in the history. *)
Theorem validateAction_refused_at_low_levels now rnd (a : Action) (s : State) :
  level (config s) = RESTRICTED
  \/ (level (config s) = SUPERVISED
      /\ mapActionToDecisionType a <> PLATFORM_INTERACTION) ->
  validateAction numToString listener now rnd a s
  = Return false (submitted (actionDecision now a) s).
Proof.
  intros Hlvl.
  assert (Hdenied : isDecisionTypeAllowed s (decision_type (actionDecision now a)) = false).
  { unfold isDecisionTypeAllowed. cbn [decision_type actionDecision].
    destruct (mapActionToDecisionType_cases a) as [H|[H|H]];
      destruct Hlvl as [->|[-> Hty]]; rewrite H in *;
        first [ reflexivity | contradiction ]. }
  unfold validateAction.
  rewrite (bind_returns _ _ _ _ _
             (validateDecision_type_denied numToString listener now rnd
                (actionDecision now a) s Hdenied)).
  reflexivity.
Qed.

(** X22: a payment that is validated as an immediate action is not held
    against the spending limits.  The decision that [validateAction]
    builds carries no [estimated_cost] and no currency, so at level
    Autonomous, with triggers whose thresholds are not negative and a
    listener of [decision_approved] that does not throw, [validateAction]
    returns true for a payment of any amount and leaves the day's spending
    as it is. *)
Theorem payment_action_skips_spending_limits now rnd (a : Action) (s : State) :
  action_type a = Some "payment" ->
  level (config s) = AUTONOMOUS ->
  Forall (fun t => (0 <= threshold t)%Q) (escalation_triggers (config s)) ->
  listener "decision_approved" <> ListenerThrows ->
  exists s',
    validateAction numToString listener now rnd a s = Return true s'
    /\ currentSpending s' = currentSpending s
    /\ interactionCounts s' = interactionCounts s.
Proof.
  intros Hpay Hlvl Hthr Hl.
  set (d := actionDecision now a).
  assert (Hty : decision_type d = FINANCIAL_TRANSACTION).
  { unfold d. cbn [decision_type actionDecision]. unfold mapActionToDecisionType.
    rewrite Hpay. reflexivity. }
  assert (Hnone : Forall (fun t => evaluateTrigger t d = false)
                    (escalation_triggers (config (submitted d s)))).
  { change (config (submitted d s)) with (config s).
    eapply List.Forall_impl; [|exact Hthr]. intros t Ht.
    apply not_true_iff_false. rewrite evaluateTrigger_spending_only.
    intros [_ Hlt]. unfold d in Hlt. cbn [estimated_cost actionDecision num_or_zero] in Hlt.
    apply Qlt_not_le in Hlt. contradiction. }
  exists (set_emitted (emitted s ++ ["decision_approved"]) (submitted d s)).
  split; [|split; reflexivity].
  set (s' := set_emitted (emitted s ++ ["decision_approved"]) (submitted d s)).
  assert (Hrun : validateDecision numToString listener now rnd d s
                 = Return (createValidationResult s' true
                             (Some "Decision approved within autonomy parameters") None)
                     s');
    [|unfold validateAction; fold d;
      rewrite (bind_returns _ _ _ _ _ Hrun); reflexivity].
  rewrite validateDecision_type_allowed
    by (unfold isDecisionTypeAllowed; rewrite Hlvl; reflexivity).
  apply try_catch_returns.
  rewrite validateDecision_spending_skipped
    by (rewrite Hty; reflexivity).
  rewrite Hty. rewrite !bool_decide_eq_false_2 by discriminate.
  unfold when_applies. rewrite unless_denied_reader.
  assert (Hrisk : validateRiskLevel (submitted d s) d
                  = createValidationResult (submitted d s) true None None).
  { unfold validateRiskLevel. change (config (submitted d s)) with (config s).
    rewrite Hlvl. reflexivity. }
  rewrite Hrisk. cbn [approved createValidationResult].
  erewrite bind_returns.
  2:{ unfold checkEscalationTriggers.
      rewrite (bind_returns get _ _ _ _ eq_refl).
      rewrite checkEscalationTriggers_loop_none by exact Hnone. reflexivity. }
  cbn [escalation_required createValidationResult].
  rewrite bool_decide_eq_false_2 by discriminate.
  assert (Hrec : recordApprovedDecision listener now d (submitted d s) = Return tt s').
  { unfold recordApprovedDecision.
    assert (Hcost : truthy_num (estimated_cost d) = false) by reflexivity.
    rewrite Hcost, Hty. rewrite bool_decide_eq_false_2 by discriminate. cbn [andb].
    rewrite (bind_returns (mret tt) _ _ _ tt eq_refl).
    rewrite (bind_returns (mret tt) _ _ _ tt eq_refl).
    rewrite emit_returns by (exact Hl || discriminate). reflexivity. }
  rewrite (bind_returns _ _ _ _ _ Hrec). reflexivity.
Qed.

End Actions.

(** At level Restricted a payment action is refused. *)
Lemma validateAction_refused_at_low_levels_sample :
  returned
    (validateAction sample_numToString no_listeners 1000 "r" sample_payment_action
       (newController RESTRICTED sample_limits))
  = Some false.
Proof.
  rewrite (validateAction_refused_at_low_levels sample_numToString no_listeners 1000 "r"
             sample_payment_action (newController RESTRICTED sample_limits)).
  - reflexivity.
  - left. reflexivity.
Defined.

(** A payment action of 5000 is accepted by a controller whose limits are
    100 a day and 50 a transaction, and nothing is entered in the ledger. *)
Lemma payment_action_skips_spending_limits_sample :
  exists s',
    validateAction sample_numToString no_listeners 1000 "r" sample_payment_action
      (newController AUTONOMOUS sample_limits) = Return true s'
    /\ currentSpending s' = ∅.
Proof.
  destruct (payment_action_skips_spending_limits sample_numToString no_listeners
              1000 "r" sample_payment_action (newController AUTONOMOUS sample_limits))
    as (s' & Hrun & Hledger & _).
  - reflexivity.
  - reflexivity.
  - repeat constructor; discriminate.
  - discriminate.
  - exists s'. split; [exact Hrun | exact Hledger].
Defined.

(** ** Reading the history *)

Section ReadingHistory.
Variable numToString : Q -> string.
Variable listener : string -> Listener.

Lemma js_slice_from_last {A} (n : Z) (l : list A) :
  0 < n -> js_slice_from (- n) l = drop (length l - Z.to_nat n) l.
Proof.
  intros Hn. unfold js_slice_from.
  destruct (- n <? 0) eqn:Hneg; [|apply Z.ltb_ge in Hneg; lia].
  f_equal. lia.
Qed.

(** X23: [getDecisionHistory] with a positive limit returns the last
    [limit] decisions of the history (all of them when there are fewer),
    and 100 is the limit when none is given; with limit 0 it returns the
    whole history, not an empty list; and the decision that
    [validateDecision] was last called with is the last entry returned,
    for every positive limit. *)
Theorem getDecisionHistory_window (limit : Z) (s : State) :
  (0 < limit ->
   getDecisionHistory (Some limit) s
   = drop (length (decisionHistory s) - Z.to_nat limit) (decisionHistory s)
   /\ length (getDecisionHistory (Some limit) s)
      = Nat.min (Z.to_nat limit) (length (decisionHistory s))
   /\ forall now rnd d,
        last (getDecisionHistory (Some limit)
                (final_state (validateDecision numToString listener now rnd d s)))
        = Some d)
  /\ getDecisionHistory (Some 0) s = decisionHistory s
  /\ getDecisionHistory None s = getDecisionHistory (Some 100) s.
Proof.
  split; [|split; [|reflexivity]].
  2:{ unfold getDecisionHistory, js_slice_from. simpl.
      rewrite Z.min_l by lia. reflexivity. }
  intros Hpos. unfold getDecisionHistory. simpl.
  split; [apply js_slice_from_last, Hpos|]. split.
  - rewrite js_slice_from_last, length_drop by exact Hpos. unfold id. lia.
  - intros now rnd d. simpl. rewrite js_slice_from_last by exact Hpos.
    destruct (validateDecision_history numToString listener now rnd d s) as [-> _].
    rewrite drop_app_le by (rewrite length_app; simpl; lia).
    apply last_snoc.
Qed.

End ReadingHistory.

(** ** The earnings tracker *)

Section Earnings.

Lemma sum_amounts_from {A} (amount_of : A -> Q) (xs : list A) (start : Q) :
  (fold_left (fun sum x => sum + amount_of x) xs start
   == start + sum_amounts amount_of xs)%Q.
Proof.
  unfold sum_amounts. revert start. induction xs as [|x xs IH]; intros start; simpl.
  - lra.
  - rewrite (IH (start + amount_of x)%Q), (IH (0 + amount_of x)%Q). lra.
Qed.

Lemma sum_amounts_cons {A} (amount_of : A -> Q) (x : A) (xs : list A) :
  (sum_amounts amount_of (x :: xs) == amount_of x + sum_amounts amount_of xs)%Q.
Proof.
  unfold sum_amounts at 1. simpl. rewrite sum_amounts_from. lra.
Qed.

Lemma sum_amounts_snoc {A} (amount_of : A -> Q) (x : A) (xs : list A) :
  sum_amounts amount_of (xs ++ [x]) = (sum_amounts amount_of xs + amount_of x)%Q.
Proof. unfold sum_amounts. rewrite fold_left_app. reflexivity. Qed.

Lemma sum_amounts_filter_le {A} (amount_of : A -> Q) (keep keep' : A -> bool)
    (xs : list A) :
  Forall (fun x => (0 <= amount_of x)%Q) xs ->
  (forall x, keep x = true -> keep' x = true) ->
  (0 <= sum_amounts amount_of (List.filter keep xs)
   <= sum_amounts amount_of (List.filter keep' xs))%Q.
Proof.
  intros Hpos Hsub. induction Hpos as [|x xs Hx _ IH]; simpl.
  - unfold sum_amounts. simpl. lra.
  - pose proof (Hsub x) as Hx'.
    destruct (keep x), (keep' x);
      rewrite ?sum_amounts_cons; first [ lra | discriminate (Hx' eq_refl) ].
Qed.

Lemma filter_true {A} (xs : list A) : List.filter (fun _ => true) xs = xs.
Proof. induction xs as [|x xs IH]; simpl; [reflexivity | rewrite IH; reflexivity]. Qed.

(** X24: in the earnings report, when no recorded payment has a negative
    amount, the earnings of the last day are at most those of the last
    week, which are at most those of the last 30 days, which are at most
    the total, and none of them is negative; the withdrawable balance of
    the report is the one [getWithdrawableBalance] computes. *)
Theorem report_periods_are_nested now (t : EarningsTracker) :
  Forall (fun p => (0 <= payment_amount p)%Q) (payments t) ->
  let report := generateReport now t in
  (0 <= dailyEarnings report)%Q
  /\ (dailyEarnings report <= weeklyEarnings report)%Q
  /\ (weeklyEarnings report <= monthlyEarnings report)%Q
  /\ (monthlyEarnings report <= totalEarnings report)%Q
  /\ withdrawableBalance report = getWithdrawableBalance t.
Proof.
  intros Hpos. cbv zeta. unfold generateReport, payments_within.
  cbn [dailyEarnings weeklyEarnings monthlyEarnings totalEarnings withdrawableBalance].
  split; [|split; [|split; [|split; [|reflexivity]]]].
  - apply (sum_amounts_filter_le payment_amount _ _ _ Hpos (fun x H => H)).
  - apply (sum_amounts_filter_le payment_amount _
             (fun p => now - payment_timestamp p <? 7 * (24 * 60 * 60 * 1000))
             _ Hpos).
    intros p H. apply Z.ltb_lt in H. apply Z.ltb_lt. lia.
  - apply (sum_amounts_filter_le payment_amount _
             (fun p => now - payment_timestamp p <? 30 * (24 * 60 * 60 * 1000))
             _ Hpos).
    intros p H. apply Z.ltb_lt in H. apply Z.ltb_lt. lia.
  - rewrite <- (filter_true (payments t)) at 2.
    apply (sum_amounts_filter_le payment_amount _ (fun _ => true) _ Hpos).
    reflexivity.
Qed.

(** The totals kept in the map of sources. *)
Lemma streamMap_set_total (k : string) (v : StreamTotals)
    (m : list (string * StreamTotals)) :
  (sum_amounts (fun e => total (snd e)) (jsmap_set k v m)
   == sum_amounts (fun e => total (snd e)) m
      - total (default {| total := 0; count := 0; lastPayment := 0 |} (jsmap_get k m))
      + total v)%Q.
Proof.
  induction m as [|[k' v'] m IH]; simpl.
  - unfold sum_amounts. simpl. lra.
  - destruct (String.eqb k k'); rewrite !sum_amounts_cons; simpl.
    + lra.
    + rewrite IH. lra.
Qed.

Lemma jsmap_set_fst {V} (k : string) (v : V) (m : list (string * V)) :
  map fst (jsmap_set k v m)
  = if bool_decide (k ∈ map fst m) then map fst m else (map fst m ++ [k])%list.
Proof.
  induction m as [|[k' v'] m IH]; simpl; [reflexivity|].
  destruct (String.eqb k k') eqn:Hk; simpl.
  - apply String.eqb_eq in Hk as ->.
    rewrite bool_decide_eq_true_2 by apply list_elem_of_here. reflexivity.
  - apply String.eqb_neq in Hk. rewrite IH.
    destruct (bool_decide (k ∈ map fst m)) eqn:Hin.
    + apply bool_decide_eq_true_1 in Hin.
      rewrite bool_decide_eq_true_2 by (apply list_elem_of_further, Hin). reflexivity.
    + apply bool_decide_eq_false_1 in Hin.
      rewrite bool_decide_eq_false_2; [reflexivity|].
      intros H. apply elem_of_cons in H as [H|H]; contradiction.
Qed.

Lemma streamMap_of_snoc (ps : list PaymentRecord) (p : PaymentRecord) :
  streamMap_of (ps ++ [p])
  = let current :=
      default {| total := 0; count := 0; lastPayment := 0 |}
        (jsmap_get (payment_source p) (streamMap_of ps)) in
    jsmap_set (payment_source p)
      {| total := (total current + payment_amount p)%Q;
         count := count current + 1;
         lastPayment := Z.max (lastPayment current) (payment_timestamp p) |}
      (streamMap_of ps).
Proof. unfold streamMap_of. rewrite fold_left_app. reflexivity. Qed.

Lemma streamMap_of_totals (ps : list PaymentRecord) :
  (sum_amounts (fun e => total (snd e)) (streamMap_of ps)
   == sum_amounts payment_amount ps)%Q
  /\ NoDup (map fst (streamMap_of ps))
  /\ (forall p, p ∈ ps -> payment_source p ∈ map fst (streamMap_of ps)).
Proof.
  induction ps as [|p ps (Ht & Hnd & Hin)] using rev_ind.
  - repeat split; try reflexivity; [constructor|].
    intros p Hp. apply elem_of_nil in Hp. contradiction.
  - rewrite streamMap_of_snoc. cbv zeta. split; [|split].
    + rewrite streamMap_set_total, sum_amounts_snoc. simpl. rewrite Ht. lra.
    + rewrite jsmap_set_fst.
      destruct (bool_decide _) eqn:Hk; [exact Hnd|].
      apply bool_decide_eq_false_1 in Hk.
      apply NoDup_app. split; [exact Hnd|]. split; [|apply NoDup_singleton].
      intros x Hx Hx'. apply list_elem_of_singleton in Hx' as ->. contradiction.
    + intros p' Hp'. rewrite jsmap_set_fst.
      destruct (bool_decide _) eqn:Hk.
      * apply bool_decide_eq_true_1 in Hk.
        apply elem_of_app in Hp' as [Hp'|Hp']; [apply Hin, Hp'|].
        apply list_elem_of_singleton in Hp' as ->. exact Hk.
      * apply elem_of_app.
        apply elem_of_app in Hp' as [Hp'|Hp']; [left; apply Hin, Hp'|].
        apply list_elem_of_singleton in Hp' as ->. right. apply list_elem_of_here.
Qed.


Lemma getWithdrawableBalance_recordWithdrawal now q hash (t : EarningsTracker) :
  getWithdrawableBalance (recordWithdrawal now q hash t)
  = (sum_amounts payment_amount (payments t)
     - (sum_amounts withdrawal_amount (withdrawals t) + q))%Q.
Proof.
  unfold getWithdrawableBalance, recordWithdrawal. cbn [payments withdrawals].
  rewrite sum_amounts_snoc. reflexivity.
Qed.


End Earnings.

(** The report on [sample_tracker] at time 4000: 30 in every period. *)
Lemma report_periods_are_nested_sample :
  let report := generateReport 4000 sample_tracker in
  (totalEarnings report == 30)%Q
  /\ (dailyEarnings report <= weeklyEarnings report)%Q
  /\ (monthlyEarnings report <= totalEarnings report)%Q.
Proof.
  cbv zeta. split; [vm_compute; reflexivity|].
  destruct (report_periods_are_nested 4000 sample_tracker) as (_ & H1 & _ & H3 & _).
  - repeat constructor; discriminate.
  - split; [exact H1 | exact H3].
Defined.

(** ** A request that has been answered *)

Section Answered.
Variable numToString : Q -> string.
Variable listener : string -> Listener.

Lemma approvalTimeoutFired_noop id (s : State) :
  (forall loc r,
      jsmap_get id (pendingApprovals s) = Some loc ->
      requests s !! loc = Some r -> status r <> Pending) ->
  approvalTimeoutFired listener id s = Return tt s.
Proof.
  intros H. unfold approvalTimeoutFired.
  rewrite (bind_returns get _ s s s eq_refl).
  destruct (jsmap_get id (pendingApprovals s)) as [loc|]; [|reflexivity].
  destruct (requests s !! loc) as [r|] eqn:Hr; [|reflexivity].
  rewrite bool_decide_eq_false_2 by (apply (H loc r); [reflexivity | exact Hr]).
  reflexivity.
Qed.


End Answered.


(** ** Payments that are approved *)

Section PaymentApproved.
Variable numToString : Q -> string.
Variable listener : string -> Listener.


End PaymentApproved.



(** ** Payment streams *)

Section Streams.

Lemma stream_run_stopped evs (st : PaymentStream) (t : EarningsTracker) :
  stream_active st = false ->
  stream_totalPaid (fst (stream_run evs st t)) = stream_totalPaid st
  /\ snd (stream_run evs st t) = t.
Proof.
  revert st. induction evs as [|ev evs IH]; intros st Hst; simpl; [auto|].
  destruct ev as [now|]; simpl.
  - rewrite Hst. apply IH, Hst.
  - apply (IH (stream_stop st)). reflexivity.
Qed.

Lemma stream_run_ticks (times : list Z) (st : PaymentStream) (t : EarningsTracker) :
  stream_active st = true ->
  let n := inject_Z (Z.of_nat (length times)) in
  let out := stream_run (map StreamTick times) st t in
  (stream_totalPaid (fst out) == stream_totalPaid st + n * (stream_rate st / 60))%Q
  /\ (getWithdrawableBalance (snd out)
      == getWithdrawableBalance t + n * (stream_rate st / 60))%Q
  /\ stream_active (fst out) = true
  /\ stream_rate (fst out) = stream_rate st.
Proof.
  cbv zeta. revert st t. induction times as [|now times IH]; intros st t Hst.
  - simpl. change (inject_Z (Z.of_nat 0)) with 0%Q.
    split; [lra | split; [lra | split; [assumption | reflexivity]]].
  - cbn [map stream_run stream_step]. rewrite Hst. unfold stream_processPayment.
    cbv zeta.
    match goal with
    | |- context [stream_run _ ?st1 ?t1] =>
        destruct (IH st1 t1 Hst) as (Hp & Hb & Ha & Hr)
    end.
    cbn [stream_rate stream_totalPaid payment_amount] in Hp, Hb, Hr.
    split; [|split; [|split; assumption]].
    + rewrite Hp. cbn [length]. rewrite Nat2Z.inj_succ, <- Z.add_1_r, inject_Z_plus.
      change (inject_Z 1) with 1%Q. lra.
    + rewrite Hb. unfold getWithdrawableBalance, recordPayment.
      cbn [payments withdrawals]. rewrite sum_amounts_snoc.
      cbn [payment_amount length].
      rewrite Nat2Z.inj_succ, <- Z.add_1_r, inject_Z_plus. change (inject_Z 1) with 1%Q. lra.
Qed.


End Streams.

